(** * Document preview controls: a shallow embedding

    The repository holds two PCF controls that preview a Dataverse file
    column: [DocumentPreview] (src/DocumentPreview/index.ts, preview in a
    modal dialog behind a button) and [DocumentPreviewInline] (the second
    source file, preview inside the form).  Both share the attachment
    check, the MIME sniffing of [downloadFile], the dispatch of
    [renderFilePreview] and the zoom clamp; they differ in their user
    interface and in the object URLs they hold.

    Conventions of the embedding:
    - a JavaScript string is a [string] that holds the text in UTF-8, as
      the string literals of this file do.  The code looks in its strings
      for ASCII characters only (the dot, the braces, the letters of the
      extensions): [toLowerCase] folds the ASCII letters, and an index or
      a length counts bytes, which the code compares with each other and
      with 0 only.  The exception is [trim], whose white space is written
      out in UTF-8;
    - a JavaScript number is an IEEE 754 binary64 value, [spec_float] with
      [prec = 53] and [emax = 1024];
    - an [async] method is a computation in a state-and-exception monad;
      the answers of the outside world (Web API, fetch, pdf.js,
      docx-preview, FileReader, the host's resources) are arguments of the
      handler that awaits them, and every call to the outside world is
      recorded in a history;
    - a handler runs to its end before the next event is handled: the work
      of the controls is sequential, awaited in order, and the host answers
      [getResource] before it calls the control again.  Object URLs of
      files are created and revoked only in stretches of code that hold no
      [await] (the stretch that follows the download, the Close button,
      [destroy]), so the order of these calls in a run with interleaved
      handlers is their order in a run without;
    - of the DOM the model keeps what the handlers read back or what the
      user is told: the button and its label, the modal and its title, the
      children of the zoom wrapper and its scale.  Styles, canvas sizes and
      console output are left out. *)

From Stdlib Require Import String Ascii List ZArith Bool Lia PeanoNat.
From Stdlib Require Import SpecFloat.
Import ListNotations.
Local Open Scope string_scope.
Local Open Scope Z_scope.

(* ===================================================================== *)
(** ** JavaScript strings *)
(* ===================================================================== *)

Module Js.

(** [c.toLowerCase()] on one ASCII code unit. *)
Definition lower_ascii (c : ascii) : ascii :=
  let n := nat_of_ascii c in
  if (Nat.leb 65 n && Nat.leb n 90)%bool then ascii_of_nat (n + 32) else c.

(** [s.toLowerCase()]. *)
Fixpoint toLowerCase (s : string) : string :=
  match s with
  | EmptyString => EmptyString
  | String c r => String (lower_ascii c) (toLowerCase r)
  end.

(** [s.lastIndexOf(c)] for a one-character search string: the index of the
    last occurrence, or [-1]. *)
Fixpoint lastIndexOf (c : ascii) (s : string) : Z :=
  match s with
  | EmptyString => -1
  | String a r =>
      let i := lastIndexOf c r in
      if 0 <=? i then i + 1 else if Ascii.eqb a c then 0 else -1
  end.

Fixpoint drop (n : nat) (s : string) : string :=
  match n, s with
  | O, _ => s
  | S _, EmptyString => EmptyString
  | S k, String _ r => drop k r
  end.

(** [s.substring(i)]: a negative start counts as 0. *)
Definition substring_from (i : Z) (s : string) : string := drop (Z.to_nat i) s.

(** [s.length] as a JavaScript number. *)
Definition jslength (s : string) : Z := Z.of_nat (String.length s).

(** [s.endsWith(x)]. *)
Definition endsWith (s x : string) : bool :=
  (Nat.leb (String.length x) (String.length s)
   && String.eqb (drop (String.length s - String.length x) s) x)%bool.

(** [s.startsWith(x)]. *)
Definition startsWith (s x : string) : bool := String.prefix x s.

(** [s] holds no occurrence of [c]. *)
Fixpoint without (c : ascii) (s : string) : bool :=
  match s with
  | EmptyString => true
  | String a r => (negb (Ascii.eqb a c) && without c r)%bool
  end.

(** [l.includes(x)] on an array of strings. *)
Definition includes (l : list string) (x : string) : bool :=
  existsb (String.eqb x) l.

(** [s.replace(/[{}]/g, "")]. *)
Fixpoint removeBraces (s : string) : string :=
  match s with
  | EmptyString => EmptyString
  | String c r =>
      if (Ascii.eqb c "{" || Ascii.eqb c "}")%bool then removeBraces r
      else String c (removeBraces r)
  end.

(** The string of the given bytes. *)
Definition ofBytes (l : list nat) : string :=
  string_of_list_ascii (map ascii_of_nat l).

(** The white space of [trim]: the WhiteSpace and LineTerminator
    characters of ECMAScript (U+0009 to U+000D, U+0020, U+00A0, U+1680,
    U+2000 to U+200A, U+2028, U+2029, U+202F, U+205F, U+3000, U+FEFF), each
    in UTF-8. *)
Definition whiteSpace : list string :=
  map ofBytes
    [[9]; [10]; [11]; [12]; [13]; [32];
     [194; 160];
     [225; 154; 128];
     [226; 128; 128]; [226; 128; 129]; [226; 128; 130]; [226; 128; 131];
     [226; 128; 132]; [226; 128; 133]; [226; 128; 134]; [226; 128; 135];
     [226; 128; 136]; [226; 128; 137]; [226; 128; 138];
     [226; 128; 168]; [226; 128; 169];
     [226; 128; 175];
     [226; 129; 159];
     [227; 128; 128];
     [239; 187; 191]]%nat.

Definition isWhiteSpace (x : string) : bool := includes whiteSpace x.

(** Removes leading white space: a character of one, two or three bytes
    at a time. *)
Fixpoint trimStart (s : string) : string :=
  match s with
  | EmptyString => EmptyString
  | String c r =>
      if isWhiteSpace (String c "") then trimStart r
      else
        match r with
        | EmptyString => s
        | String d r' =>
            if isWhiteSpace (String c (String d "")) then trimStart r'
            else
              match r' with
              | EmptyString => s
              | String e r'' =>
                  if isWhiteSpace (String c (String d (String e ""))) then trimStart r''
                  else s
              end
        end
  end.

(** [s] holds white space only. *)
Fixpoint allSpace (s : string) : bool :=
  match s with
  | EmptyString => true
  | String c r =>
      if isWhiteSpace (String c "") then allSpace r
      else
        match r with
        | EmptyString => false
        | String d r' =>
            if isWhiteSpace (String c (String d "")) then allSpace r'
            else
              match r' with
              | EmptyString => false
              | String e r'' =>
                  (isWhiteSpace (String c (String d (String e ""))) && allSpace r'')%bool
              end
        end
  end.

(** Removes trailing white space: what follows the last character that is
    none. *)
Fixpoint trimEnd (s : string) : string :=
  match s with
  | EmptyString => EmptyString
  | String c r => if allSpace s then EmptyString else String c (trimEnd r)
  end.

(** [s.trim()]. *)
Definition trim (s : string) : string := trimEnd (trimStart s).

(** The values a column of a retrieved record can hold. *)
Inductive value :=
| Undefined
| Null
| Str (s : string).

(** Truthiness, as [if (v)] and [v || d] test it. *)
Definition truthy (v : value) : bool :=
  match v with
  | Str (String _ _) => true
  | _ => false
  end.

(** [(v as string) || d]. *)
Definition or_default (v : value) (d : string) : string :=
  match v with
  | Str (String c r) => String c r
  | _ => d
  end.

(** A retrieved record: the columns of the [$select], by name.  A column
    that is absent reads as [undefined]. *)
Definition record := list (string * value).

Fixpoint get (r : record) (k : string) : value :=
  match r with
  | [] => Undefined
  | (k', v) :: r' => if String.eqb k' k then v else get r' k
  end.

End Js.

(* ===================================================================== *)
(** ** The code shared by the two controls *)
(* ===================================================================== *)

Definition supportedExtensions : list string :=
  ["pdf"; "doc"; "docx"; "png"; "jpg"; "jpeg"; "gif"].

(** The decision of [hasPreviewableAttachment] once [retrieveRecord] has
    answered with [r]. *)
Definition previewable (r : Js.record) (fileColumnName : string) : bool :=
  let nameColumn := fileColumnName ++ "_name" in
  let fileRef := Js.get r fileColumnName in
  if negb (Js.truthy fileRef) then false
  else
    let fileName := Js.or_default (Js.get r nameColumn) "" in
    if String.eqb fileName "" then true
    else
      let dot := Js.lastIndexOf "." fileName in
      if ((dot <=? 0) || (dot =? Js.jslength fileName - 1))%bool then false
      else
        let ext := Js.toLowerCase (Js.substring_from (dot + 1) fileName) in
        Js.includes supportedExtensions ext.

Definition mime_pdf := "application/pdf".
Definition mime_docx :=
  "application/vnd.openxmlformats-officedocument.wordprocessingml.document".
Definition mime_doc := "application/msword".
Definition mime_png := "image/png".
Definition mime_jpeg := "image/jpeg".
Definition mime_gif := "image/gif".
Definition mime_octet := "application/octet-stream".

(** The MIME type [downloadFile] resolves from the file name. *)
Definition mimeTypeOf (fileName : string) : string :=
  let lowerName := Js.toLowerCase fileName in
  if Js.endsWith lowerName ".pdf" then mime_pdf
  else if Js.endsWith lowerName ".docx" then mime_docx
  else if Js.endsWith lowerName ".doc" then mime_doc
  else if Js.endsWith lowerName ".png" then mime_png
  else if (Js.endsWith lowerName ".jpg" || Js.endsWith lowerName ".jpeg")%bool
       then mime_jpeg
  else if Js.endsWith lowerName ".gif" then mime_gif
  else mime_octet.

(** The file name [downloadFile] reads from the record. *)
Definition downloadedName (r : Js.record) (fileColumnName : string) : string :=
  Js.or_default (Js.get r (fileColumnName ++ "_name")) "document".

(** The seven MIME types and the suffix each known one belongs to, for
    stating what [mimeTypeOf] computes. *)
Definition knownMimeTypes : list string :=
  [mime_pdf; mime_docx; mime_doc; mime_png; mime_jpeg; mime_gif; mime_octet].

Definition suffixTable : list (string * string) :=
  [(".pdf", mime_pdf); (".docx", mime_docx); (".doc", mime_doc); (".png", mime_png);
   (".jpg", mime_jpeg); (".jpeg", mime_jpeg); (".gif", mime_gif)].

(* ===================================================================== *)
(** ** JavaScript numbers: IEEE 754 binary64 *)
(* ===================================================================== *)

Module Num.

Definition prec : Z := 53.
Definition emax : Z := 1024.

Definition number := spec_float.

Definition add : number -> number -> number := SFadd prec emax.
Definition sub : number -> number -> number := SFsub prec emax.
Definition div : number -> number -> number := SFdiv prec emax.
Definition ofZ (z : Z) : number := binary_normalize prec emax z 0 false.

(** The literals of the zoom code: [0.5], [1], [3] and [0.1] (the binary64
    value nearest to one tenth). *)
Definition half : number := S754_finite false 4503599627370496 (-53).
Definition one : number := S754_finite false 4503599627370496 (-52).
Definition three : number := S754_finite false 6755399441055744 (-51).
Definition tenth : number := S754_finite false 7205759403792794 (-56).

(** [a <= b] on numbers; false when either is NaN. *)
Definition le (a b : number) : bool := SFleb a b.

(** [Math.max(a, b)]: NaN if either argument is NaN, and [+0] above [-0]. *)
Definition max (a b : number) : number :=
  match SFcompare a b with
  | None => S754_nan
  | Some Lt => b
  | Some Gt => a
  | Some Eq => match a with S754_zero true => b | _ => a end
  end.

(** [Math.min(a, b)]: NaN if either argument is NaN, and [-0] below [+0]. *)
Definition min (a b : number) : number :=
  match SFcompare a b with
  | None => S754_nan
  | Some Lt => a
  | Some Gt => b
  | Some Eq => match a with S754_zero false => b | _ => a end
  end.

(** [Math.min(Math.max(z, 0.5), 3)], the clamp of [applyZoom]. *)
Definition clampZoom (z : number) : number := min (max z half) three.

(** The closed interval [[0.5, 3.0]]. *)
Definition inZoomRange (z : number) : bool := (le half z && le z three)%bool.

Definition isNaN (z : number) : bool :=
  match z with S754_nan => true | _ => false end.

(** Neither NaN nor an infinity. *)
Definition isFinite (z : number) : bool :=
  match z with S754_zero _ | S754_finite _ _ _ => true | _ => false end.

End Num.

(* ===================================================================== *)
(** ** Exceptions and the monad of the handlers *)
(* ===================================================================== *)

(** A thrown value, as far as the handlers look at it: [err.status]. *)
Record error := { status : option Z }.

Definition plainError : error := {| status := None |}.
Definition httpError (code : Z) : error := {| status := Some code |}.

Inductive outcome (A : Type) :=
| Returned (a : A)
| Thrown (e : error).
Arguments Returned {A} a.
Arguments Thrown {A} e.

(** A computation over a state [S] that returns or throws; the state
    survives a throw, as the side effects of JavaScript do. *)
Definition M (S A : Type) : Type := S -> outcome A * S.

Definition ret {S A} (a : A) : M S A := fun s => (Returned a, s).

Definition throw {S A} (e : error) : M S A := fun s => (Thrown e, s).

Definition bind {S A B} (m : M S A) (k : A -> M S B) : M S B :=
  fun s =>
    match m s with
    | (Returned a, s') => k a s'
    | (Thrown e, s') => (Thrown e, s')
    end.

(** [try { m } catch (err) { h err }]. *)
Definition tryCatch {S A} (m : M S A) (h : error -> M S A) : M S A :=
  fun s =>
    match m s with
    | (Returned a, s') => (Returned a, s')
    | (Thrown e, s') => h e s'
    end.

Definition gets {S A} (f : S -> A) : M S A := fun s => (Returned (f s), s).

Definition modify {S} (f : S -> S) : M S unit := fun s => (Returned tt, f s).

(** [await p] for a promise that settles with [o]. *)
Definition await {S A} (o : outcome A) : M S A := fun s => (o, s).

(** Runs a computation on a part of the state and writes the part back. *)
Definition focus {S T A} (read : S -> T) (write : T -> S -> S) (m : M T A) : M S A :=
  fun s => let '(o, t) := m (read s) in (o, write t s).

Declare Scope js_scope.
Delimit Scope js_scope with js.
Notation "x <- m ;; k" := (bind m (fun x => k))
  (at level 61, m at next level, right associativity) : js_scope.
Notation "m ;; k" := (bind m (fun _ => k))
  (at level 61, right associativity) : js_scope.
Local Open Scope js_scope.

(* ===================================================================== *)
(** ** The page: object URLs, DOM nodes, calls to the outside world *)
(* ===================================================================== *)

(** What a blob handed to [URL.createObjectURL] holds. *)
Inductive blob_kind := FileBlob | WorkerBlob.

(** The calls the controls make to the browser, the host and the
    libraries. *)
Inductive effect :=
| RetrieveRecord (entity id select : string)
| Fetch (url : string)
| CreateObjectURL (u : nat) (k : blob_kind)
| RevokeObjectURL (u : nat)
| Alert (msg : string)
| GetResource (path : string)
| GetDocument
| GetPage (pageNum : nat)
| RenderPage (pageNum canvas : nat)
| RenderAsync
| ReadAsDataURL
| Navigate (href : string)
| NavigateObjectURL (u : nat).

(** The browser side of the state.  [history] lists the calls made so far,
    the most recent first. *)
Record browser := {
  history : list effect;
  nextUrl : nat;
  nextCanvas : nat
}.

Definition newBrowser : browser :=
  {| history := []; nextUrl := 0; nextCanvas := 0 |}.

Definition record_effect (e : effect) (b : browser) : browser :=
  {| history := e :: history b; nextUrl := nextUrl b; nextCanvas := nextCanvas b |}.

(** [URL.createObjectURL(blob)]: a URL never handed out before. *)
Definition createObjectURL_b (k : blob_kind) (b : browser) : nat * browser :=
  (nextUrl b,
   {| history := CreateObjectURL (nextUrl b) k :: history b;
      nextUrl := S (nextUrl b);
      nextCanvas := nextCanvas b |}).

(** [document.createElement("canvas")]: a new element. *)
Definition createCanvas_b (b : browser) : nat * browser :=
  (nextCanvas b,
   {| history := history b; nextUrl := nextUrl b; nextCanvas := S (nextCanvas b) |}).

(** The children of the zoom wrapper. *)
Inductive node :=
| InfoBlock (text : string)
| PageCard (canvas : nat)
| ImageCard
| WordCard
| LegacyDocCard (text : string) (button : string).

(** The zoom wrapper element: its children and the scale of its
    [transform] style, once one was set. *)
Record wrapper_dom := {
  children : list node;
  transform : option Num.number
}.

Definition emptyWrapper : wrapper_dom := {| children := []; transform := None |}.

(** What [renderFilePreview] works on once it holds the wrapper: the
    wrapper element, the browser, and the fields [self] of the control
    that the section touches. *)
Record surface (T : Type) := {
  area : wrapper_dom;
  env : browser;
  self : T
}.
Arguments area {T} s.
Arguments env {T} s.
Arguments self {T} s.

Section Surface.
Context {T : Type}.

Definition emit (e : effect) : M (surface T) unit :=
  modify (fun s => {| area := area s; env := record_effect e (env s); self := self s |}).

(** [zoomWrapper.innerHTML = ""] followed by appending [l]. *)
Definition setChildren (l : list node) : M (surface T) unit :=
  modify (fun s =>
    {| area := {| children := l; transform := transform (area s) |};
       env := env s; self := self s |}).

Definition appendChild (n : node) : M (surface T) unit :=
  modify (fun s =>
    {| area := {| children := children (area s) ++ [n];
                  transform := transform (area s) |};
       env := env s; self := self s |}).

Definition createCanvas : M (surface T) nat :=
  fun s => let '(c, b) := createCanvas_b (env s) in
           (Returned c, {| area := area s; env := b; self := self s |}).
End Surface.

(* ===================================================================== *)
(** ** Rendering *)
(* ===================================================================== *)

(** The object [downloadFile] returns; [blob] stands for the bytes. *)
Record file := {
  blob : string;
  fileName : string;
  mimeType : string
}.

(** The answers of pdf.js, docx-preview and FileReader. *)
Inductive page_answer :=
| PageRenders
| GetPageRejects (e : error)
| RenderRejects (e : error).

Inductive pdf_answer :=
| DocumentRejects (e : error)
| Document (numPages : nat) (page : nat -> page_answer).

Record render_world := {
  pdf : pdf_answer;
  docx : outcome unit;
  readerLoads : bool
}.

Definition msg_loading_pdf := "Loading PDF preview...".
Definition msg_pdf_failed :=
  "Could not render PDF preview. You can still use the Download button to open the file.".
Definition msg_loading_image := "Loading image preview...".
Definition msg_image_failed :=
  "Could not render image preview. You can still use the Download button to open the file.".
Definition msg_legacy_doc :=
  "This file is a legacy .doc format which cannot be rendered inline. Click the button below to open it in a new tab.".
Definition msg_not_available (mime : string) :=
  "Preview is not available for this file type (" ++ mime ++ ").".

(** The sections of [renderFilePreview], in the order it tests them. *)
Inductive branch :=
| PdfBranch
| ImageBranch
| DocxBranch
| LegacyDocBranch
| FallbackBranch.

Definition dispatch (f : file) : branch :=
  let lower := Js.toLowerCase (fileName f) in
  let mime := Js.toLowerCase (mimeType f) in
  if (String.eqb mime "application/pdf" || Js.endsWith lower ".pdf")%bool then PdfBranch
  else if Js.startsWith mime "image/" then ImageBranch
  else if Js.endsWith lower ".docx" then DocxBranch
  else if Js.endsWith lower ".doc" then LegacyDocBranch
  else FallbackBranch.

Section Sections.
Context {T : Type}.

(** One turn of the page loop of the PDF section. *)
Definition renderPage (page : nat -> page_answer) (pageNum : nat)
  : M (surface T) unit :=
  emit (GetPage pageNum) ;;
  match page pageNum with
  | GetPageRejects e => throw e
  | answer =>
      canvas <- createCanvas ;;
      appendChild (PageCard canvas) ;;
      emit (RenderPage pageNum canvas) ;;
      match answer with
      | RenderRejects e => throw e
      | _ => ret tt
      end
  end.

(** [for (let pageNum = 1; pageNum <= numPages; pageNum++)], over the
    page numbers left to visit. *)
Fixpoint renderPages (page : nat -> page_answer) (pageNums : list nat)
  : M (surface T) unit :=
  match pageNums with
  | [] => ret tt
  | pageNum :: rest => renderPage page pageNum ;; renderPages page rest
  end.

(** The body of the [try] of the PDF section; [prepare] is what the
    control awaits before it opens the document. *)
Definition renderPdf (prepare : M (surface T) unit) (w : render_world)
  : M (surface T) unit :=
  prepare ;;
  emit GetDocument ;;
  match pdf w with
  | DocumentRejects e => throw e
  | Document numPages page =>
      setChildren [] ;;
      renderPages page (seq 1 numPages)
  end.

(** [renderFilePreview] below its guard. *)
Definition renderSections (prepare : M (surface T) unit) (f : file)
    (w : render_world) : M (surface T) unit :=
  setChildren [] ;;
  match dispatch f with
  | PdfBranch =>
      appendChild (InfoBlock msg_loading_pdf) ;;
      tryCatch (renderPdf prepare w)
               (fun _ => setChildren [InfoBlock msg_pdf_failed])
  | ImageBranch =>
      appendChild (InfoBlock msg_loading_image) ;;
      emit ReadAsDataURL ;;
      (* reader.onload / reader.onerror *)
      if readerLoads w then setChildren [ImageCard]
      else setChildren [InfoBlock msg_image_failed]
  | DocxBranch =>
      appendChild WordCard ;;
      emit RenderAsync ;;
      await (docx w)
  | LegacyDocBranch =>
      appendChild (LegacyDocCard msg_legacy_doc "Open document")
  | FallbackBranch =>
      appendChild (InfoBlock (msg_not_available (mimeType f)))
  end.
End Sections.

(* ===================================================================== *)
(** ** The host context and the download *)
(* ===================================================================== *)

(** The parts of [ComponentFramework.Context] the controls read:
    [mode.contextInfo.entityId], the manifest parameters ([raw]), and the
    client URL that [getFileUrl] resolves.  The inline control calls its
    entity set parameter [EntityPluralName]. *)
Record Context := {
  entityId : Js.value;
  EntityLogicalName : Js.value;
  FileColumnName : Js.value;
  EntitySetName : Js.value;
  EnableDownload : bool;
  clientUrl : string
}.

(** String interpolation of a value. *)
Definition toString (v : Js.value) : string :=
  match v with
  | Js.Undefined => "undefined"
  | Js.Null => "null"
  | Js.Str s => s
  end.

Definition getFileUrl (ctx : Context) (entityId fileColumnName : string) : string :=
  let entitySetName := toString (EntitySetName ctx) in
  let cleanId := Js.removeBraces entityId in
  let normalizedColumn := Js.trim fileColumnName in
  clientUrl ctx ++ "/api/data/v9.0/" ++ entitySetName ++ "(" ++ cleanId ++ ")/"
    ++ normalizedColumn.

(** The answers of [fetch]: a rejection, or a response with its status and
    body.  A body either fails to decode ([response.json()] rejects or
    [atob] throws) or yields the bytes. *)
Inductive fetch_answer :=
| FetchRejects (e : error)
| Response (httpStatus : Z) (body : outcome string).

(** [response.ok]. *)
Definition responseOk (httpStatus : Z) : bool :=
  ((200 <=? httpStatus) && (httpStatus <=? 299))%bool.

Record download_world := {
  retrieved : outcome Js.record;
  response : fetch_answer
}.

Definition selectQuery (fileColumnName : string) : string :=
  "?$select=" ++ fileColumnName ++ "," ++ fileColumnName ++ "_name".

(** [this.currentFileName || d] and the like. *)
Definition orElse (o : option string) (d : string) : string :=
  match o with
  | Some (String c r) => String c r
  | _ => d
  end.

Definition msg_missing_config :=
  "Control is missing configuration (EntityLogicalName or FileColumnName).".
Definition msg_no_previewable := "No previewable file in Attachment.".
Definition msg_could_not_check := "Could not check Attachment.".
Definition msg_permission := "You do not have permission to view this document.".
Definition msg_generic := "Error loading document preview.".
Definition msg_save_record :=
  "Save the record and upload a file to see the document preview.".

(** [err.status === 403]. *)
Definition isForbidden (e : error) : bool :=
  match status e with
  | Some code => code =? 403
  | None => false
  end.

(* ===================================================================== *)
(** ** The modal control: src/DocumentPreview/index.ts *)
(* ===================================================================== *)

Module Modal.

(** The modal while it is in the document: [modalOverlay], [modalContent]
    and [modalBody] are set together and cleared together. *)
Record modal_dom := {
  title : string;
  downloadButton : bool;
  body : wrapper_dom
}.

Record state := {
  context : Context;
  previewButton_disabled : bool;
  fileLabel : string;
  modal : option modal_dom;
  zoomLevel : Num.number;
  currentFileUrl : option nat;
  currentFileName : option string;
  currentMimeType : option string;
  currentDownloadUrl : option string;
  page : browser
}.

Definition set_context v s :=
  Build_state v (previewButton_disabled s) (fileLabel s) (modal s) (zoomLevel s)
    (currentFileUrl s) (currentFileName s) (currentMimeType s) (currentDownloadUrl s) (page s).
Definition set_disabled v s :=
  Build_state (context s) v (fileLabel s) (modal s) (zoomLevel s)
    (currentFileUrl s) (currentFileName s) (currentMimeType s) (currentDownloadUrl s) (page s).
Definition set_fileLabel v s :=
  Build_state (context s) (previewButton_disabled s) v (modal s) (zoomLevel s)
    (currentFileUrl s) (currentFileName s) (currentMimeType s) (currentDownloadUrl s) (page s).
Definition set_modal v s :=
  Build_state (context s) (previewButton_disabled s) (fileLabel s) v (zoomLevel s)
    (currentFileUrl s) (currentFileName s) (currentMimeType s) (currentDownloadUrl s) (page s).
Definition set_zoomLevel v s :=
  Build_state (context s) (previewButton_disabled s) (fileLabel s) (modal s) v
    (currentFileUrl s) (currentFileName s) (currentMimeType s) (currentDownloadUrl s) (page s).
Definition set_currentFileUrl v s :=
  Build_state (context s) (previewButton_disabled s) (fileLabel s) (modal s) (zoomLevel s)
    v (currentFileName s) (currentMimeType s) (currentDownloadUrl s) (page s).
Definition set_currentFile name mime s :=
  Build_state (context s) (previewButton_disabled s) (fileLabel s) (modal s) (zoomLevel s)
    (currentFileUrl s) name mime (currentDownloadUrl s) (page s).
Definition set_currentDownloadUrl v s :=
  Build_state (context s) (previewButton_disabled s) (fileLabel s) (modal s) (zoomLevel s)
    (currentFileUrl s) (currentFileName s) (currentMimeType s) v (page s).
Definition set_page v s :=
  Build_state (context s) (previewButton_disabled s) (fileLabel s) (modal s) (zoomLevel s)
    (currentFileUrl s) (currentFileName s) (currentMimeType s) (currentDownloadUrl s) v.

Definition call (e : effect) : M state unit :=
  modify (fun s => set_page (record_effect e (page s)) s).

(** The control after [init]: the button and the empty status label. *)
Definition init (ctx : Context) : state :=
  {| context := ctx;
     previewButton_disabled := false;
     fileLabel := "";
     modal := None;
     zoomLevel := Num.one;
     currentFileUrl := None;
     currentFileName := None;
     currentMimeType := None;
     currentDownloadUrl := None;
     page := newBrowser |}.

Definition cleanupFileUrl : M state unit :=
  fun s =>
    match currentFileUrl s with
    | Some u =>
        (call (RevokeObjectURL u) ;;
         modify (set_currentFileUrl None)) s
    | None => (Returned tt, s)
    end.

Definition destroyModal : M state unit :=
  modify (set_modal None) ;;
  cleanupFileUrl.

Definition applyZoom (z : Num.number) : M state unit :=
  fun s =>
    match modal s with
    | None => (Returned tt, s)
    | Some m =>
        let level := Num.clampZoom z in
        (Returned tt,
         set_modal
           (Some {| title := title m; downloadButton := downloadButton m;
                    body := {| children := children (body m);
                               transform := Some level |} |})
           (set_zoomLevel level s))
    end.

Definition openModal : M state unit :=
  destroyModal ;;
  modify (set_zoomLevel Num.one) ;;
  modify (fun s =>
    set_modal
      (Some {| title := orElse (currentFileName s) "Document preview";
               downloadButton := EnableDownload (context s);
               body := emptyWrapper |}) s) ;;
  applyZoom Num.one.

Definition hasPreviewableAttachment (entityLogicalName entityId fileColumnName : string)
    (answer : outcome Js.record) : M state bool :=
  call (RetrieveRecord entityLogicalName entityId (selectQuery fileColumnName)) ;;
  record <- await answer ;;
  ret (previewable record fileColumnName).

Definition configured (ctx : Context) : bool :=
  (Js.truthy (entityId ctx) && Js.truthy (EntityLogicalName ctx)
   && Js.truthy (FileColumnName ctx))%bool.

Definition checkAttachmentAndUpdateUI (answer : outcome Js.record) : M state unit :=
  ctx <- gets context ;;
  if negb (configured ctx) then
    modify (set_fileLabel msg_missing_config) ;;
    modify (set_disabled true)
  else
    tryCatch
      (hasPreview <- hasPreviewableAttachment (toString (EntityLogicalName ctx))
                       (toString (entityId ctx)) (toString (FileColumnName ctx)) answer ;;
       if hasPreview then
         modify (set_fileLabel "") ;;
         modify (set_disabled false)
       else
         modify (set_fileLabel msg_no_previewable) ;;
         modify (set_disabled true))
      (fun _ =>
         modify (set_fileLabel msg_could_not_check) ;;
         modify (set_disabled true)).

Definition updateView (ctx : Context) (answer : outcome Js.record) : M state unit :=
  modify (set_context ctx) ;;
  modify (set_fileLabel "Checking attachment...") ;;
  modify (set_disabled true) ;;
  checkAttachmentAndUpdateUI answer.

Definition downloadFile (entityLogicalName entityId fileColumnName : string)
    (w : download_world) : M state file :=
  let nameColumn := fileColumnName ++ "_name" in
  call (RetrieveRecord entityLogicalName entityId (selectQuery fileColumnName)) ;;
  record <- await (retrieved w) ;;
  let fileName := Js.or_default (Js.get record nameColumn) "document" in
  ctx <- gets context ;;
  let fileUrl := getFileUrl ctx entityId fileColumnName in
  modify (set_currentDownloadUrl (Some (fileUrl ++ "/$value"))) ;;
  call (Fetch fileUrl) ;;
  match response w with
  | FetchRejects e => throw e
  | Response httpStatus body =>
      if negb (responseOk httpStatus) then throw (httpError httpStatus)
      else
        bytes <- await body ;;
        ret {| blob := bytes; fileName := fileName; mimeType := mimeTypeOf fileName |}
  end.

(** The wrapper of the open modal with the browser, for the rendering
    sections. *)
Definition toSurface (m : modal_dom) (s : state) : surface unit :=
  {| area := body m; env := page s; self := tt |}.

Definition ofSurface (m : modal_dom) (r : surface unit) (s : state) : state :=
  set_modal
    (Some {| title := title m; downloadButton := downloadButton m; body := area r |})
    (set_page (env r) s).

Definition renderFilePreview (f : file) (w : render_world) : M state unit :=
  fun s =>
    match modal s with
    | None => (Returned tt, s)
    | Some m =>
        focus (toSurface m) (ofSurface m) (renderSections (ret tt) f w) s
    end.

Definition createObjectURL (k : blob_kind) : M state nat :=
  fun s => let '(u, b) := createObjectURL_b k (page s) in (Returned u, set_page b s).

(** The body of the [try] of [onPreviewClick]. *)
Definition previewAction (ctx : Context) (dw : download_world) (rw : render_world)
  : M state unit :=
  f <- downloadFile (toString (EntityLogicalName ctx)) (toString (entityId ctx))
         (toString (FileColumnName ctx)) dw ;;
  modify (set_currentFile (Some (fileName f)) (Some (mimeType f))) ;;
  cleanupFileUrl ;;
  u <- createObjectURL FileBlob ;;
  modify (set_currentFileUrl (Some u)) ;;
  openModal ;;
  renderFilePreview f rw.

Definition onPreviewClick (dw : download_world) (rw : render_world) : M state unit :=
  disabled <- gets previewButton_disabled ;;
  if disabled then ret tt
  else
    ctx <- gets context ;;
    if negb (configured ctx) then call (Alert msg_missing_config)
    else
      tryCatch
        (previewAction ctx dw rw)
        (fun err =>
           if isForbidden err then call (Alert msg_permission)
           else call (Alert msg_generic)).

(** The "Download" button of the modal header. *)
Definition onDownloadClick : M state unit :=
  s <- gets (fun s => s) ;;
  match currentDownloadUrl s, currentFileUrl s with
  | Some (String c r), _ => call (Navigate (String c r))
  | _, Some u => call (NavigateObjectURL u)
  | _, None => ret tt
  end.

(** The "Open document" button of the legacy .doc section. *)
Definition onOpenDocumentClick : M state unit :=
  u <- gets currentFileUrl ;;
  match u with
  | Some u => call (NavigateObjectURL u)
  | None => ret tt
  end.

Definition destroy : M state unit :=
  cleanupFileUrl ;;
  destroyModal.

Definition showsLegacyCard (w : wrapper_dom) : bool :=
  existsb (fun n => match n with LegacyDocCard _ _ => true | _ => false end) (children w).

(** What the host and the user can do to the control.  An event carries the
    answers the outside world gives to the handler it starts. *)
Inductive event :=
| UpdateView (ctx : Context) (answer : outcome Js.record)
| PreviewClick (dw : download_world) (rw : render_world)
| ZoomOutClick
| ZoomInClick
| ZoomResetClick
| DownloadClick
| OpenDocumentClick
| CloseClick
| Destroy.

(** The header buttons exist while the modal is open; the Download button
    only when the manifest enables it, the Open document button only in the
    legacy .doc section. *)
Definition handle (e : event) : M state unit :=
  match e with
  | UpdateView ctx answer => updateView ctx answer
  | PreviewClick dw rw => onPreviewClick dw rw
  | ZoomOutClick => z <- gets zoomLevel ;; applyZoom (Num.sub z Num.tenth)
  | ZoomInClick => z <- gets zoomLevel ;; applyZoom (Num.add z Num.tenth)
  | ZoomResetClick => applyZoom Num.one
  | DownloadClick =>
      m <- gets modal ;;
      match m with
      | Some m => if downloadButton m then onDownloadClick else ret tt
      | None => ret tt
      end
  | OpenDocumentClick =>
      m <- gets modal ;;
      match m with
      | Some m => if showsLegacyCard (body m) then onOpenDocumentClick else ret tt
      | None => ret tt
      end
  | CloseClick => destroyModal
  | Destroy => destroy
  end.

Definition step (s : state) (e : event) : state := snd (handle e s).

Definition run (s : state) (es : list event) : state := fold_left step es s.

End Modal.

(* ===================================================================== *)
(** ** The inline control (DocumentPreviewInline) *)
(* ===================================================================== *)

Module Inline.

(** The local pdf.js worker: its object URL and the promise that
    [ensurePdfWorkerUrl] caches.  A settled promise is its outcome. *)
Record worker_state := {
  pdfWorkerUrl : option nat;
  pdfWorkerUrlPromise : option (outcome nat)
}.

(** The answer of [context.resources.getResource]: the success callback
    with data that [atob] decodes or not, or the failure callback. *)
Inductive worker_answer :=
| ResourceLoaded (decodes : bool)
| ResourceFails.

Record state := {
  context : Context;
  previewToolbarTitle : option string;
  downloadButton : bool;
  zoomWrapper : option wrapper_dom;
  zoomLevel : Num.number;
  currentFileUrl : option nat;
  currentFileName : option string;
  currentMimeType : option string;
  currentDownloadUrl : option string;
  worker : worker_state;
  page : browser
}.

Definition set_context v s :=
  Build_state v (previewToolbarTitle s) (downloadButton s) (zoomWrapper s) (zoomLevel s)
    (currentFileUrl s) (currentFileName s) (currentMimeType s) (currentDownloadUrl s)
    (worker s) (page s).
Definition set_title v s :=
  Build_state (context s) v (downloadButton s) (zoomWrapper s) (zoomLevel s)
    (currentFileUrl s) (currentFileName s) (currentMimeType s) (currentDownloadUrl s)
    (worker s) (page s).
Definition set_downloadButton v s :=
  Build_state (context s) (previewToolbarTitle s) v (zoomWrapper s) (zoomLevel s)
    (currentFileUrl s) (currentFileName s) (currentMimeType s) (currentDownloadUrl s)
    (worker s) (page s).
Definition set_zoomWrapper v s :=
  Build_state (context s) (previewToolbarTitle s) (downloadButton s) v (zoomLevel s)
    (currentFileUrl s) (currentFileName s) (currentMimeType s) (currentDownloadUrl s)
    (worker s) (page s).
Definition set_zoomLevel v s :=
  Build_state (context s) (previewToolbarTitle s) (downloadButton s) (zoomWrapper s) v
    (currentFileUrl s) (currentFileName s) (currentMimeType s) (currentDownloadUrl s)
    (worker s) (page s).
Definition set_currentFileUrl v s :=
  Build_state (context s) (previewToolbarTitle s) (downloadButton s) (zoomWrapper s)
    (zoomLevel s) v (currentFileName s) (currentMimeType s) (currentDownloadUrl s)
    (worker s) (page s).
Definition set_currentFile name mime s :=
  Build_state (context s) (previewToolbarTitle s) (downloadButton s) (zoomWrapper s)
    (zoomLevel s) (currentFileUrl s) name mime (currentDownloadUrl s)
    (worker s) (page s).
Definition set_currentDownloadUrl v s :=
  Build_state (context s) (previewToolbarTitle s) (downloadButton s) (zoomWrapper s)
    (zoomLevel s) (currentFileUrl s) (currentFileName s) (currentMimeType s) v
    (worker s) (page s).
Definition set_worker v s :=
  Build_state (context s) (previewToolbarTitle s) (downloadButton s) (zoomWrapper s)
    (zoomLevel s) (currentFileUrl s) (currentFileName s) (currentMimeType s)
    (currentDownloadUrl s) v (page s).
Definition set_page v s :=
  Build_state (context s) (previewToolbarTitle s) (downloadButton s) (zoomWrapper s)
    (zoomLevel s) (currentFileUrl s) (currentFileName s) (currentMimeType s)
    (currentDownloadUrl s) (worker s) v.

Definition call (e : effect) : M state unit :=
  modify (fun s => set_page (record_effect e (page s)) s).

(** The object as constructed, holding the context [init] stores first. *)
Definition constructed (ctx : Context) : state :=
  {| context := ctx;
     previewToolbarTitle := None;
     downloadButton := false;
     zoomWrapper := None;
     zoomLevel := Num.one;
     currentFileUrl := None;
     currentFileName := None;
     currentMimeType := None;
     currentDownloadUrl := None;
     worker := {| pdfWorkerUrl := None; pdfWorkerUrlPromise := None |};
     page := newBrowser |}.

(** [ensurePdfWorkerUrl]: the cached promise, or a new one that asks the
    host for the worker resource; [answer] is what the host calls back. *)
Definition ensurePdfWorkerUrl (answer : worker_answer)
  : M (browser * worker_state) (outcome nat) :=
  fun '(b, ws) =>
    match pdfWorkerUrlPromise ws with
    | Some p => (Returned p, (b, ws))
    | None =>
        let b1 := record_effect (GetResource "pdf.worker.min.html") b in
        match answer with
        | ResourceLoaded true =>
            let '(u, b2) := createObjectURL_b WorkerBlob b1 in
            (Returned (Returned u),
             (b2, {| pdfWorkerUrl := Some u; pdfWorkerUrlPromise := Some (Returned u) |}))
        | _ =>
            (Returned (Thrown plainError),
             (b1, {| pdfWorkerUrl := pdfWorkerUrl ws;
                     pdfWorkerUrlPromise := Some (Thrown plainError) |}))
        end
    end.

Definition cleanupFileUrl : M state unit :=
  fun s =>
    match currentFileUrl s with
    | Some u =>
        (call (RevokeObjectURL u) ;;
         modify (set_currentFileUrl None)) s
    | None => (Returned tt, s)
    end.

Definition applyZoom (z : Num.number) : M state unit :=
  fun s =>
    match zoomWrapper s with
    | None => (Returned tt, s)
    | Some w =>
        let level := Num.clampZoom z in
        (Returned tt,
         set_zoomWrapper (Some {| children := children w; transform := Some level |})
           (set_zoomLevel level s))
    end.

Definition initM (answer : worker_answer) : M state unit :=
  focus (fun s => (page s, worker s)) (fun '(b, ws) s => set_page b (set_worker ws s))
        (ensurePdfWorkerUrl answer) ;;
  modify (set_title (Some "Document preview")) ;;
  modify (fun s => set_downloadButton (EnableDownload (context s)) s) ;;
  modify (set_zoomWrapper (Some emptyWrapper)) ;;
  applyZoom Num.one.

(** The control after [init]. *)
Definition init (ctx : Context) (answer : worker_answer) : state :=
  snd (initM answer (constructed ctx)).

Definition setInfoMessage (text : string) : M state unit :=
  fun s =>
    match zoomWrapper s with
    | None => (Returned tt, s)
    | Some w =>
        let s1 := set_zoomWrapper
                    (Some {| children := [InfoBlock text]; transform := transform w |}) s in
        (Returned tt,
         match previewToolbarTitle s1 with
         | Some _ => set_title (Some "Document preview") s1
         | None => s1
         end)
    end.

Definition hasPreviewableAttachment (entityLogicalName entityId fileColumnName : string)
    (answer : outcome Js.record) : M state bool :=
  call (RetrieveRecord entityLogicalName entityId (selectQuery fileColumnName)) ;;
  record <- await answer ;;
  ret (previewable record fileColumnName).

Definition downloadFile (entityLogicalName entityId fileColumnName : string)
    (w : download_world) : M state file :=
  let nameColumn := fileColumnName ++ "_name" in
  call (RetrieveRecord entityLogicalName entityId (selectQuery fileColumnName)) ;;
  record <- await (retrieved w) ;;
  let fileName := Js.or_default (Js.get record nameColumn) "document" in
  ctx <- gets context ;;
  let fileUrl := getFileUrl ctx entityId fileColumnName in
  modify (set_currentDownloadUrl (Some (fileUrl ++ "/$value"))) ;;
  call (Fetch fileUrl) ;;
  match response w with
  | FetchRejects e => throw e
  | Response httpStatus body =>
      if negb (responseOk httpStatus) then throw (httpError httpStatus)
      else
        bytes <- await body ;;
        ret {| blob := bytes; fileName := fileName; mimeType := mimeTypeOf fileName |}
  end.

Definition toSurface (w : wrapper_dom) (s : state) : surface worker_state :=
  {| area := w; env := page s; self := worker s |}.

Definition ofSurface (r : surface worker_state) (s : state) : state :=
  set_zoomWrapper (Some (area r)) (set_page (env r) (set_worker (self r) s)).

(** [await this.ensurePdfWorkerUrl().catch(() => { })]. *)
Definition awaitWorker (answer : worker_answer) : M (surface worker_state) unit :=
  focus (fun r => (env r, self r))
        (fun '(b, ws) r => {| area := area r; env := b; self := ws |})
        (ensurePdfWorkerUrl answer) ;;
  ret tt.

Definition renderFilePreview (f : file) (w : render_world) (answer : worker_answer)
  : M state unit :=
  fun s =>
    match zoomWrapper s with
    | None => (Returned tt, s)
    | Some z =>
        focus (toSurface z) ofSurface (renderSections (awaitWorker answer) f w) s
    end.

Definition createObjectURL (k : blob_kind) : M state nat :=
  fun s => let '(u, b) := createObjectURL_b k (page s) in (Returned u, set_page b s).

(** The body of the [try] of [autoLoadPreview]. *)
Definition loadAction (ctx : Context) (check : outcome Js.record) (dw : download_world)
    (rw : render_world) (answer : worker_answer) : M state unit :=
  let entityLogicalName := toString (EntityLogicalName ctx) in
  let id := toString (entityId ctx) in
  let fileColumnName := toString (FileColumnName ctx) in
  hasPreview <- hasPreviewableAttachment entityLogicalName id fileColumnName check ;;
  if negb hasPreview then setInfoMessage msg_no_previewable
  else
    f <- downloadFile entityLogicalName id fileColumnName dw ;;
    modify (set_currentFile (Some (fileName f)) (Some (mimeType f))) ;;
    cleanupFileUrl ;;
    u <- createObjectURL FileBlob ;;
    modify (set_currentFileUrl (Some u)) ;;
    modify (fun s =>
      match previewToolbarTitle s with
      | Some _ => set_title (Some (orElse (currentFileName s) "Document preview")) s
      | None => s
      end) ;;
    renderFilePreview f rw answer.

Definition autoLoadPreview (check : outcome Js.record) (dw : download_world)
    (rw : render_world) (answer : worker_answer) : M state unit :=
  z <- gets zoomWrapper ;;
  match z with
  | None => ret tt
  | Some _ =>
      ctx <- gets context ;;
      if negb (Js.truthy (entityId ctx)) then setInfoMessage msg_save_record
      else if negb (Js.truthy (EntityLogicalName ctx) && Js.truthy (FileColumnName ctx))
      then setInfoMessage msg_missing_config
      else
        tryCatch
          (loadAction ctx check dw rw answer)
          (fun err =>
             if isForbidden err then setInfoMessage msg_permission
             else setInfoMessage msg_generic)
  end.

Definition updateView (ctx : Context) (check : outcome Js.record) (dw : download_world)
    (rw : render_world) (answer : worker_answer) : M state unit :=
  modify (set_context ctx) ;;
  autoLoadPreview check dw rw answer.

Definition downloadCurrentFile : M state unit :=
  s <- gets (fun s => s) ;;
  match currentDownloadUrl s, currentFileUrl s with
  | Some (String c r), _ => call (Navigate (String c r))
  | _, Some u => call (NavigateObjectURL u)
  | _, None => ret tt
  end.

(** The "Open document" button of the legacy .doc section. *)
Definition onOpenDocumentClick : M state unit :=
  u <- gets currentFileUrl ;;
  match u with
  | Some u => call (NavigateObjectURL u)
  | None => ret tt
  end.

Definition destroy : M state unit :=
  cleanupFileUrl ;;
  fun s =>
    match pdfWorkerUrl (worker s) with
    | Some u =>
        (call (RevokeObjectURL u) ;;
         modify (fun s => set_worker
                   {| pdfWorkerUrl := None;
                      pdfWorkerUrlPromise := pdfWorkerUrlPromise (worker s) |} s)) s
    | None => (Returned tt, s)
    end.

Definition showsLegacyCard (w : wrapper_dom) : bool :=
  existsb (fun n => match n with LegacyDocCard _ _ => true | _ => false end) (children w).

Inductive event :=
| UpdateView (ctx : Context) (check : outcome Js.record) (dw : download_world)
    (rw : render_world) (answer : worker_answer)
| ZoomOutClick
| ZoomInClick
| ZoomResetClick
| DownloadClick
| OpenDocumentClick
| Destroy.

Definition handle (e : event) : M state unit :=
  match e with
  | UpdateView ctx check dw rw answer => updateView ctx check dw rw answer
  | ZoomOutClick => z <- gets zoomLevel ;; applyZoom (Num.sub z Num.tenth)
  | ZoomInClick => z <- gets zoomLevel ;; applyZoom (Num.add z Num.tenth)
  | ZoomResetClick => applyZoom Num.one
  | DownloadClick =>
      b <- gets downloadButton ;;
      if b then downloadCurrentFile else ret tt
  | OpenDocumentClick =>
      z <- gets zoomWrapper ;;
      match z with
      | Some w => if showsLegacyCard w then onOpenDocumentClick else ret tt
      | None => ret tt
      end
  | Destroy => destroy
  end.

Definition step (s : state) (e : event) : state := snd (handle e s).

Definition run (s : state) (es : list event) : state := fold_left step es s.

End Inline.

(* ===================================================================== *)
(** ** Object URLs that are live *)
(* ===================================================================== *)

Definition isFileBlob (k : blob_kind) : bool :=
  match k with FileBlob => true | WorkerBlob => false end.

Definition isWorkerBlob (k : blob_kind) : bool :=
  match k with FileBlob => false | WorkerBlob => true end.

(** The object URLs created and not yet revoked after the calls of [h]
    (most recent call first). *)
Fixpoint liveUrls (h : list effect) : list (nat * blob_kind) :=
  match h with
  | [] => []
  | CreateObjectURL u k :: older => (u, k) :: liveUrls older
  | RevokeObjectURL u :: older =>
      filter (fun p => negb (Nat.eqb (fst p) u)) (liveUrls older)
  | _ :: older => liveUrls older
  end.

Definition liveFileUrls (h : list effect) : list nat :=
  map fst (filter (fun p => isFileBlob (snd p)) (liveUrls h)).

Definition liveWorkerUrls (h : list effect) : list nat :=
  map fst (filter (fun p => isWorkerBlob (snd p)) (liveUrls h)).

(** [P] held after every call of the history, and before the first. *)
Fixpoint atAllTimes (P : list effect -> Prop) (h : list effect) : Prop :=
  P h /\ match h with
         | [] => True
         | _ :: older => atAllTimes P older
         end.

(** A call that neither creates nor revokes an object URL. *)
Definition urlFree (e : effect) : bool :=
  match e with
  | CreateObjectURL _ _ | RevokeObjectURL _ => false
  | _ => true
  end.

(** The discipline of the object URLs: at most one live URL per kind of
    blob, and a URL is created only when none of its kind is live. *)
Definition noneLive (k : blob_kind) (h : list effect) : Prop :=
  filter (fun p => match k, snd p with
                   | FileBlob, FileBlob | WorkerBlob, WorkerBlob => true
                   | _, _ => false
                   end) (liveUrls h) = [].

Definition urlDiscipline (h : list effect) : Prop :=
  (length (liveFileUrls h) <= 1)%nat
  /\ (length (liveWorkerUrls h) <= 1)%nat
  /\ match h with
     | CreateObjectURL _ k :: older => noneLive k older
     | _ => True
     end.

(** The pages pdf.js was asked to draw, with the canvas of each, in the
    order of the calls. *)
Fixpoint renderCalls (h : list effect) : list (nat * nat) :=
  match h with
  | [] => []
  | RenderPage pageNum canvas :: older => renderCalls older ++ [(pageNum, canvas)]
  | _ :: older => renderCalls older
  end.

(** The history after the page loop drew the pages [pcs] (page number and
    canvas), in this order, on top of [h]. *)
Fixpoint pageCalls (pcs : list (nat * nat)) (h : list effect) : list effect :=
  match pcs with
  | [] => h
  | (pageNum, canvas) :: rest =>
      pageCalls rest (RenderPage pageNum canvas :: GetPage pageNum :: h)
  end.

(** A message that points the user to the Download button. *)
Fixpoint mentions (needle s : string) : bool :=
  match s with
  | EmptyString => String.eqb needle EmptyString
  | String _ r => (String.prefix needle s || mentions needle r)%bool
  end.

Definition isDownloadFallback (msg : string) : bool := mentions "Download" msg.

(** [s'] comes after [s] in a run that left the object URLs, the scale of
    the wrapper and the fields of the control alone. *)
Definition extends {T} (s s' : surface T) : Prop :=
  exists delta,
    history (env s') = (delta ++ history (env s))%list
    /\ forallb urlFree delta = true
    /\ nextUrl (env s') = nextUrl (env s)
    /\ transform (area s') = transform (area s)
    /\ self s' = self s.

(** From a state that satisfies [P], [m] only does the above. *)
Definition quiet {T A} (P : surface T -> Prop) (m : M (surface T) A) : Prop :=
  forall s, P s -> extends s (snd (m s)).

Definition stable {T} (P : surface T -> Prop) : Prop :=
  forall s s', P s -> extends s s' -> P s'.

(** Every page from 1 to [numPages] loads and draws. *)
Definition allPagesRender (page : nat -> page_answer) (numPages : nat) : bool :=
  forallb (fun n => match page n with PageRenders => true | _ => false end)
          (seq 1 numPages).

(** What the control awaits before it opens a PDF returns, and neither
    creates a canvas nor draws a page. *)
Definition harmless {T} (prepare : M (surface T) unit) : Prop :=
  forall s,
    fst (prepare s) = Returned tt
    /\ nextCanvas (env (snd (prepare s))) = nextCanvas (env s)
    /\ renderCalls (history (env (snd (prepare s)))) = renderCalls (history (env s)).

(** ** What holds in every state the controls reach *)

Definition fileEntry (o : option nat) : list (nat * blob_kind) :=
  match o with Some u => [(u, FileBlob)] | None => [] end.

Definition workerEntry (o : option nat) : list (nat * blob_kind) :=
  match o with Some u => [(u, WorkerBlob)] | None => [] end.

(** The scale written on the wrapper is the stored zoom level. *)
Definition scaleMatches (w : option wrapper_dom) (level : Num.number) : Prop :=
  match w with
  | Some w => transform w = Some level
  | None => True
  end.

(** The modal control: the only live object URL is the one in
    [currentFileUrl], the URL discipline held at all times, and the zoom
    level is in range and written on the wrapper of an open modal. *)
Definition modalInv (s : Modal.state) : Prop :=
  liveUrls (history (Modal.page s)) = fileEntry (Modal.currentFileUrl s)
  /\ atAllTimes urlDiscipline (history (Modal.page s))
  /\ Num.inZoomRange (Modal.zoomLevel s) = true
  /\ scaleMatches (option_map Modal.body (Modal.modal s)) (Modal.zoomLevel s).

(** The inline control: the live object URLs are the one in
    [currentFileUrl] and the one in [pdfWorkerUrl]. *)
Definition inlineInv (s : Inline.state) : Prop :=
  liveUrls (history (Inline.page s))
  = (fileEntry (Inline.currentFileUrl s)
       ++ workerEntry (Inline.pdfWorkerUrl (Inline.worker s)))%list
  /\ (forall u k, In (u, k) (liveUrls (history (Inline.page s))) ->
                  (u < nextUrl (Inline.page s))%nat)
  /\ atAllTimes urlDiscipline (history (Inline.page s))
  /\ Inline.pdfWorkerUrlPromise (Inline.worker s) <> None
  /\ (Inline.currentFileUrl s <> Inline.pdfWorkerUrl (Inline.worker s)
      \/ Inline.currentFileUrl s = None)
  /\ Num.inZoomRange (Inline.zoomLevel s) = true
  /\ scaleMatches (Inline.zoomWrapper s) (Inline.zoomLevel s).

(** ** What the user is shown *)

Definition nodeTexts (n : node) : list string :=
  match n with
  | InfoBlock text => [text]
  | LegacyDocCard text _ => [text]
  | _ => []
  end.

Definition alerts (h : list effect) : list string :=
  flat_map (fun e => match e with Alert msg => [msg] | _ => [] end) h.

(** Every text the modal control shows or has shown: the status label, the
    alerts, the blocks of the open modal. *)
Definition modalMessages (s : Modal.state) : list string :=
  (Modal.fileLabel s :: alerts (history (Modal.page s))
     ++ match Modal.modal s with
        | Some m => flat_map nodeTexts (children (Modal.body m))
        | None => []
        end)%list.

Definition inlineMessages (s : Inline.state) : list string :=
  (alerts (history (Inline.page s))
     ++ match Inline.zoomWrapper s with
        | Some w => flat_map nodeTexts (children w)
        | None => []
        end)%list.

(** The call is part of a preview: a download, an object URL, a rendering. *)
Definition startsPreview (e : effect) : bool :=
  match e with
  | Fetch _ | CreateObjectURL _ FileBlob | GetDocument | GetPage _ | RenderPage _ _
  | RenderAsync | ReadAsDataURL => true
  | _ => false
  end.

(** The tests of [renderFilePreview], one per section. *)
Definition pdfTest (f : file) : bool :=
  (String.eqb (Js.toLowerCase (mimeType f)) "application/pdf"
   || Js.endsWith (Js.toLowerCase (fileName f)) ".pdf")%bool.

Definition imageTest (f : file) : bool :=
  Js.startsWith (Js.toLowerCase (mimeType f)) "image/".

Definition docxTest (f : file) : bool :=
  Js.endsWith (Js.toLowerCase (fileName f)) ".docx".

Definition docTest (f : file) : bool :=
  Js.endsWith (Js.toLowerCase (fileName f)) ".doc".

(** What a section leaves in the wrapper, given the first canvas it may
    use; a PDF leaves its page cards or the failure block. *)
Definition sectionOutput (b : branch) (f : file) (w : render_world)
    (firstCanvas : nat) (shown : list node) : Prop :=
  match b with
  | PdfBranch =>
      match pdf w with
      | Document numPages page =>
          if allPagesRender page numPages
          then shown = map PageCard (seq firstCanvas numPages)
          else shown = [InfoBlock msg_pdf_failed]
      | DocumentRejects _ => shown = [InfoBlock msg_pdf_failed]
      end
  | ImageBranch =>
      shown = if readerLoads w then [ImageCard] else [InfoBlock msg_image_failed]
  | DocxBranch => shown = [WordCard]
  | LegacyDocBranch => shown = [LegacyDocCard msg_legacy_doc "Open document"]
  | FallbackBranch => shown = [InfoBlock (msg_not_available (mimeType f))]
  end.

(** ** Sample inputs *)

Definition sampleContext : Context :=
  {| entityId := Js.Str "{8f2c}";
     EntityLogicalName := Js.Str "account";
     FileColumnName := Js.Str "doc";
     EntitySetName := Js.Str "accounts";
     EnableDownload := true;
     clientUrl := "https://org.example" |}.

Definition sampleRecord (name : string) : Js.record :=
  [("doc", Js.Str "c0ffee"); ("doc_name", Js.Str name)].

Definition sampleDownload (name : string) : download_world :=
  {| retrieved := Returned (sampleRecord name);
     response := Response 200 (Returned "bytes") |}.

Definition sampleRender : render_world :=
  {| pdf := Document 3 (fun _ => PageRenders);
     docx := Returned tt;
     readerLoads := true |}.

(** A world in which docx-preview rejects the document. *)
Definition brokenDocx : render_world :=
  {| pdf := Document 3 (fun _ => PageRenders);
     docx := Thrown plainError;
     readerLoads := true |}.



(** ** Weakest preconditions *)

(** [wp m N E s]: running [m] from [s] either returns [a] in a state that
    satisfies [N a], or throws [e] in a state that satisfies [E e]. *)
Definition wp {S A} (m : M S A) (N : A -> S -> Prop) (E : error -> S -> Prop) (s : S)
  : Prop :=
  match m s with
  | (Returned a, s') => N a s'
  | (Thrown e, s') => E e s'
  end.

(** Nothing is thrown. *)
Definition never {S} : error -> S -> Prop := fun _ _ => False.

(* ===================================================================== *)
(** ** Further notions, for the properties of the last part *)
(* ===================================================================== *)

(** The section that previews a file of a supported extension (in lower
    case). *)
Definition branchOfExtension (ext : string) : branch :=
  if String.eqb ext "pdf" then PdfBranch
  else if String.eqb ext "docx" then DocxBranch
  else if String.eqb ext "doc" then LegacyDocBranch
  else if Js.includes ["png"; "jpg"; "jpeg"; "gif"] ext then ImageBranch
  else FallbackBranch.

(** The section for a file name, by its suffix alone. *)
Definition sectionOfName (name : string) : branch :=
  let lower := Js.toLowerCase name in
  if Js.endsWith lower ".pdf" then PdfBranch
  else if Js.endsWith lower ".docx" then DocxBranch
  else if Js.endsWith lower ".doc" then LegacyDocBranch
  else if (Js.endsWith lower ".png" || Js.endsWith lower ".jpg"
           || Js.endsWith lower ".jpeg" || Js.endsWith lower ".gif")%bool
       then ImageBranch
  else FallbackBranch.

(** [s] starts with a white-space character. *)
Definition startsWithSpace (s : string) : bool :=
  existsb (Js.startsWith s) Js.whiteSpace.



(** ** The calls a computation makes *)

(** From a state that satisfies [I], [m] keeps [I] and only adds calls that
    satisfy [ok] to the history. *)
Definition emitsOnly {S A} (I : S -> Prop) (hist : S -> list effect)
    (ok : effect -> bool) (m : M S A) : Prop :=
  forall s, I s ->
    I (snd (m s))
    /\ exists delta, hist (snd (m s)) = (delta ++ hist s)%list /\ forallb ok delta = true.

(** The calls of the rendering sections: pdf.js, docx-preview,
    FileReader. *)
Definition isRendering (e : effect) : bool :=
  match e with
  | GetDocument | GetPage _ | RenderPage _ _ | RenderAsync | ReadAsDataURL => true
  | _ => false
  end.

(** The calls each event of the modal control may lead to, in a state the
    control reaches. *)
Definition callsOfModal (e : Modal.event) (c : effect) : bool :=
  match e with
  | Modal.UpdateView _ _ =>
      match c with RetrieveRecord _ _ _ => true | _ => false end
  | Modal.PreviewClick _ _ =>
      match c with
      | RetrieveRecord _ _ _ | Fetch _ | CreateObjectURL _ FileBlob
      | RevokeObjectURL _ | Alert _ => true
      | _ => isRendering c
      end
  | Modal.DownloadClick =>
      match c with Navigate _ => true | _ => false end
  | _ => false
  end.

(** The calls each event of the inline control may lead to, once [init]
    has run. *)
Definition callsOfInline (e : Inline.event) (c : effect) : bool :=
  match e with
  | Inline.UpdateView _ _ _ _ _ =>
      match c with
      | RetrieveRecord _ _ _ | Fetch _ | CreateObjectURL _ FileBlob
      | RevokeObjectURL _ => true
      | _ => isRendering c
      end
  | Inline.DownloadClick =>
      match c with Navigate _ => true | _ => false end
  | Inline.OpenDocumentClick =>
      match c with NavigateObjectURL _ => true | _ => false end
  | Inline.Destroy =>
      match c with RevokeObjectURL _ => true | _ => false end
  | _ => false
  end.

(** The number of requests for the pdf.js worker resource in a history. *)
Definition resourceRequests (h : list effect) : nat :=
  length (filter (fun c => match c with GetResource _ => true | _ => false end) h).

(** ** What a download and the steps after it leave behind *)

(** The result of [downloadFile], from the answers of [retrieveRecord] and
    [fetch]. *)
Definition downloadResult (fileColumnName : string) (w : download_world) : outcome file :=
  match retrieved w with
  | Thrown e => Thrown e
  | Returned record =>
      match response w with
      | FetchRejects e => Thrown e
      | Response httpStatus body =>
          if responseOk httpStatus then
            match body with
            | Returned bytes =>
                Returned {| blob := bytes;
                            fileName := downloadedName record fileColumnName;
                            mimeType := mimeTypeOf (downloadedName record fileColumnName) |}
            | Thrown e => Thrown e
            end
          else Thrown (httpError httpStatus)
      end
  end.

(** The state of the modal control when [downloadFile] settles. *)
Definition modalDownloaded (entityLogicalName entityId fileColumnName : string)
    (w : download_world) (s : Modal.state) : Modal.state :=
  let s1 := Modal.set_page
              (record_effect
                 (RetrieveRecord entityLogicalName entityId (selectQuery fileColumnName))
                 (Modal.page s)) s in
  match retrieved w with
  | Thrown _ => s1
  | Returned _ =>
      let fileUrl := getFileUrl (Modal.context s) entityId fileColumnName in
      let s2 := Modal.set_currentDownloadUrl (Some (fileUrl ++ "/$value")) s1 in
      Modal.set_page (record_effect (Fetch fileUrl) (Modal.page s2)) s2
  end.

(** The state of the modal control when [openModal] returns in
    [onPreviewClick]: the object URL of the file was created and revoked
    again, the modal is open and empty. *)
Definition modalOpened (f : file) (s : Modal.state) : Modal.state :=
  {| Modal.context := Modal.context s;
     Modal.previewButton_disabled := Modal.previewButton_disabled s;
     Modal.fileLabel := Modal.fileLabel s;
     Modal.modal :=
       Some {| Modal.title := orElse (Some (fileName f)) "Document preview";
               Modal.downloadButton := EnableDownload (Modal.context s);
               Modal.body := {| children := [];
                                transform := Some (Num.clampZoom Num.one) |} |};
     Modal.zoomLevel := Num.clampZoom Num.one;
     Modal.currentFileUrl := None;
     Modal.currentFileName := Some (fileName f);
     Modal.currentMimeType := Some (mimeType f);
     Modal.currentDownloadUrl := Modal.currentDownloadUrl s;
     Modal.page :=
       {| history :=
            (RevokeObjectURL (nextUrl (Modal.page s))
               :: CreateObjectURL (nextUrl (Modal.page s)) FileBlob
               :: match Modal.currentFileUrl s with
                  | Some u => [RevokeObjectURL u]
                  | None => []
                  end ++ history (Modal.page s))%list;
          nextUrl := S (nextUrl (Modal.page s));
          nextCanvas := nextCanvas (Modal.page s) |} |}.

(** The message of the [catch] of the preview action. *)
Definition errorMessage (e : error) : string :=
  if isForbidden e then msg_permission else msg_generic.





(** The calls the modal control never makes: it has no pdf.js worker of
    its own and never navigates to an object URL. *)
Definition modalCall (c : effect) : bool :=
  match c with
  | GetResource _ | NavigateObjectURL _ | CreateObjectURL _ WorkerBlob => false
  | _ => true
  end.

(** The state of the inline control when [downloadFile] settles. *)
Definition inlineDownloaded (entityLogicalName entityId fileColumnName : string)
    (w : download_world) (s : Inline.state) : Inline.state :=
  let s1 := Inline.set_page
              (record_effect
                 (RetrieveRecord entityLogicalName entityId (selectQuery fileColumnName))
                 (Inline.page s)) s in
  match retrieved w with
  | Thrown _ => s1
  | Returned _ =>
      let fileUrl := getFileUrl (Inline.context s) entityId fileColumnName in
      let s2 := Inline.set_currentDownloadUrl (Some (fileUrl ++ "/$value")) s1 in
      Inline.set_page (record_effect (Fetch fileUrl) (Inline.page s2)) s2
  end.

(** The state of the inline control when [autoLoadPreview] is about to
    render the file: the previous object URL is revoked, the new one is
    stored, the toolbar shows the file name. *)
Definition inlineLoaded (f : file) (s : Inline.state) : Inline.state :=
  {| Inline.context := Inline.context s;
     Inline.previewToolbarTitle :=
       match Inline.previewToolbarTitle s with
       | Some _ => Some (orElse (Some (fileName f)) "Document preview")
       | None => None
       end;
     Inline.downloadButton := Inline.downloadButton s;
     Inline.zoomWrapper := Inline.zoomWrapper s;
     Inline.zoomLevel := Inline.zoomLevel s;
     Inline.currentFileUrl := Some (nextUrl (Inline.page s));
     Inline.currentFileName := Some (fileName f);
     Inline.currentMimeType := Some (mimeType f);
     Inline.currentDownloadUrl := Inline.currentDownloadUrl s;
     Inline.worker := Inline.worker s;
     Inline.page :=
       {| history :=
            (CreateObjectURL (nextUrl (Inline.page s)) FileBlob
               :: match Inline.currentFileUrl s with
                  | Some u => [RevokeObjectURL u]
                  | None => []
                  end ++ history (Inline.page s))%list;
          nextUrl := S (nextUrl (Inline.page s));
          nextCanvas := nextCanvas (Inline.page s) |} |}.

(** The calls the inline control never makes after [init]: it shows its
    messages in the preview area and asks for the worker only once. *)
Definition inlineCall (c : effect) : bool :=
  match c with
  | Alert _ | GetResource _ | CreateObjectURL _ WorkerBlob => false
  | _ => true
  end.

(** Once the control holds an object URL of a file, it also holds the
    address the Download button goes to. *)
Definition downloadKnown (s : Inline.state) : Prop :=
  Inline.currentFileUrl s <> None ->
  exists c r, Inline.currentDownloadUrl s = Some (String c r).

(** The zoom buttons. *)
Definition isZoomClick (e : Inline.event) : bool :=
  match e with
  | Inline.ZoomOutClick | Inline.ZoomInClick | Inline.ZoomResetClick => true
  | _ => false
  end.

(** The state of the inline control after the check of [autoLoadPreview]. *)
Definition checked (ctx : Context) (s : Inline.state) : Inline.state :=
  Inline.set_page
    (record_effect
       (RetrieveRecord (toString (EntityLogicalName ctx)) (toString (entityId ctx))
          (selectQuery (toString (FileColumnName ctx))))
       (Inline.page s)) s.

(** While the modal is open the control knows the file it shows. *)
Definition modalKnown (s : Modal.state) : Prop :=
  forall m, Modal.modal s = Some m ->
    Modal.currentFileName s = Some (Modal.title m)
    /\ exists c r, Modal.currentDownloadUrl s = Some (String c r).

(** The pages pdf.js was asked for, in the order of the calls. *)
Fixpoint pagesRequested (h : list effect) : list nat :=
  match h with
  | [] => []
  | GetPage pageNum :: older => (pagesRequested older ++ [pageNum])%list
  | _ :: older => pagesRequested older
  end.

(** The number of pages drawn on a canvas when page [k] is the first that
    fails: a page that does not load gets no canvas, a page whose drawing
    fails has one. *)
Definition pagesDrawn (page : nat -> page_answer) (k : nat) : nat :=
  match page k with
  | GetPageRejects _ => (k - 1)%nat
  | _ => k
  end.

(** The toolbar of the inline control shows its default title or the name
    of the current file. *)
Definition titleKnown (s : Inline.state) : Prop :=
  exists t, Inline.previewToolbarTitle s = Some t
            /\ (t = "Document preview" \/ Inline.currentFileName s = Some t)
            /\ t <> EmptyString.

(** ** The zoom buttons *)

(** The zoom factor after "+" and after "-", when the view is there:
    [applyZoom(this.zoomLevel + 0.1)] and [applyZoom(this.zoomLevel - 0.1)]. *)
Definition zoomIn (z : Num.number) : Num.number := Num.clampZoom (Num.add z Num.tenth).
Definition zoomOut (z : Num.number) : Num.number := Num.clampZoom (Num.sub z Num.tenth).

(** The same number: the same sign, mantissa and exponent. *)
Definition sameNumber (a b : Num.number) : bool :=
  match a, b with
  | S754_zero s, S754_zero s' => Bool.eqb s s'
  | S754_infinity s, S754_infinity s' => Bool.eqb s s'
  | S754_nan, S754_nan => true
  | S754_finite s m e, S754_finite s' m' e' =>
      (Bool.eqb s s' && Pos.eqb m m' && Z.eqb e e')%bool
  | _, _ => false
  end.

Definition knownLevel (z : Num.number) (l : list Num.number) : bool :=
  existsb (sameNumber z) l.

Definition addLevel (z : Num.number) (l : list Num.number) : list Num.number :=
  if knownLevel z l then l else (l ++ [z])%list.

(** One more click on "+" or "-" from each of the factors of [l]. *)
Definition grow (l : list Num.number) : list Num.number :=
  fold_left (fun acc z => addLevel (zoomOut z) (addLevel (zoomIn z) acc)) l l.

Fixpoint closure (fuel : nat) (l : list Num.number) : list Num.number :=
  match fuel with
  | O => l
  | S n => closure n (grow l)
  end.

(** The zoom factors that the buttons reach from 1. *)
Definition zoomLevels : list Num.number := Eval vm_compute in closure 64%nat [Num.one].

(** What the buttons do to a factor [z]: "+" does not lower it and raises
    it below 3, "-" does not raise it and lowers it above 0.5, and "+"
    after a "-" that stayed above the floor gives [z] back. *)
Definition zoomFacts (z : Num.number) : bool :=
  (Num.le z z
   && Num.le z (zoomIn z)
   && Num.le (zoomOut z) z
   && implb (SFltb z Num.three) (SFltb z (zoomIn z))
   && implb (SFltb Num.half z) (SFltb (zoomOut z) z)
   && implb (Num.le Num.half (Num.sub z Num.tenth)) (sameNumber (zoomIn (zoomOut z)) z))%bool.

(* ===================================================================== *)
(** * Facts *)
(* ===================================================================== *)

(** ** Strings *)

Module JsFacts.
Import Js.

Lemma length_toLowerCase (s : string) :
  String.length (toLowerCase s) = String.length s.
Proof. induction s as [|c r IH]; simpl; congruence. Qed.

Lemma lower_ascii_idempotent (c : ascii) : lower_ascii (lower_ascii c) = lower_ascii c.
Proof.
  destruct c as [[] [] [] [] [] [] [] []]; reflexivity.
Qed.

Lemma toLowerCase_idempotent (s : string) : toLowerCase (toLowerCase s) = toLowerCase s.
Proof.
  induction s as [|c r IH]; simpl; [reflexivity|].
  now rewrite lower_ascii_idempotent, IH.
Qed.

Lemma length_app (a b : string) :
  String.length (a ++ b) = (String.length a + String.length b)%nat.
Proof. induction a as [|c r IH]; simpl; congruence. Qed.

Lemma drop_app (a b : string) : drop (String.length a) (a ++ b) = b.
Proof. induction a as [|c r IH]; simpl; [now destruct b | exact IH]. Qed.

Lemma drop_app_more (a b : string) (n : nat) :
  drop (String.length a + n) (a ++ b) = drop n b.
Proof. induction a as [|c r IH]; simpl; [reflexivity | exact IH]. Qed.

Lemma drop_split (n : nat) (s : string) :
  (n <= String.length s)%nat ->
  exists p, String.length p = n /\ s = p ++ drop n s.
Proof.
  revert s; induction n as [|n IH]; intros s Hn.
  - exists EmptyString. split; [reflexivity | now destruct s].
  - destruct s as [|c r]; simpl in Hn; [lia|].
    destruct (IH r) as [p [Hp Hr]]; [lia|].
    exists (String c p). simpl. split; [congruence | now rewrite <- Hr].
Qed.

Lemma endsWith_app (p x : string) : endsWith (p ++ x) x = true.
Proof.
  unfold endsWith. rewrite length_app.
  replace (String.length p + String.length x - String.length x)%nat
    with (String.length p) by lia.
  rewrite drop_app, String.eqb_refl.
  rewrite andb_true_r. apply Nat.leb_le. lia.
Qed.

Lemma endsWith_inv (s x : string) :
  endsWith s x = true -> exists p, s = p ++ x.
Proof.
  unfold endsWith. intros H. apply andb_true_iff in H as [Hle Heq].
  apply Nat.leb_le in Hle. apply String.eqb_eq in Heq.
  destruct (drop_split (String.length s - String.length x) s) as [p [_ Hs]]; [lia|].
  exists p. now rewrite Heq in Hs.
Qed.

(** Two suffixes of one string: the shorter is a suffix of the longer. *)
Lemma endsWith_nested (s a b : string) :
  endsWith s a = true -> endsWith s b = true ->
  (String.length b <= String.length a)%nat ->
  endsWith a b = true.
Proof.
  intros Ha Hb Hlen.
  destruct (endsWith_inv _ _ Ha) as [p ->].
  unfold endsWith in Hb |- *. apply andb_true_iff in Hb as [_ Hb].
  apply andb_true_iff. split; [now apply Nat.leb_le|].
  rewrite length_app in Hb.
  replace (String.length p + String.length a - String.length b)%nat
    with (String.length p + (String.length a - String.length b))%nat in Hb by lia.
  now rewrite drop_app_more in Hb.
Qed.

Lemma lastIndexOf_without (c : ascii) (s : string) :
  without c s = true -> lastIndexOf c s = -1.
Proof.
  induction s as [|a r IH]; simpl; [reflexivity|].
  intros H. apply andb_true_iff in H as [Ha Hr].
  rewrite (IH Hr). simpl. apply negb_true_iff in Ha. now rewrite Ha.
Qed.

Lemma lastIndexOf_bounds (c : ascii) (s : string) :
  -1 <= lastIndexOf c s < jslength s.
Proof.
  unfold jslength. induction s as [|a r IH]; simpl String.length; simpl lastIndexOf.
  - lia.
  - destruct (0 <=? lastIndexOf c r) eqn:E.
    + lia.
    + destruct (Ascii.eqb a c); lia.
Qed.

(** The last occurrence of [c] in [base ++ c :: ext], when [ext] holds none. *)
Lemma lastIndexOf_app (c : ascii) (base ext : string) :
  without c ext = true ->
  lastIndexOf c (base ++ String c ext) = jslength base.
Proof.
  intros H. unfold jslength.
  induction base as [|a r IH].
  - simpl. rewrite (lastIndexOf_without _ _ H). simpl.
    now rewrite Ascii.eqb_refl.
  - change (lastIndexOf c (String a r ++ String c ext))
      with (let i := lastIndexOf c (r ++ String c ext) in
            if 0 <=? i then i + 1 else if Ascii.eqb a c then 0 else -1).
    rewrite IH. cbv zeta.
    destruct (0 <=? Z.of_nat (String.length r)) eqn:E.
    + simpl String.length. lia.
    + apply Z.leb_gt in E. lia.
Qed.

Lemma includes_In (l : list string) (x : string) :
  includes l x = true <-> In x l.
Proof.
  unfold includes. rewrite existsb_exists. split.
  - intros [y [Hy Heq]]. apply String.eqb_eq in Heq. now subst.
  - intros H. exists x. split; [exact H | apply String.eqb_refl].
Qed.

End JsFacts.

(** ** The attachment check and the MIME type *)

Section AttachmentCheck.
Import Js JsFacts.

Example previewable_pdf :
  previewable [("doc", Str "guid"); ("doc_name", Str "Report.PDF")] "doc" = true.
Proof. reflexivity. Qed.

Example previewable_txt :
  previewable [("doc", Str "guid"); ("doc_name", Str "notes.txt")] "doc" = false.
Proof. reflexivity. Qed.

Example previewable_no_file :
  previewable [("doc", Null); ("doc_name", Str "report.pdf")] "doc" = false.
Proof. reflexivity. Qed.

Lemma previewable_without_file (r : record) (col : string) :
  truthy (get r col) = false -> previewable r col = false.
Proof. unfold previewable. now intros ->. Qed.

Lemma previewable_without_name (r : record) (col : string) :
  truthy (get r col) = true ->
  truthy (get r (col ++ "_name")) = false ->
  previewable r col = true.
Proof.
  unfold previewable. intros -> Hname. simpl.
  destruct (get r (col ++ "_name")) as [| |[|c n]]; try reflexivity.
  discriminate Hname.
Qed.

(** A name [base.ext] whose extension, in lower case, is not in the list. *)
Lemma previewable_unsupported (r : record) (col base ext : string) :
  get r (col ++ "_name") = Str (base ++ "." ++ ext) ->
  without "." ext = true ->
  includes supportedExtensions (toLowerCase ext) = false ->
  previewable r col = false.
Proof.
  intros Hname Hext Hout. unfold previewable.
  destruct (negb (truthy (get r col))); [reflexivity|].
  rewrite Hname.
  assert (Hor : or_default (Str (base ++ "." ++ ext)) "" = base ++ "." ++ ext)
    by (destruct base; reflexivity).
  rewrite Hor.
  assert (Hne : String.eqb (base ++ "." ++ ext) "" = false)
    by (destruct base; reflexivity).
  rewrite Hne.
  change (base ++ "." ++ ext) with (base ++ String "." ext).
  rewrite (lastIndexOf_app "." base ext Hext).
  destruct ((jslength base <=? 0) || (jslength base =? jslength (base ++ String "." ext) - 1))%bool;
    [reflexivity|].
  unfold substring_from, jslength.
  replace (Z.to_nat (Z.of_nat (String.length base) + 1)) with (String.length base + 1)%nat by lia.
  rewrite drop_app_more. simpl drop. exact Hout.
Qed.

Example mime_of_jpeg : mimeTypeOf "Photo.JPEG" = mime_jpeg.
Proof. reflexivity. Qed.

Example mime_of_unknown : mimeTypeOf "archive.zip" = mime_octet.
Proof. reflexivity. Qed.

Lemma mimeTypeOf_known (name : string) : In (mimeTypeOf name) knownMimeTypes.
Proof.
  unfold mimeTypeOf, knownMimeTypes.
  repeat match goal with
         | |- context [if ?b then _ else _] => destruct b
         end; simpl; tauto.
Qed.

Lemma knownMimeTypes_attained (t : string) :
  In t knownMimeTypes -> exists name, mimeTypeOf name = t.
Proof.
  intros H. simpl in H.
  destruct H as [<-|[<-|[<-|[<-|[<-|[<-|[<-|[]]]]]]]].
  - now exists "a.pdf".
  - now exists "a.docx".
  - now exists "a.doc".
  - now exists "a.png".
  - now exists "a.jpg".
  - now exists "a.gif".
  - now exists "a".
Qed.

Ltac two_suffixes :=
  match goal with
  | H1 : endsWith ?s ?a = true, H2 : endsWith ?s ?b = true |- _ =>
      first
        [ let X := fresh in
          assert (X : endsWith a b = true)
            by (apply (endsWith_nested s a b H1 H2); simpl; lia);
          discriminate X
        | let X := fresh in
          assert (X : endsWith b a = true)
            by (apply (endsWith_nested s b a H2 H1); simpl; lia);
          discriminate X ]
  end.

Lemma mimeTypeOf_suffix (name suffix t : string) :
  In (suffix, t) suffixTable ->
  endsWith (toLowerCase name) suffix = true ->
  mimeTypeOf name = t.
Proof.
  intros Hin Hs. unfold mimeTypeOf. simpl in Hin.
  destruct (endsWith (toLowerCase name) ".pdf") eqn:E1;
  destruct (endsWith (toLowerCase name) ".docx") eqn:E2;
  destruct (endsWith (toLowerCase name) ".doc") eqn:E3;
  destruct (endsWith (toLowerCase name) ".png") eqn:E4;
  destruct (endsWith (toLowerCase name) ".jpg") eqn:E5;
  destruct (endsWith (toLowerCase name) ".jpeg") eqn:E6;
  destruct (endsWith (toLowerCase name) ".gif") eqn:E7;
  try two_suffixes;
  simpl;
  repeat match goal with
         | H : _ \/ _ |- _ => destruct H
         | H : (_, _) = (_, _) |- _ => inversion H; clear H; subst
         | H : False |- _ => destruct H
         end;
  solve [reflexivity | congruence].
Qed.

Lemma mimeTypeOf_no_suffix (name : string) :
  (forall suffix t, In (suffix, t) suffixTable ->
                    endsWith (toLowerCase name) suffix = false) ->
  mimeTypeOf name = mime_octet.
Proof.
  intros H. unfold mimeTypeOf.
  rewrite (H ".pdf" mime_pdf), (H ".docx" mime_docx), (H ".doc" mime_doc),
    (H ".png" mime_png), (H ".jpg" mime_jpeg), (H ".jpeg" mime_jpeg),
    (H ".gif" mime_gif); simpl; tauto.
Qed.

Lemma mimeTypeOf_case (a b : string) :
  toLowerCase a = toLowerCase b -> mimeTypeOf a = mimeTypeOf b.
Proof. unfold mimeTypeOf. now intros ->. Qed.

End AttachmentCheck.

(** ** Numbers *)

Module NumFacts.
Import Num.

Lemma compare_None (a b : number) :
  SFcompare a b = None -> isNaN a = true \/ isNaN b = true.
Proof.
  destruct a as [sa|sa| |sa ma ea], b as [sb|sb| |sb mb eb]; simpl;
    intros H; try discriminate H; auto.
Qed.

Lemma compare_antisym (a b : number) (c : comparison) :
  SFcompare a b = Some c -> SFcompare b a = Some (CompOpp c).
Proof.
  destruct a as [sa|sa| |sa ma ea], b as [sb|sb| |sb mb eb]; simpl;
    try discriminate; intros H; injection H as <-; f_equal;
    try solve [ reflexivity | destruct sa; reflexivity | destruct sb; reflexivity
              | destruct sa, sb; reflexivity ].
  assert (Hm : Pos.compare_cont Eq mb ma = CompOpp (Pos.compare_cont Eq ma mb))
    by (now rewrite Pos.compare_cont_antisym).
  rewrite (Z.compare_antisym ea eb), Hm.
  destruct sa, sb; simpl; try reflexivity;
    destruct (ea ?= eb); simpl; try reflexivity;
    destruct (Pos.compare_cont Eq ma mb); reflexivity.
Qed.

Lemma le_of_compare (a b : number) (c : comparison) :
  SFcompare a b = Some c -> c <> Gt -> le a b = true.
Proof. unfold le, SFleb. intros ->. now destruct c. Qed.

Lemma le_of_compare_rev (a b : number) (c : comparison) :
  SFcompare a b = Some c -> c <> Lt -> le b a = true.
Proof.
  intros H Hc. apply compare_antisym in H.
  apply (le_of_compare _ _ _ H). now destruct c.
Qed.

Lemma le_not_NaN (a b : number) : le a b = true -> isNaN a = false /\ isNaN b = false.
Proof.
  unfold le, SFleb. destruct a, b; simpl; try discriminate; auto.
Qed.

(** [Math.max(z, 0.5)] is [z] or [0.5], and at least [0.5]. *)
Lemma max_half (z : number) :
  isNaN z = false ->
  (max z half = z \/ max z half = half) /\ le half (max z half) = true.
Proof.
  intros Hz. unfold max.
  destruct (SFcompare z half) as [c|] eqn:E.
  - destruct c.
    + assert (Hle : le half z = true) by (apply (le_of_compare_rev _ _ _ E); discriminate).
      destruct z as [[]| | |]; simpl; auto.
    + auto.
    + split; [auto|]. apply (le_of_compare_rev _ _ _ E); discriminate.
  - destruct (compare_None _ _ E) as [H|H]; [congruence | discriminate H].
Qed.

Lemma min_three (w : number) :
  isNaN w = false ->
  (min w three = w \/ min w three = three) /\ le (min w three) three = true.
Proof.
  intros Hw. unfold min.
  destruct (SFcompare w three) as [c|] eqn:E.
  - destruct c.
    + assert (Hle : le w three = true) by (apply (le_of_compare _ _ _ E); discriminate).
      destruct w as [[]| | |]; simpl; auto.
    + split; [auto|]. apply (le_of_compare _ _ _ E); discriminate.
    + auto.
  - destruct (compare_None _ _ E) as [H|H]; [congruence | discriminate H].
Qed.

(** The clamp lands in [[0.5, 3]] for every number but NaN. *)
Lemma clampZoom_inZoomRange (z : number) :
  isNaN z = false -> inZoomRange (clampZoom z) = true.
Proof.
  intros Hz. unfold clampZoom, inZoomRange.
  destruct (max_half z Hz) as [Hmax Hlo].
  assert (Hw : isNaN (max z half) = false) by (destruct Hmax as [-> | ->]; auto).
  destruct (min_three _ Hw) as [[Hmin|Hmin] Hhi].
  - rewrite Hmin in *. now rewrite Hlo, Hhi.
  - rewrite Hmin. reflexivity.
Qed.

(** NaN stays NaN through the clamp. *)
Lemma clampZoom_NaN : clampZoom S754_nan = S754_nan.
Proof. reflexivity. Qed.

Lemma inZoomRange_finite (z : number) : inZoomRange z = true -> isFinite z = true.
Proof.
  unfold inZoomRange. intros H. apply andb_true_iff in H as [H1 H2].
  destruct z as [s|[]| |s m e]; try reflexivity; discriminate.
Qed.

(** *** Rounding never yields NaN *)

Lemma shr_1_nonneg (mrs : shr_record) : 0 <= shr_m mrs -> 0 <= shr_m (shr_1 mrs).
Proof.
  destruct mrs as [m r s]. destruct m as [|[p|p|]|p]; simpl; lia.
Qed.

Lemma iter_pos_nonneg (p : positive) (mrs : shr_record) :
  0 <= shr_m mrs -> 0 <= shr_m (iter_pos shr_1 p mrs).
Proof.
  revert mrs. induction p as [p IH|p IH|]; intros mrs H; simpl.
  - apply IH, IH. now apply shr_1_nonneg.
  - now apply IH, IH.
  - now apply shr_1_nonneg.
Qed.

Lemma shr_fexp_nonneg (m e : Z) (l : location) :
  0 <= m -> 0 <= shr_m (fst (shr_fexp prec emax m e l)).
Proof.
  intros Hm. unfold shr_fexp, shr.
  assert (H0 : 0 <= shr_m (shr_record_of_loc m l)) by (destruct l as [|[]]; exact Hm).
  destruct (fexp prec emax (Zdigits2 m + e) - e); simpl; auto.
  now apply iter_pos_nonneg.
Qed.

Lemma round_nearest_even_nonneg (m : Z) (l : location) :
  0 <= m -> 0 <= round_nearest_even m l.
Proof.
  intros Hm. destruct l as [|[]]; simpl; try lia.
  destruct (Z.even m); lia.
Qed.

Lemma binary_round_aux_not_NaN (sx : bool) (mx ex : Z) (lx : location) :
  0 <= mx -> isNaN (binary_round_aux prec emax sx mx ex lx) = false.
Proof.
  intros Hm. unfold binary_round_aux.
  pose proof (shr_fexp_nonneg mx ex lx Hm) as H1.
  destruct (shr_fexp prec emax mx ex lx) as [mrs' e']. simpl in H1.
  pose proof (shr_fexp_nonneg _ e' loc_Exact
                (round_nearest_even_nonneg _ (loc_of_shr_record mrs') H1)) as H2.
  destruct (shr_fexp prec emax (round_nearest_even (shr_m mrs') (loc_of_shr_record mrs'))
              e' loc_Exact) as [mrs'' e'']. simpl in H2.
  destruct (shr_m mrs'') as [|m|m]; [reflexivity | | lia].
  now destruct (e'' <=? emax - prec).
Qed.

Lemma binary_normalize_not_NaN (m e : Z) (szero : bool) :
  isNaN (binary_normalize prec emax m e szero) = false.
Proof.
  unfold binary_normalize, binary_round.
  destruct m as [|p|p]; [reflexivity| |];
    match goal with
    | |- context [shl_align ?a ?b ?c] => destruct (shl_align a b c) as [mz ez]
    end; apply binary_round_aux_not_NaN; lia.
Qed.

Lemma add_not_NaN (a b : number) :
  isFinite a = true -> isFinite b = true -> isNaN (add a b) = false.
Proof.
  unfold add. destruct a as [sa|sa| |sa ma ea], b as [sb|sb| |sb mb eb];
    simpl; try discriminate; intros _ _.
  - now destruct sa, sb.
  - reflexivity.
  - reflexivity.
  - apply binary_normalize_not_NaN.
Qed.

Lemma sub_not_NaN (a b : number) :
  isFinite a = true -> isFinite b = true -> isNaN (sub a b) = false.
Proof.
  unfold sub. destruct a as [sa|sa| |sa ma ea], b as [sb|sb| |sb mb eb];
    simpl; try discriminate; intros _ _.
  - now destruct sa, sb.
  - reflexivity.
  - reflexivity.
  - apply binary_normalize_not_NaN.
Qed.

(** The zoom buttons keep a level of the range in the range. *)
Lemma zoom_buttons_inZoomRange (level : number) :
  inZoomRange level = true ->
  inZoomRange (clampZoom (sub level tenth)) = true
  /\ inZoomRange (clampZoom (add level tenth)) = true
  /\ inZoomRange (clampZoom one) = true.
Proof.
  intros H. apply inZoomRange_finite in H.
  split; [|split]; apply clampZoom_inZoomRange;
    [now apply sub_not_NaN | now apply add_not_NaN | reflexivity].
Qed.

Example tenth_is_one_tenth : div (ofZ 1) (ofZ 10) = tenth.
Proof. reflexivity. Qed.

Example literals : ofZ 1 = one /\ ofZ 3 = three /\ div (ofZ 1) (ofZ 2) = half.
Proof. repeat split. Qed.

Example zoom_in_from_one :
  clampZoom (add one tenth) = S754_finite false 4953959590107546 (-52).
Proof. reflexivity. Qed.

Example zoom_out_at_floor : clampZoom (sub half tenth) = half.
Proof. reflexivity. Qed.

Example zoom_in_at_ceiling : clampZoom (add three tenth) = three.
Proof. reflexivity. Qed.

End NumFacts.

Local Open Scope list_scope.

(** ** The rules of the weakest preconditions *)

Section WpRules.
Context {S : Type}.

Lemma wp_ret {A} (a : A) N E (s : S) : N a s -> wp (ret a) N E s.
Proof. exact (fun H => H). Qed.

Lemma wp_throw {A} (e : error) (N : A -> S -> Prop) E (s : S) :
  E e s -> wp (throw e) N E s.
Proof. exact (fun H => H). Qed.

Lemma wp_bind {A B} (m : M S A) (k : A -> M S B) N E (s : S) :
  wp m (fun a => wp (k a) N E) E s -> wp (bind m k) N E s.
Proof. unfold wp, bind. now destruct (m s) as [[a|e] s']. Qed.

Lemma wp_tryCatch {A} (m : M S A) (h : error -> M S A) N E (s : S) :
  wp m N (fun e => wp (h e) N E) s -> wp (tryCatch m h) N E s.
Proof. unfold wp, tryCatch. now destruct (m s) as [[a|e] s']. Qed.

Lemma wp_gets {A} (f : S -> A) N E (s : S) : N (f s) s -> wp (gets f) N E s.
Proof. exact (fun H => H). Qed.

Lemma wp_modify (f : S -> S) N E (s : S) : N tt (f s) -> wp (modify f) N E s.
Proof. exact (fun H => H). Qed.

Lemma wp_await {A} (o : outcome A) N E (s : S) :
  match o with Returned a => N a s | Thrown e => E e s end -> wp (await o) N E s.
Proof. exact (fun H => H). Qed.

Lemma wp_mono {A} (m : M S A) (N N' : A -> S -> Prop) (E E' : error -> S -> Prop) s :
  wp m N E s ->
  (forall a s', N a s' -> N' a s') ->
  (forall e s', E e s' -> E' e s') ->
  wp m N' E' s.
Proof. unfold wp. destruct (m s) as [[a|e] s']; auto. Qed.

Lemma wp_run {A} (m : M S A) N E (s : S) :
  wp m N E s ->
  match fst (m s) with
  | Returned a => N a (snd (m s))
  | Thrown e => E e (snd (m s))
  end.
Proof. unfold wp. now destruct (m s) as [[a|e] s']. Qed.

Lemma wp_never {A} (m : M S A) (N : A -> S -> Prop) (s : S) :
  wp m N never s -> exists a, fst (m s) = Returned a /\ N a (snd (m s)).
Proof.
  unfold wp, never. destruct (m s) as [[a|e] s']; [|intros []].
  intros H. now exists a.
Qed.
End WpRules.

(** ** Histories and live URLs *)

Section Histories.

Lemma liveUrls_urlFree (e : effect) (h : list effect) :
  urlFree e = true -> liveUrls (e :: h) = liveUrls h.
Proof. destruct e; simpl; intros H; try reflexivity; discriminate H. Qed.

Lemma urlDiscipline_urlFree (e : effect) (h : list effect) :
  urlFree e = true -> urlDiscipline h -> urlDiscipline (e :: h).
Proof.
  intros He [Hf [Hw _]]. unfold urlDiscipline, liveFileUrls, liveWorkerUrls.
  rewrite (liveUrls_urlFree e h He).
  repeat split; try assumption.
  destruct e; try exact I; discriminate He.
Qed.

Lemma atAllTimes_now (P : list effect -> Prop) (h : list effect) :
  atAllTimes P h -> P h.
Proof. destruct h; simpl; tauto. Qed.

Lemma atAllTimes_urlFree (delta h : list effect) :
  forallb urlFree delta = true ->
  atAllTimes urlDiscipline h -> atAllTimes urlDiscipline (delta ++ h).
Proof.
  induction delta as [|e delta IH]; simpl; intros Hd Hh; [exact Hh|].
  apply andb_true_iff in Hd as [He Hd].
  specialize (IH Hd Hh). split; [|exact IH].
  apply urlDiscipline_urlFree; [exact He|].
  apply (atAllTimes_now _ _ IH).
Qed.

Lemma liveUrls_app_urlFree (delta h : list effect) :
  forallb urlFree delta = true -> liveUrls (delta ++ h) = liveUrls h.
Proof.
  induction delta as [|e delta IH]; simpl; intros Hd; [reflexivity|].
  apply andb_true_iff in Hd as [He Hd].
  change (liveUrls (e :: delta ++ h) = liveUrls h).
  rewrite (liveUrls_urlFree _ _ He). now apply IH.
Qed.

Lemma atAllTimes_cons (P : list effect -> Prop) (e : effect) (h : list effect) :
  P (e :: h) -> atAllTimes P h -> atAllTimes P (e :: h).
Proof. simpl. tauto. Qed.

Lemma atAllTimes_suffix (P : list effect -> Prop) (newer older : list effect) :
  atAllTimes P (newer ++ older) -> P older.
Proof.
  induction newer as [|e newer IH]; simpl.
  - apply atAllTimes_now.
  - intros [_ H]. now apply IH.
Qed.

Lemma renderCalls_pageCalls (pcs : list (nat * nat)) (h : list effect) :
  renderCalls (pageCalls pcs h) = renderCalls h ++ pcs.
Proof.
  revert h. induction pcs as [|[p c] rest IH]; intros h; simpl.
  - now rewrite app_nil_r.
  - rewrite IH. simpl. now rewrite <- app_assoc.
Qed.

Lemma pageCalls_extends (pcs : list (nat * nat)) (h : list effect) :
  exists delta, pageCalls pcs h = delta ++ h /\ forallb urlFree delta = true.
Proof.
  revert h. induction pcs as [|[p c] rest IH]; intros h; simpl.
  - now exists [].
  - destruct (IH (RenderPage p c :: GetPage p :: h)) as [delta [Hd Hu]].
    exists (delta ++ [RenderPage p c; GetPage p])%list. split.
    + now rewrite Hd, <- app_assoc.
    + rewrite forallb_app, Hu. reflexivity.
Qed.

End Histories.

(** ** Rendering *)

Section RenderFacts.
Context {T : Type}.
Implicit Types (s : surface T) (P : surface T -> Prop).

Lemma extends_refl s : extends s s.
Proof. exists []. simpl. auto. Qed.

Lemma extends_trans s1 s2 s3 : extends s1 s2 -> extends s2 s3 -> extends s1 s3.
Proof.
  intros [d1 [H1 [U1 [N1 [X1 S1]]]]] [d2 [H2 [U2 [N2 [X2 S2]]]]].
  exists (d2 ++ d1). repeat split; try congruence.
  - now rewrite H2, H1, app_assoc.
  - now rewrite forallb_app, U1, U2.
Qed.

Lemma quiet_ret {A} P (a : A) : quiet P (ret a).
Proof. intros s _. apply extends_refl. Qed.

Lemma quiet_throw {A} P (e : error) : quiet P (throw e : M (surface T) A).
Proof. intros s _. apply extends_refl. Qed.

Lemma quiet_await {A} P (o : outcome A) : quiet P (await o).
Proof. intros s _. apply extends_refl. Qed.

Lemma quiet_bind {A B} P (m : M (surface T) A) (k : A -> M (surface T) B) :
  stable P -> quiet P m -> (forall a, quiet P (k a)) -> quiet P (bind m k).
Proof.
  intros HP Hm Hk s Hs. unfold bind.
  specialize (Hm s Hs). destruct (m s) as [[a|e] s1]; simpl in *; [|exact Hm].
  apply (extends_trans _ _ _ Hm). apply Hk. now apply (HP s).
Qed.

Lemma quiet_tryCatch {A} P (m : M (surface T) A) (h : error -> M (surface T) A) :
  stable P -> quiet P m -> (forall e, quiet P (h e)) -> quiet P (tryCatch m h).
Proof.
  intros HP Hm Hh s Hs. unfold tryCatch.
  specialize (Hm s Hs). destruct (m s) as [[a|e] s1]; simpl in *; [exact Hm|].
  apply (extends_trans _ _ _ Hm). apply Hh. now apply (HP s).
Qed.

Lemma quiet_emit P (e : effect) : urlFree e = true -> quiet P (emit e).
Proof.
  intros He s _. exists [e]. simpl. now rewrite He.
Qed.

Lemma quiet_setChildren P (l : list node) : quiet P (setChildren l).
Proof. intros s _. exists []. simpl. auto. Qed.

Lemma quiet_appendChild P (n : node) : quiet P (appendChild n).
Proof. intros s _. exists []. simpl. auto. Qed.

Lemma quiet_createCanvas P : quiet P (createCanvas (T := T)).
Proof. intros s _. exists []. simpl. auto. Qed.

Lemma quiet_renderPage P (page : nat -> page_answer) (n : nat) :
  stable P -> quiet P (renderPage page n).
Proof.
  intros HP. unfold renderPage.
  apply quiet_bind; [exact HP | now apply quiet_emit | intros _].
  destruct (page n).
  - repeat first [ apply quiet_bind; [exact HP | | intros ?]
                 | apply quiet_createCanvas | apply quiet_appendChild
                 | apply quiet_emit; reflexivity | apply quiet_ret ].
  - apply quiet_throw.
  - repeat first [ apply quiet_bind; [exact HP | | intros ?]
                 | apply quiet_createCanvas | apply quiet_appendChild
                 | apply quiet_emit; reflexivity | apply quiet_throw ].
Qed.

Lemma quiet_renderPages P (page : nat -> page_answer) (l : list nat) :
  stable P -> quiet P (renderPages page l).
Proof.
  intros HP. induction l as [|n l IH]; simpl.
  - apply quiet_ret.
  - apply quiet_bind; [exact HP | now apply quiet_renderPage | intros _; exact IH].
Qed.

Lemma quiet_renderSections P (prepare : M (surface T) unit) (f : file)
    (w : render_world) :
  stable P -> quiet P prepare -> quiet P (renderSections prepare f w).
Proof.
  intros HP Hprep. unfold renderSections.
  apply quiet_bind; [exact HP | apply quiet_setChildren | intros _].
  destruct (dispatch f).
  - apply quiet_bind; [exact HP | apply quiet_appendChild | intros _].
    apply quiet_tryCatch; [exact HP | | intros _; apply quiet_setChildren].
    unfold renderPdf.
    apply quiet_bind; [exact HP | exact Hprep | intros _].
    apply quiet_bind; [exact HP | now apply quiet_emit | intros _].
    destruct (pdf w); [apply quiet_throw|].
    apply quiet_bind; [exact HP | apply quiet_setChildren | intros _].
    now apply quiet_renderPages.
  - apply quiet_bind; [exact HP | apply quiet_appendChild | intros _].
    apply quiet_bind; [exact HP | now apply quiet_emit | intros _].
    destruct (readerLoads w); apply quiet_setChildren.
  - apply quiet_bind; [exact HP | apply quiet_appendChild | intros _].
    apply quiet_bind; [exact HP | now apply quiet_emit | intros _].
    apply quiet_await.
  - apply quiet_appendChild.
  - apply quiet_appendChild.
Qed.

(** *** The page loop *)

Lemma renderPage_ok (page : nat -> page_answer) (n : nat) s :
  page n = PageRenders ->
  renderPage page n s =
    (Returned tt,
     {| area := {| children := children (area s) ++ [PageCard (nextCanvas (env s))];
                   transform := transform (area s) |};
        env := {| history := RenderPage n (nextCanvas (env s))
                               :: GetPage n :: history (env s);
                  nextUrl := nextUrl (env s);
                  nextCanvas := Datatypes.S (nextCanvas (env s)) |};
        self := self s |}).
Proof. intros H. unfold renderPage. rewrite H. reflexivity. Qed.

Lemma renderPage_fails (page : nat -> page_answer) (n : nat) s :
  page n <> PageRenders -> exists e, fst (renderPage page n s) = Thrown e.
Proof.
  intros H. unfold renderPage.
  destruct (page n) as [|e|e]; [congruence| |]; now exists e.
Qed.

(** When every page of [l] draws, the loop returns after one
    [getPage] and one [render] per page, each on a new canvas. *)
Lemma renderPages_ok (page : nat -> page_answer) (l : list nat) s :
  (forall n, In n l -> page n = PageRenders) ->
  renderPages page l s =
    (Returned tt,
     {| area := {| children := children (area s)
                                 ++ map PageCard (seq (nextCanvas (env s)) (length l));
                   transform := transform (area s) |};
        env := {| history :=
                    pageCalls (combine l (seq (nextCanvas (env s)) (length l)))
                              (history (env s));
                  nextUrl := nextUrl (env s);
                  nextCanvas := nextCanvas (env s) + length l |};
        self := self s |}).
Proof.
  revert s. induction l as [|n l IH]; intros s Hl.
  - simpl. rewrite app_nil_r, Nat.add_0_r.
    destruct s as [[c t] [h u k] x]; reflexivity.
  - simpl renderPages. unfold bind.
    rewrite (renderPage_ok page n s) by (apply Hl; now left).
    rewrite IH by (intros m Hm; apply Hl; now right).
    simpl. rewrite <- app_assoc. simpl.
    now rewrite Nat.add_succ_r.
Qed.

(** When some page of [l] fails, the loop throws. *)
Lemma renderPages_fails (page : nat -> page_answer) (l : list nat) s :
  forallb (fun n => match page n with PageRenders => true | _ => false end) l = false ->
  exists e, fst (renderPages page l s) = Thrown e.
Proof.
  revert s. induction l as [|n l IH]; intros s H; simpl in H; [discriminate|].
  simpl renderPages. unfold bind.
  destruct (page n) eqn:En.
  - rewrite (renderPage_ok page n s En). simpl in H. now apply IH.
  - destruct (renderPage_fails page n s) as [e' He']; [congruence|].
    destruct (renderPage page n s) as [[[]|e''] s']; simpl in He'; [discriminate|].
    now exists e''.
  - destruct (renderPage_fails page n s) as [e' He']; [congruence|].
    destruct (renderPage page n s) as [[[]|e''] s']; simpl in He'; [discriminate|].
    now exists e''.
Qed.

(** *** The sections, one by one *)

Lemma wp_harmless (prepare : M (surface T) unit) N E s :
  harmless prepare ->
  (forall s', nextCanvas (env s') = nextCanvas (env s) ->
              renderCalls (history (env s')) = renderCalls (history (env s)) ->
              N tt s') ->
  wp prepare N E s.
Proof.
  intros Hp HN. unfold wp. destruct (Hp s) as [H1 [H2 H3]].
  destruct (prepare s) as [[[]|e] s']; simpl in *; [|discriminate].
  now apply HN.
Qed.

Lemma allPagesRender_In (page : nat -> page_answer) (n : nat) :
  allPagesRender page n = true -> forall i, In i (seq 1 n) -> page i = PageRenders.
Proof.
  unfold allPagesRender. rewrite forallb_forall. intros H i Hi.
  specialize (H i Hi). now destruct (page i).
Qed.

(** The PDF section when the document opens and every page draws. *)
Lemma renderSections_pdf_ok prepare (f : file) (w : render_world) s
      (numPages : nat) (page : nat -> page_answer) :
  harmless prepare ->
  dispatch f = PdfBranch ->
  pdf w = Document numPages page ->
  allPagesRender page numPages = true ->
  wp (renderSections prepare f w)
     (fun _ s' =>
        children (area s') = map PageCard (seq (nextCanvas (env s)) numPages)
        /\ renderCalls (history (env s'))
           = renderCalls (history (env s))
               ++ combine (seq 1 numPages) (seq (nextCanvas (env s)) numPages)
        /\ nextCanvas (env s') = (nextCanvas (env s) + numPages)%nat)
     never s.
Proof.
  intros Hp Hd Hw Hall. unfold renderSections. rewrite Hd.
  apply wp_bind, wp_modify. apply wp_bind, wp_modify.
  apply wp_tryCatch. unfold renderPdf.
  apply wp_bind, wp_harmless; [exact Hp|]. intros s1 Hc Hr.
  apply wp_bind, wp_modify. rewrite Hw.
  apply wp_bind, wp_modify.
  unfold wp. rewrite renderPages_ok by (now apply allPagesRender_In).
  simpl in *. rewrite length_seq, renderCalls_pageCalls. simpl.
  rewrite Hc, Hr. auto.
Qed.

(** The PDF section when the document does not open, or a page fails. *)
Lemma renderSections_pdf_failed prepare (f : file) (w : render_world) s :
  harmless prepare ->
  dispatch f = PdfBranch ->
  match pdf w with
  | DocumentRejects _ => True
  | Document numPages page => allPagesRender page numPages = false
  end ->
  wp (renderSections prepare f w)
     (fun _ s' => children (area s') = [InfoBlock msg_pdf_failed])
     never s.
Proof.
  intros Hp Hd Hw. unfold renderSections. rewrite Hd.
  apply wp_bind, wp_modify. apply wp_bind, wp_modify.
  apply wp_tryCatch. unfold renderPdf.
  apply wp_bind, wp_harmless; [exact Hp|]. intros s1 _ _.
  apply wp_bind, wp_modify.
  destruct (pdf w) as [e|numPages page].
  - apply wp_throw, wp_modify. reflexivity.
  - apply wp_bind, wp_modify.
    match goal with
    | |- wp (renderPages page ?l) _ _ ?s0 =>
        destruct (renderPages_fails page l s0 Hw) as [e He]
    end.
    unfold wp at 1.
    match goal with
    | H : fst ?r = Thrown _ |- match ?r with _ => _ end =>
        destruct r as [[[]|e'] s2]; simpl in H; [discriminate|]
    end.
    apply wp_modify. reflexivity.
Qed.

Lemma renderSections_image prepare (f : file) (w : render_world) s :
  dispatch f = ImageBranch ->
  wp (renderSections prepare f w)
     (fun _ s' =>
        children (area s')
        = if readerLoads w then [ImageCard] else [InfoBlock msg_image_failed])
     never s.
Proof.
  intros Hd. unfold renderSections. rewrite Hd.
  apply wp_bind, wp_modify. apply wp_bind, wp_modify. apply wp_bind, wp_modify.
  destruct (readerLoads w); apply wp_modify; reflexivity.
Qed.

(** The DOCX section hands on whatever [renderAsync] answers. *)
Lemma renderSections_docx prepare (f : file) (w : render_world) s :
  dispatch f = DocxBranch ->
  fst (renderSections prepare f w s) = docx w
  /\ children (area (snd (renderSections prepare f w s))) = [WordCard].
Proof.
  intros Hd. unfold renderSections. rewrite Hd.
  unfold bind, setChildren, appendChild, emit, modify, await. simpl.
  now destruct (docx w) as [[]|e].
Qed.

Lemma renderSections_legacy prepare (f : file) (w : render_world) s :
  dispatch f = LegacyDocBranch ->
  wp (renderSections prepare f w)
     (fun _ s' => children (area s') = [LegacyDocCard msg_legacy_doc "Open document"])
     never s.
Proof.
  intros Hd. unfold renderSections. rewrite Hd.
  apply wp_bind, wp_modify. apply wp_modify. reflexivity.
Qed.

Lemma renderSections_fallback prepare (f : file) (w : render_world) s :
  dispatch f = FallbackBranch ->
  wp (renderSections prepare f w)
     (fun _ s' => children (area s') = [InfoBlock (msg_not_available (mimeType f))])
     never s.
Proof.
  intros Hd. unfold renderSections. rewrite Hd.
  apply wp_bind, wp_modify. apply wp_modify. reflexivity.
Qed.

End RenderFacts.

(** ** The modal control *)

Section ModalFacts.
Import Modal.

Lemma modalInv_init (ctx : Context) : modalInv (init ctx).
Proof.
  unfold modalInv, init, urlDiscipline; simpl. repeat split; auto.
Qed.

(** The invariant reads four things of the state. *)
Lemma modalInv_frame (s s' : state) :
  history (page s') = history (page s) ->
  currentFileUrl s' = currentFileUrl s ->
  zoomLevel s' = zoomLevel s ->
  option_map body (modal s') = option_map body (modal s) ->
  modalInv s -> modalInv s'.
Proof. unfold modalInv. now intros -> -> -> ->. Qed.

Lemma modalInv_call (e : effect) (s : state) :
  urlFree e = true -> modalInv s ->
  modalInv (set_page (record_effect e (page s)) s).
Proof.
  unfold modalInv. cbn -[liveUrls atAllTimes]. intros He (H1 & H2 & H3 & H4).
  rewrite (liveUrls_urlFree _ _ He).
  refine (conj H1 (conj _ (conj H3 H4))).
  apply atAllTimes_cons; [|exact H2].
  apply urlDiscipline_urlFree; [exact He | now apply atAllTimes_now].
Qed.

Lemma modalInv_extended (delta : list effect) (s : state) (b : browser) :
  history b = delta ++ history (page s) ->
  forallb urlFree delta = true ->
  modalInv s -> modalInv (set_page b s).
Proof.
  unfold modalInv. cbn -[liveUrls atAllTimes]. intros -> Hd (H1 & H2 & H3 & H4).
  rewrite (liveUrls_app_urlFree _ _ Hd).
  refine (conj H1 (conj _ (conj H3 H4))).
  now apply atAllTimes_urlFree.
Qed.

Lemma wp_call_modal (e : effect) N E (s : state) :
  N tt (set_page (record_effect e (page s)) s) -> wp (call e) N E s.
Proof. exact (fun H => H). Qed.

Lemma wp_cleanupFileUrl_modal N E (s : state) :
  modalInv s ->
  (forall s', modalInv s' -> currentFileUrl s' = None -> modal s' = modal s ->
              context s' = context s -> N tt s') ->
  wp cleanupFileUrl N E s.
Proof.
  intros (H1 & H2 & H3 & H4) HN. unfold wp, cleanupFileUrl.
  destruct (currentFileUrl s) as [u|] eqn:Hu.
  - simpl. apply HN; try reflexivity.
    assert (Hl : liveUrls (RevokeObjectURL u :: history (page s)) = [])
      by (simpl; rewrite H1; simpl; now rewrite Nat.eqb_refl).
    unfold modalInv. cbn -[liveUrls atAllTimes].
    refine (conj Hl (conj _ (conj H3 H4))).
    apply atAllTimes_cons; [|exact H2].
    unfold urlDiscipline, liveFileUrls, liveWorkerUrls. rewrite Hl. simpl. auto.
  - apply HN; try reflexivity; try assumption.
    unfold modalInv. rewrite Hu. auto.
Qed.

Lemma wp_destroyModal_modal N E (s : state) :
  modalInv s ->
  (forall s', modalInv s' -> currentFileUrl s' = None -> modal s' = None ->
              context s' = context s -> N tt s') ->
  wp destroyModal N E s.
Proof.
  intros H HN. unfold destroyModal.
  apply wp_bind, wp_modify. apply wp_cleanupFileUrl_modal.
  - destruct H as (H1 & H2 & H3 & H4). unfold modalInv. simpl. auto.
  - intros s' Hs' Hu Hm Hc. now apply HN.
Qed.

(** [applyZoom] sets the level and the scale together; it needs the zoom
    part of the invariant only when there is no modal. *)
Lemma wp_applyZoom_open_modal (z : Num.number) N E (s : state) :
  Num.isNaN z = false ->
  liveUrls (history (page s)) = fileEntry (currentFileUrl s) ->
  atAllTimes urlDiscipline (history (page s)) ->
  (modal s = None -> modalInv s) ->
  (forall s', modalInv s' -> N tt s') ->
  wp (applyZoom z) N E s.
Proof.
  intros Hz H1 H2 Hnone HN. unfold wp, applyZoom.
  destruct (modal s) as [m|] eqn:Hm.
  - apply HN. unfold modalInv. cbn -[liveUrls atAllTimes].
    refine (conj H1 (conj H2 (conj _ eq_refl))).
    now apply NumFacts.clampZoom_inZoomRange.
  - apply HN. now apply Hnone.
Qed.

Lemma wp_applyZoom_modal (z : Num.number) N E (s : state) :
  Num.isNaN z = false ->
  modalInv s ->
  (forall s', modalInv s' -> N tt s') ->
  wp (applyZoom z) N E s.
Proof.
  intros Hz H HN. apply wp_applyZoom_open_modal; auto; apply H.
Qed.

Lemma wp_openModal_modal N E (s : state) :
  modalInv s ->
  (forall s', modalInv s' -> N tt s') ->
  wp openModal N E s.
Proof.
  intros H HN. unfold openModal.
  apply wp_bind, wp_destroyModal_modal; [exact H|]. intros s1 (H1 & H2 & H3 & H4) Hu Hm Hc.
  apply wp_bind, wp_modify. apply wp_bind, wp_modify.
  apply wp_applyZoom_open_modal; [reflexivity | exact H1 | exact H2 | discriminate | exact HN].
Qed.

Lemma wp_downloadFile_modal (entity id column : string) (w : download_world) N E (s : state) :
  modalInv s ->
  (forall f s', modalInv s' -> N f s') ->
  (forall e s', modalInv s' -> E e s') ->
  wp (downloadFile entity id column w) N E s.
Proof.
  intros H HN HE. unfold downloadFile.
  apply wp_bind, wp_call_modal.
  assert (H1 := modalInv_call (RetrieveRecord entity id (selectQuery column)) s eq_refl H).
  apply wp_bind, wp_await. destruct (retrieved w) as [r|e]; [|now apply HE].
  apply wp_bind, wp_gets. apply wp_bind, wp_modify. apply wp_bind, wp_call_modal.
  match goal with
  | |- wp _ _ _ ?s2 => assert (H2 : modalInv s2)
  end.
  { apply modalInv_call; [reflexivity|].
    revert H1. apply modalInv_frame; reflexivity. }
  destruct (response w) as [e|code body].
  - apply wp_throw. now apply HE.
  - destruct (negb (responseOk code)).
    + apply wp_throw. now apply HE.
    + apply wp_bind, wp_await. destruct body as [bytes|e]; [|now apply HE].
      apply wp_ret. now apply HN.
Qed.

Lemma wp_renderFilePreview_modal (f : file) (w : render_world) N E (s : state) :
  modalInv s ->
  (forall s', modalInv s' -> N tt s') ->
  (forall e s', modalInv s' -> E e s') ->
  wp (renderFilePreview f w) N E s.
Proof.
  intros H HN HE. unfold wp, renderFilePreview.
  destruct (modal s) as [m|] eqn:Hm; [|now apply HN].
  unfold focus.
  pose proof (quiet_renderSections (fun _ => True) (ret tt) f w
                (fun _ _ _ _ => I) (quiet_ret _ tt) (toSurface m s) I) as Hq.
  destruct (renderSections (ret tt) f w (toSurface m s)) as [o r].
  destruct Hq as (delta & Hh & Hd & Hn & Ht & _). simpl in Hh, Hn, Ht.
  assert (Hs' : modalInv (ofSurface m r s)).
  { unfold ofSurface.
    assert (Hp := modalInv_extended delta s (env r) Hh Hd H).
    destruct Hp as (P1 & P2 & P3 & P4). destruct H as (_ & _ & _ & H4).
    unfold modalInv. simpl in *. repeat split; auto.
    rewrite Hm in H4. simpl in H4. congruence. }
  destruct o as [[]|e]; [now apply HN | now apply HE].
Qed.

Lemma wp_createObjectURL_modal (k : blob_kind) N E (s : state) :
  N (nextUrl (page s)) (set_page (snd (createObjectURL_b k (page s))) s) ->
  wp (createObjectURL k) N E s.
Proof. exact (fun H => H). Qed.

Lemma modalInv_created (s : state) :
  modalInv s -> currentFileUrl s = None ->
  modalInv (set_currentFileUrl (Some (nextUrl (page s)))
              (set_page (snd (createObjectURL_b FileBlob (page s))) s)).
Proof.
  intros (H1 & H2 & H3 & H4) Hu. rewrite Hu in H1.
  assert (Hl : liveUrls (CreateObjectURL (nextUrl (page s)) FileBlob :: history (page s))
               = [(nextUrl (page s), FileBlob)])
    by (simpl; now rewrite H1).
  unfold modalInv. cbn -[liveUrls atAllTimes].
  refine (conj Hl (conj _ (conj H3 H4))).
  apply atAllTimes_cons; [|exact H2].
  unfold urlDiscipline, liveFileUrls, liveWorkerUrls, noneLive. rewrite Hl, H1.
  simpl. auto.
Qed.

(** The preview action keeps the invariant and lets no error out. *)
Lemma onPreviewClick_keeps_modal (dw : download_world) (rw : render_world) (s : state) :
  modalInv s -> wp (onPreviewClick dw rw) (fun _ => modalInv) never s.
Proof.
  intros H. unfold onPreviewClick.
  apply wp_bind, wp_gets. destruct (previewButton_disabled s); [exact H|].
  apply wp_bind, wp_gets. destruct (negb (configured (context s))).
  - apply wp_call_modal. now apply modalInv_call.
  - apply wp_tryCatch. unfold previewAction.
    apply wp_bind, wp_downloadFile_modal; [exact H | |].
    + intros f s1 H1.
      apply wp_bind, wp_modify.
      apply wp_bind, wp_cleanupFileUrl_modal.
      { revert H1. apply modalInv_frame; reflexivity. }
      intros s2 H2 Hu _ _.
      apply wp_bind, wp_createObjectURL_modal. apply wp_bind, wp_modify.
      apply wp_bind, wp_openModal_modal; [now apply modalInv_created|].
      intros s3 H3.
      apply wp_renderFilePreview_modal; [exact H3 | auto |].
      intros e s4 H4. destruct (isForbidden e); apply wp_call_modal; now apply modalInv_call.
    + intros e s1 H1. destruct (isForbidden e); apply wp_call_modal; now apply modalInv_call.
Qed.

Lemma updateView_keeps_modal (ctx : Context) (answer : outcome Js.record) (s : state) :
  modalInv s -> wp (updateView ctx answer) (fun _ => modalInv) never s.
Proof.
  intros H. unfold updateView.
  apply wp_bind, wp_modify. apply wp_bind, wp_modify. apply wp_bind, wp_modify.
  match goal with
  | |- wp _ _ _ ?s1 =>
      assert (H1 : modalInv s1) by (revert H; apply modalInv_frame; reflexivity);
      generalize dependent s1
  end.
  intros s1 H1. unfold checkAttachmentAndUpdateUI.
  apply wp_bind, wp_gets. destruct (negb (configured (context s1))).
  - apply wp_bind, wp_modify. apply wp_modify.
    revert H1. apply modalInv_frame; reflexivity.
  - apply wp_tryCatch. unfold hasPreviewableAttachment.
    apply wp_bind, wp_bind, wp_call_modal.
    match goal with
    | |- wp _ _ _ ?s2 =>
        assert (H2 : modalInv s2) by (now apply modalInv_call);
        generalize dependent s2
    end.
    intros s2 H2.
    apply wp_bind, wp_await. destruct answer as [r|e].
    + apply wp_ret. destruct (previewable r _);
        (apply wp_bind, wp_modify; apply wp_modify;
         revert H2; apply modalInv_frame; reflexivity).
    + apply wp_bind, wp_modify. apply wp_modify.
      revert H2. apply modalInv_frame; reflexivity.
Qed.

Lemma handle_keeps_modal (e : event) (s : state) :
  modalInv s -> wp (handle e) (fun _ => modalInv) never s.
Proof.
  intros H. destruct e; simpl handle.
  - now apply updateView_keeps_modal.
  - now apply onPreviewClick_keeps_modal.
  - apply wp_bind, wp_gets. apply wp_applyZoom_modal; auto.
    apply NumFacts.sub_not_NaN; [|reflexivity].
    apply NumFacts.inZoomRange_finite, H.
  - apply wp_bind, wp_gets. apply wp_applyZoom_modal; auto.
    apply NumFacts.add_not_NaN; [|reflexivity].
    apply NumFacts.inZoomRange_finite, H.
  - apply wp_applyZoom_modal; auto.
  - apply wp_bind, wp_gets. destruct (modal s) as [m|]; [|exact H].
    destruct (downloadButton m); [|exact H].
    unfold onDownloadClick. apply wp_bind, wp_gets.
    destruct (currentDownloadUrl s) as [[|c r]|], (currentFileUrl s);
      try exact H; apply wp_call_modal; now apply modalInv_call.
  - apply wp_bind, wp_gets. destruct (modal s) as [m|]; [|exact H].
    destruct (showsLegacyCard (body m)); [|exact H].
    unfold onOpenDocumentClick. apply wp_bind, wp_gets.
    destruct (currentFileUrl s); [|exact H].
    apply wp_call_modal. now apply modalInv_call.
  - apply wp_destroyModal_modal; auto.
  - unfold destroy. apply wp_bind, wp_cleanupFileUrl_modal; [exact H|].
    intros s1 H1 _ _ _. apply wp_destroyModal_modal; auto.
Qed.

Lemma step_keeps_modal (s : state) (e : event) : modalInv s -> modalInv (step s e).
Proof.
  intros H. unfold step.
  destruct (wp_never _ _ _ (handle_keeps_modal e s H)) as [a [_ Ha]]. exact Ha.
Qed.

Lemma run_keeps_modal (es : list event) (s : state) : modalInv s -> modalInv (run s es).
Proof.
  revert s. induction es as [|e es IH]; intros s H; simpl; [exact H|].
  apply IH. now apply step_keeps_modal.
Qed.

(** No handler lets an error out. *)
Lemma handle_returns_modal (e : event) (s : state) :
  modalInv s -> fst (handle e s) = Returned tt.
Proof.
  intros H. destruct (wp_never _ _ _ (handle_keeps_modal e s H)) as [[] [Ha _]]. exact Ha.
Qed.

End ModalFacts.

(** ** The inline control *)

Section InlineFacts.
Import Inline.

Lemma inlineInv_init (ctx : Context) (answer : worker_answer) :
  inlineInv (init ctx answer).
Proof.
  unfold inlineInv, init, urlDiscipline, noneLive.
  destruct answer as [[]|]; simpl; repeat split; auto; try discriminate;
    try (intros u k [H|[]]; injection H as <- <-; lia);
    try (now intros u k []); try (left; discriminate).
Qed.

Lemma inlineInv_frame (s s' : state) :
  page s' = page s ->
  currentFileUrl s' = currentFileUrl s ->
  worker s' = worker s ->
  zoomLevel s' = zoomLevel s ->
  option_map transform (zoomWrapper s') = option_map transform (zoomWrapper s) ->
  inlineInv s -> inlineInv s'.
Proof.
  unfold inlineInv. intros -> -> -> -> Hw (H1 & H2 & H3 & H4 & H5 & H6 & H7).
  refine (conj H1 (conj H2 (conj H3 (conj H4 (conj H5 (conj H6 _)))))).
  unfold scaleMatches in *.
  destruct (zoomWrapper s), (zoomWrapper s'); simpl in Hw; congruence || auto.
Qed.

Lemma inlineInv_extended (delta : list effect) (s : state) (b : browser) :
  history b = delta ++ history (page s) ->
  forallb urlFree delta = true ->
  nextUrl b = nextUrl (page s) ->
  inlineInv s -> inlineInv (set_page b s).
Proof.
  unfold inlineInv. cbn -[liveUrls atAllTimes].
  intros -> Hd -> (H1 & H2 & H3 & H4 & H5 & H6 & H7).
  rewrite (liveUrls_app_urlFree _ _ Hd).
  refine (conj H1 (conj H2 (conj _ (conj H4 (conj H5 (conj H6 H7)))))).
  now apply atAllTimes_urlFree.
Qed.

Lemma inlineInv_call (e : effect) (s : state) :
  urlFree e = true -> inlineInv s ->
  inlineInv (set_page (record_effect e (page s)) s).
Proof.
  intros He. apply (inlineInv_extended [e]); simpl; auto. now rewrite He.
Qed.

Lemma wp_call_inline (e : effect) N E (s : state) :
  N tt (set_page (record_effect e (page s)) s) -> wp (call e) N E s.
Proof. exact (fun H => H). Qed.

Lemma wp_cleanupFileUrl_inline N E (s : state) :
  inlineInv s ->
  (forall s', inlineInv s' -> currentFileUrl s' = None -> N tt s') ->
  wp cleanupFileUrl N E s.
Proof.
  intros (H1 & H2 & H3 & H4 & H5 & H6 & H7) HN. unfold wp, cleanupFileUrl.
  destruct (currentFileUrl s) as [u|] eqn:Hu.
  - simpl. apply HN; [|reflexivity].
    assert (Hl : liveUrls (RevokeObjectURL u :: history (page s))
                 = workerEntry (pdfWorkerUrl (worker s))).
    { simpl. rewrite H1. simpl. rewrite Nat.eqb_refl. simpl.
      destruct (pdfWorkerUrl (worker s)) as [v|]; [|reflexivity]. simpl.
      destruct (Nat.eqb_spec v u) as [->|_]; [|reflexivity].
      destruct H5 as [H5|H5]; [now elim H5 | discriminate]. }
    unfold inlineInv. cbn -[liveUrls atAllTimes]. rewrite Hl.
    refine (conj eq_refl (conj _ (conj _ (conj H4 (conj _ (conj H6 H7)))))).
    + intros v k Hv. apply (H2 v k). rewrite H1. now right.
    + apply atAllTimes_cons; [|exact H3].
      unfold urlDiscipline, liveFileUrls, liveWorkerUrls. rewrite Hl.
      destruct (pdfWorkerUrl (worker s)); simpl; auto.
    + now right.
  - apply HN; [|exact Hu].
    unfold inlineInv. rewrite Hu. auto 10.
Qed.

Lemma wp_createObjectURL_inline (k : blob_kind) N E (s : state) :
  N (nextUrl (page s)) (set_page (snd (createObjectURL_b k (page s))) s) ->
  wp (createObjectURL k) N E s.
Proof. exact (fun H => H). Qed.

Lemma inlineInv_created (s : state) :
  inlineInv s -> currentFileUrl s = None ->
  inlineInv (set_currentFileUrl (Some (nextUrl (page s)))
               (set_page (snd (createObjectURL_b FileBlob (page s))) s)).
Proof.
  intros (H1 & H2 & H3 & H4 & H5 & H6 & H7) Hu. rewrite Hu in H1. simpl in H1.
  assert (Hl : liveUrls (CreateObjectURL (nextUrl (page s)) FileBlob :: history (page s))
               = (nextUrl (page s), FileBlob) :: workerEntry (pdfWorkerUrl (worker s)))
    by (simpl; now rewrite H1).
  unfold inlineInv. cbn -[liveUrls atAllTimes]. rewrite Hl.
  refine (conj eq_refl (conj _ (conj _ (conj H4 (conj _ (conj H6 H7)))))).
  - intros v k [Hv|Hv]; [injection Hv as <- <-; lia|].
    assert (v < nextUrl (page s))%nat; [|lia]. apply (H2 v k). now rewrite H1.
  - apply atAllTimes_cons; [|exact H3].
    unfold urlDiscipline, liveFileUrls, liveWorkerUrls, noneLive. rewrite Hl, H1.
    destruct (pdfWorkerUrl (worker s)); simpl; auto.
  - left. destruct (pdfWorkerUrl (worker s)) as [v|] eqn:Hv; [|discriminate].
    intros Heq. injection Heq as Heq.
    assert (v < nextUrl (page s))%nat; [|lia].
    apply (H2 v WorkerBlob). rewrite H1. now left.
Qed.

Lemma wp_applyZoom_inline (z : Num.number) N E (s : state) :
  Num.isNaN z = false ->
  inlineInv s ->
  (forall s', inlineInv s' -> N tt s') ->
  wp (applyZoom z) N E s.
Proof.
  intros Hz H HN. unfold wp, applyZoom.
  destruct (zoomWrapper s) as [w|] eqn:Hw; [|now apply HN].
  apply HN. destruct H as (H1 & H2 & H3 & H4 & H5 & H6 & H7).
  unfold inlineInv. cbn -[liveUrls atAllTimes].
  refine (conj H1 (conj H2 (conj H3 (conj H4 (conj H5 (conj _ eq_refl)))))).
  now apply NumFacts.clampZoom_inZoomRange.
Qed.

Lemma wp_setInfoMessage_inline (text : string) N E (s : state) :
  inlineInv s ->
  (forall s', inlineInv s' -> N tt s') ->
  wp (setInfoMessage text) N E s.
Proof.
  intros H HN. unfold wp, setInfoMessage.
  destruct (zoomWrapper s) as [w|] eqn:Hw; [|now apply HN].
  apply HN. revert H. simpl.
  destruct (previewToolbarTitle s); apply inlineInv_frame; simpl;
    try reflexivity; now rewrite Hw.
Qed.

Lemma wp_downloadFile_inline (entity id column : string) (w : download_world) N E (s : state) :
  inlineInv s ->
  (forall f s', inlineInv s' -> N f s') ->
  (forall e s', inlineInv s' -> E e s') ->
  wp (downloadFile entity id column w) N E s.
Proof.
  intros H HN HE. unfold downloadFile.
  apply wp_bind, wp_call_inline.
  assert (H1 := inlineInv_call (RetrieveRecord entity id (selectQuery column)) s eq_refl H).
  apply wp_bind, wp_await. destruct (retrieved w) as [r|e]; [|now apply HE].
  apply wp_bind, wp_gets. apply wp_bind, wp_modify. apply wp_bind, wp_call_inline.
  match goal with
  | |- wp _ _ _ ?s2 => assert (H2 : inlineInv s2)
  end.
  { apply inlineInv_call; [reflexivity|].
    revert H1. apply inlineInv_frame; reflexivity. }
  destruct (response w) as [e|code body].
  - apply wp_throw. now apply HE.
  - destruct (negb (responseOk code)).
    + apply wp_throw. now apply HE.
    + apply wp_bind, wp_await. destruct body as [bytes|e]; [|now apply HE].
      apply wp_ret. now apply HN.
Qed.

(** Once [init] has cached the worker promise, awaiting it does nothing. *)
Lemma awaitWorker_cached (answer : worker_answer) (r : surface worker_state) :
  pdfWorkerUrlPromise (self r) <> None ->
  awaitWorker answer r = (Returned tt, r).
Proof.
  intros H. unfold awaitWorker, bind, focus, ensurePdfWorkerUrl.
  destruct r as [a b ws]. simpl in *.
  destruct (pdfWorkerUrlPromise ws); [reflexivity | now elim H].
Qed.

Lemma stable_cached :
  stable (fun r : surface worker_state => pdfWorkerUrlPromise (self r) <> None).
Proof. intros r r' H (delta & _ & _ & _ & _ & Hs). now rewrite Hs. Qed.

Lemma quiet_awaitWorker (answer : worker_answer) :
  quiet (fun r : surface worker_state => pdfWorkerUrlPromise (self r) <> None)
        (awaitWorker answer).
Proof.
  intros r Hr. rewrite (awaitWorker_cached answer r Hr). apply extends_refl.
Qed.

Lemma wp_renderFilePreview_inline (f : file) (w : render_world) (answer : worker_answer)
      N E (s : state) :
  inlineInv s ->
  (forall s', inlineInv s' -> N tt s') ->
  (forall e s', inlineInv s' -> E e s') ->
  wp (renderFilePreview f w answer) N E s.
Proof.
  intros H HN HE. unfold wp, renderFilePreview.
  destruct (zoomWrapper s) as [z|] eqn:Hz; [|now apply HN].
  unfold focus.
  assert (Hc : pdfWorkerUrlPromise (self (toSurface z s)) <> None) by apply H.
  pose proof (quiet_renderSections _ (awaitWorker answer) f w
                stable_cached (quiet_awaitWorker answer) (toSurface z s) Hc) as Hq.
  destruct (renderSections (awaitWorker answer) f w (toSurface z s)) as [o r].
  destruct Hq as (delta & Hh & Hd & Hn & Ht & Hs). simpl in Hh, Hn, Ht, Hs.
  assert (Hs' : inlineInv (ofSurface r s)).
  { unfold ofSurface.
    assert (Hp := inlineInv_extended delta s (env r) Hh Hd Hn H).
    revert Hp. apply inlineInv_frame; simpl; try reflexivity; try congruence.
    now rewrite Hz, Ht. }
  destruct o as [[]|e]; [now apply HN | now apply HE].
Qed.

Lemma autoLoadPreview_keeps_inline (check : outcome Js.record) (dw : download_world)
      (rw : render_world) (answer : worker_answer) (s : state) :
  inlineInv s -> wp (autoLoadPreview check dw rw answer) (fun _ => inlineInv) never s.
Proof.
  intros H. unfold autoLoadPreview.
  apply wp_bind, wp_gets. destruct (zoomWrapper s) as [z|]; [|exact H].
  apply wp_bind, wp_gets.
  destruct (negb (Js.truthy (entityId (context s)))); [now apply wp_setInfoMessage_inline|].
  destruct (negb (Js.truthy (EntityLogicalName (context s))
                  && Js.truthy (FileColumnName (context s))));
    [now apply wp_setInfoMessage_inline|].
  apply wp_tryCatch. unfold loadAction, hasPreviewableAttachment.
  apply wp_bind, wp_bind, wp_call_inline.
  match goal with
  | |- wp _ _ _ ?s1 =>
      assert (H1 : inlineInv s1) by (now apply inlineInv_call);
      generalize dependent s1
  end.
  intros s1 H1.
  apply wp_bind, wp_await. destruct check as [r|e].
  - apply wp_ret. destruct (negb (previewable r _)); [now apply wp_setInfoMessage_inline|].
    apply wp_bind, wp_downloadFile_inline; [exact H1 | |].
    + intros f s2 H2.
      apply wp_bind, wp_modify.
      apply wp_bind, wp_cleanupFileUrl_inline.
      { revert H2. apply inlineInv_frame; reflexivity. }
      intros s3 H3 Hu.
      apply wp_bind, wp_createObjectURL_inline. apply wp_bind, wp_modify.
      apply wp_bind, wp_modify.
      apply wp_renderFilePreview_inline.
      * assert (H4 := inlineInv_created s3 H3 Hu). revert H4.
        match goal with
        | |- inlineInv ?a -> inlineInv (match previewToolbarTitle ?b with _ => _ end) =>
            destruct (previewToolbarTitle b)
        end; apply inlineInv_frame; reflexivity.
      * auto.
      * intros e s4 H4. destruct (isForbidden e); now apply wp_setInfoMessage_inline.
    + intros e s2 H2. destruct (isForbidden e); now apply wp_setInfoMessage_inline.
  - destruct (isForbidden e); now apply wp_setInfoMessage_inline.
Qed.

Lemma destroy_keeps_inline (s : state) :
  inlineInv s ->
  wp destroy (fun _ s' => inlineInv s' /\ liveUrls (history (page s')) = []) never s.
Proof.
  intros H. unfold destroy.
  apply wp_bind, wp_cleanupFileUrl_inline; [exact H|].
  intros s1 (H1 & H2 & H3 & H4 & H5 & H6 & H7) Hu.
  rewrite Hu in H1. simpl in H1. unfold wp.
  destruct (pdfWorkerUrl (worker s1)) as [u|] eqn:Hw.
  - assert (Hl : liveUrls (RevokeObjectURL u :: history (page s1)) = [])
      by (simpl; rewrite H1; simpl; now rewrite Nat.eqb_refl).
    simpl. split; [|exact Hl].
    unfold inlineInv. cbn -[liveUrls atAllTimes]. rewrite Hl, Hu.
    refine (conj eq_refl (conj _ (conj _ (conj H4 (conj _ (conj H6 H7)))))).
    + now intros v k [].
    + apply atAllTimes_cons; [|exact H3].
      unfold urlDiscipline, liveFileUrls, liveWorkerUrls. rewrite Hl. simpl. auto.
    + now right.
  - split; [|exact H1].
    unfold inlineInv. rewrite Hu, Hw. simpl. auto 10.
Qed.

Lemma handle_keeps_inline (e : event) (s : state) :
  inlineInv s -> wp (handle e) (fun _ => inlineInv) never s.
Proof.
  intros H. destruct e; simpl handle.
  - unfold updateView. apply wp_bind, wp_modify.
    apply autoLoadPreview_keeps_inline. revert H. apply inlineInv_frame; reflexivity.
  - apply wp_bind, wp_gets. apply wp_applyZoom_inline; auto.
    apply NumFacts.sub_not_NaN; [|reflexivity].
    apply NumFacts.inZoomRange_finite, H.
  - apply wp_bind, wp_gets. apply wp_applyZoom_inline; auto.
    apply NumFacts.add_not_NaN; [|reflexivity].
    apply NumFacts.inZoomRange_finite, H.
  - apply wp_applyZoom_inline; auto.
  - apply wp_bind, wp_gets. destruct (downloadButton s); [|exact H].
    unfold downloadCurrentFile. apply wp_bind, wp_gets.
    destruct (currentDownloadUrl s) as [[|c r]|], (currentFileUrl s);
      try exact H; apply wp_call_inline; now apply inlineInv_call.
  - apply wp_bind, wp_gets. destruct (zoomWrapper s) as [w|]; [|exact H].
    destruct (showsLegacyCard w); [|exact H].
    unfold onOpenDocumentClick. apply wp_bind, wp_gets.
    destruct (currentFileUrl s); [|exact H].
    apply wp_call_inline. now apply inlineInv_call.
  - apply (wp_mono _ _ _ _ _ _ (destroy_keeps_inline s H)); [now intros a s' [H' _] | auto].
Qed.

Lemma step_keeps_inline (s : state) (e : event) : inlineInv s -> inlineInv (step s e).
Proof.
  intros H. unfold step.
  destruct (wp_never _ _ _ (handle_keeps_inline e s H)) as [a [_ Ha]]. exact Ha.
Qed.

Lemma run_keeps_inline (es : list event) (s : state) : inlineInv s -> inlineInv (run s es).
Proof.
  revert s. induction es as [|e es IH]; intros s H; simpl; [exact H|].
  apply IH. now apply step_keeps_inline.
Qed.

Lemma handle_returns_inline (e : event) (s : state) :
  inlineInv s -> fst (handle e s) = Returned tt.
Proof.
  intros H. destruct (wp_never _ _ _ (handle_keeps_inline e s H)) as [[] [Ha _]]. exact Ha.
Qed.

End InlineFacts.

(* ===================================================================== *)
(** * The claims *)
(* ===================================================================== *)

(** ** Object URLs (C1) *)

Section ObjectUrls.

Lemma destroy_clears_modal (s : Modal.state) :
  modalInv s -> liveUrls (history (Modal.page (Modal.step s Modal.Destroy))) = [].
Proof.
  intros H. unfold Modal.step. simpl Modal.handle. unfold Modal.destroy.
  assert (Hwp : wp (bind Modal.cleanupFileUrl (fun _ => Modal.destroyModal))
                   (fun _ s' => liveUrls (history (Modal.page s')) = []) never s).
  { apply wp_bind, wp_cleanupFileUrl_modal; [exact H|]. intros s1 H1 _ _ _.
    apply wp_destroyModal_modal; [exact H1|]. intros s2 (H2 & _) Hu _ _.
    now rewrite H2, Hu. }
  destruct (wp_never _ _ _ Hwp) as [a [_ Ha]]. exact Ha.
Qed.

Lemma destroy_clears_inline (s : Inline.state) :
  inlineInv s -> liveUrls (history (Inline.page (Inline.step s Inline.Destroy))) = [].
Proof.
  intros H. unfold Inline.step. simpl Inline.handle.
  destruct (wp_never _ _ _ (destroy_keeps_inline s H)) as [a [_ [_ Ha]]]. exact Ha.
Qed.

Lemma liveWorkerUrls_fileEntry (h : list effect) (o : option nat) :
  liveUrls h = fileEntry o -> liveWorkerUrls h = [].
Proof. unfold liveWorkerUrls. intros ->. now destruct o. Qed.

Example modal_url_revoked_at_once :
  let s := Modal.run (Modal.init sampleContext)
             [Modal.UpdateView sampleContext (Returned (sampleRecord "a.pdf"));
              Modal.PreviewClick (sampleDownload "a.pdf") sampleRender] in
  liveUrls (history (Modal.page s)) = [] /\ Modal.currentFileUrl s = None.
Proof. split; reflexivity. Qed.

End ObjectUrls.

(** C1, as stated: after any sequence of operations exactly one object URL
    is live.  It fails before the first preview, when none is live, and in
    the inline control after a preview, when the URL of the file and the
    URL of the pdf.js worker are both live. *)
Lemma exactly_one_object_url_counterexample :
  length (liveUrls (history (Modal.page (Modal.run (Modal.init sampleContext) [])))) = 0%nat
  /\ length (liveUrls (history (Inline.page
               (Inline.run (Inline.init sampleContext (Inline.ResourceLoaded true))
                  [Inline.UpdateView sampleContext (Returned (sampleRecord "a.pdf"))
                     (sampleDownload "a.pdf") sampleRender (Inline.ResourceLoaded true)]))))
     = 2%nat
  /\ ~ (forall es,
          length (liveUrls (history (Modal.page (Modal.run (Modal.init sampleContext) es))))
          = 1%nat).
Proof.
  split; [reflexivity|]. split; [reflexivity|].
  intros H. specialize (H []). discriminate H.
Qed.

(** C1, amended: in every state either control reaches, and at every
    moment of the history that led there, at most one object URL of a file
    is live and at most one of the pdf.js worker (which only the inline
    control creates); an object URL is created only when none of its kind
    is live; the live URLs are the ones the control holds in
    [currentFileUrl] and [pdfWorkerUrl]; and after [destroy] none is live. *)
Theorem object_urls_scoped :
  (forall ctx es,
      let s := Modal.run (Modal.init ctx) es in
      atAllTimes urlDiscipline (history (Modal.page s))
      /\ liveUrls (history (Modal.page s)) = fileEntry (Modal.currentFileUrl s)
      /\ liveUrls (history (Modal.page (Modal.step s Modal.Destroy))) = [])
  /\ (forall ctx answer es,
         let s := Inline.run (Inline.init ctx answer) es in
         atAllTimes urlDiscipline (history (Inline.page s))
         /\ liveUrls (history (Inline.page s))
            = fileEntry (Inline.currentFileUrl s)
                ++ workerEntry (Inline.pdfWorkerUrl (Inline.worker s))
         /\ liveUrls (history (Inline.page (Inline.step s Inline.Destroy))) = []).
Proof.
  split.
  - intros ctx es s.
    assert (H : modalInv s) by (apply run_keeps_modal, modalInv_init).
    split; [apply H|]. split; [apply H|]. now apply destroy_clears_modal.
  - intros ctx answer es s.
    assert (H : inlineInv s) by (apply run_keeps_inline, inlineInv_init).
    split; [apply H|]. split; [apply H|]. now apply destroy_clears_inline.
Qed.

(** ** Zoom (C2) *)

(** C2: whatever the sequence of operations, the stored zoom level lies in
    [[0.5, 3.0]], the scale written on the zoom wrapper is that level, and
    no zoom button hands NaN to [applyZoom]; [applyZoom] stores the clamp
    of its argument and writes it on the wrapper, and the clamp lies in the
    interval for every argument but NaN, which no caller passes. *)
Theorem zoom_always_clamped :
  (forall ctx es,
      let s := Modal.run (Modal.init ctx) es in
      Num.inZoomRange (Modal.zoomLevel s) = true
      /\ (forall m, Modal.modal s = Some m ->
                    transform (Modal.body m) = Some (Modal.zoomLevel s))
      /\ Num.isNaN (Num.sub (Modal.zoomLevel s) Num.tenth) = false
      /\ Num.isNaN (Num.add (Modal.zoomLevel s) Num.tenth) = false)
  /\ (forall ctx answer es,
         let s := Inline.run (Inline.init ctx answer) es in
         Num.inZoomRange (Inline.zoomLevel s) = true
         /\ (forall w, Inline.zoomWrapper s = Some w ->
                       transform w = Some (Inline.zoomLevel s))
         /\ Num.isNaN (Num.sub (Inline.zoomLevel s) Num.tenth) = false
         /\ Num.isNaN (Num.add (Inline.zoomLevel s) Num.tenth) = false)
  /\ (forall z s m,
         Modal.modal s = Some m ->
         let s' := snd (Modal.applyZoom z s) in
         Modal.zoomLevel s' = Num.clampZoom z
         /\ option_map (fun m' => transform (Modal.body m')) (Modal.modal s')
            = Some (Some (Num.clampZoom z)))
  /\ (forall z s w,
         Inline.zoomWrapper s = Some w ->
         let s' := snd (Inline.applyZoom z s) in
         Inline.zoomLevel s' = Num.clampZoom z
         /\ option_map transform (Inline.zoomWrapper s') = Some (Some (Num.clampZoom z)))
  /\ (forall z, Num.isNaN z = false -> Num.inZoomRange (Num.clampZoom z) = true).
Proof.
  split; [|split; [|split; [|split]]].
  - intros ctx es s.
    assert (H : modalInv s) by (apply run_keeps_modal, modalInv_init).
    destruct H as (_ & _ & H3 & H4).
    split; [exact H3|]. split.
    + intros m Hm. rewrite Hm in H4. exact H4.
    + apply NumFacts.inZoomRange_finite in H3.
      split; [now apply NumFacts.sub_not_NaN | now apply NumFacts.add_not_NaN].
  - intros ctx answer es s.
    assert (H : inlineInv s) by (apply run_keeps_inline, inlineInv_init).
    destruct H as (_ & _ & _ & _ & _ & H3 & H4).
    split; [exact H3|]. split.
    + intros w Hw. rewrite Hw in H4. exact H4.
    + apply NumFacts.inZoomRange_finite in H3.
      split; [now apply NumFacts.sub_not_NaN | now apply NumFacts.add_not_NaN].
  - intros z s m Hm. unfold Modal.applyZoom. rewrite Hm. split; reflexivity.
  - intros z s w Hw. unfold Inline.applyZoom. rewrite Hw. split; reflexivity.
  - exact NumFacts.clampZoom_inZoomRange.
Qed.

Lemma zoom_always_clamped_witness :
  Num.inZoomRange (Num.clampZoom (Num.add Num.three Num.tenth)) = true
  /\ Num.clampZoom (Num.add Num.three Num.tenth) = Num.three.
Proof.
  split.
  - apply (proj2 (proj2 (proj2 (proj2 zoom_always_clamped)))). vm_compute. reflexivity.
  - vm_compute. reflexivity.
Defined.

(** ** The attachment check (C3, C5, C9) *)

Section Attachment.
Import Js.

Lemma hasPreviewableAttachment_modal (entity id col : string) (r : record)
      (s : Modal.state) :
  Modal.hasPreviewableAttachment entity id col (Returned r) s
  = (Returned (previewable r col),
     Modal.set_page
       (record_effect (RetrieveRecord entity id (selectQuery col)) (Modal.page s)) s).
Proof. reflexivity. Qed.

Lemma hasPreviewableAttachment_inline (entity id col : string) (r : record)
      (s : Inline.state) :
  Inline.hasPreviewableAttachment entity id col (Returned r) s
  = (Returned (previewable r col),
     Inline.set_page
       (record_effect (RetrieveRecord entity id (selectQuery col)) (Inline.page s)) s).
Proof. reflexivity. Qed.

(** The modal control after [updateView], when the check answers. *)
Lemma updateView_modal (ctx : Context) (r : record) (s : Modal.state) :
  let s' := Modal.step s (Modal.UpdateView ctx (Returned r)) in
  let col := toString (FileColumnName ctx) in
  Modal.previewButton_disabled s'
  = negb (Modal.configured ctx && previewable r col)
  /\ Modal.fileLabel s'
     = (if negb (Modal.configured ctx) then msg_missing_config
        else if previewable r col then "" else msg_no_previewable)
  /\ history (Modal.page s')
     = (if Modal.configured ctx
        then [RetrieveRecord (toString (EntityLogicalName ctx))
                (toString (entityId ctx)) (selectQuery col)]
        else []) ++ history (Modal.page s)
  /\ Modal.modal s' = Modal.modal s.
Proof.
  intros s' col. subst s'. unfold Modal.step. simpl Modal.handle.
  match goal with
  | |- ?G => assert (Hwp : wp (Modal.updateView ctx (Returned r))
                             (fun _ s' =>
                                Modal.previewButton_disabled s'
                                = negb (Modal.configured ctx && previewable r col)
                                /\ Modal.fileLabel s'
                                   = (if negb (Modal.configured ctx) then msg_missing_config
                                      else if previewable r col then ""
                                           else msg_no_previewable)
                                /\ history (Modal.page s')
                                   = (if Modal.configured ctx
                                      then [RetrieveRecord (toString (EntityLogicalName ctx))
                                              (toString (entityId ctx)) (selectQuery col)]
                                      else []) ++ history (Modal.page s)
                                /\ Modal.modal s' = Modal.modal s)
                             never s)
  end.
  { unfold Modal.updateView, Modal.checkAttachmentAndUpdateUI.
    apply wp_bind, wp_modify. apply wp_bind, wp_modify. apply wp_bind, wp_modify.
    apply wp_bind, wp_gets.
    cbn [Modal.context Modal.set_context Modal.set_fileLabel Modal.set_disabled].
    destruct (Modal.configured ctx); cbn [negb andb].
    - apply wp_tryCatch. unfold Modal.hasPreviewableAttachment.
      apply wp_bind, wp_bind, wp_call_modal. apply wp_bind, wp_await, wp_ret.
      fold col. destruct (previewable r col);
        apply wp_bind, wp_modify; apply wp_modify; repeat split.
    - apply wp_bind, wp_modify. apply wp_modify. repeat split. }
  destruct (wp_never _ _ _ Hwp) as [a [_ Ha]]. exact Ha.
Qed.

(** A disabled button ignores the click. *)
Lemma disabled_click_modal (dw : download_world) (rw : render_world) (s : Modal.state) :
  Modal.previewButton_disabled s = true ->
  Modal.step s (Modal.PreviewClick dw rw) = s.
Proof.
  intros H. unfold Modal.step, Modal.handle, Modal.onPreviewClick, bind, gets.
  now rewrite H.
Qed.

(** The inline control after [updateView], when the check says no. *)
Lemma updateView_inline_no_preview (ctx : Context) (r : record) (dw : download_world)
      (rw : render_world) (answer : Inline.worker_answer) (s : Inline.state) :
  previewable r (toString (FileColumnName ctx)) = false ->
  let s' := Inline.step s (Inline.UpdateView ctx (Returned r) dw rw answer) in
  (exists delta, history (Inline.page s') = delta ++ history (Inline.page s)
                 /\ existsb startsPreview delta = false)
  /\ Inline.currentFileUrl s' = Inline.currentFileUrl s
  /\ (forall w, Inline.zoomWrapper s = Some w ->
                Modal.configured ctx = true ->
                option_map children (Inline.zoomWrapper s')
                = Some [InfoBlock msg_no_previewable]).
Proof.
  intros Hp s'. subst s'. unfold Inline.step. simpl Inline.handle.
  set (post := fun s' : Inline.state =>
    (exists delta, history (Inline.page s') = delta ++ history (Inline.page s)
                   /\ existsb startsPreview delta = false)
    /\ Inline.currentFileUrl s' = Inline.currentFileUrl s
    /\ (forall w, Inline.zoomWrapper s = Some w ->
                  Modal.configured ctx = true ->
                  option_map children (Inline.zoomWrapper s')
                  = Some [InfoBlock msg_no_previewable])).
  assert (Hinfo : forall E text delta (s1 : Inline.state),
             history (Inline.page s1) = delta ++ history (Inline.page s) ->
             existsb startsPreview delta = false ->
             Inline.currentFileUrl s1 = Inline.currentFileUrl s ->
             (Modal.configured ctx = true -> text = msg_no_previewable) ->
             (Inline.zoomWrapper s <> None -> Inline.zoomWrapper s1 <> None) ->
             wp (Inline.setInfoMessage text) (fun _ => post) E s1).
  { intros E text delta s1 Hh Hd Hu Ht Hz. unfold wp, Inline.setInfoMessage.
    destruct (Inline.zoomWrapper s1) as [w1|] eqn:Hw1.
    - destruct (Inline.previewToolbarTitle _); (split; [|split]);
        try (exists delta; now split); try exact Hu;
        intros w Hw Hc; simpl; now rewrite (Ht Hc).
    - split; [|split]; try (exists delta; now split); try exact Hu.
      intros w Hw _. exfalso. apply Hz; [now rewrite Hw | reflexivity]. }
  assert (Hwp : wp (Inline.updateView ctx (Returned r) dw rw answer)
                   (fun _ => post) never s).
  { unfold Inline.updateView, Inline.autoLoadPreview.
    apply wp_bind, wp_modify. apply wp_bind, wp_gets.
    cbn [Inline.zoomWrapper Inline.set_context].
    destruct (Inline.zoomWrapper s) as [w|] eqn:Hw.
    - apply wp_bind, wp_gets. cbn [Inline.context Inline.set_context].
      unfold Modal.configured in Hinfo.
      destruct (truthy (entityId ctx)); cbn [negb andb] in *.
      + destruct (truthy (EntityLogicalName ctx) && truthy (FileColumnName ctx))%bool;
          cbn [negb] in *.
        * apply wp_tryCatch. unfold Inline.loadAction, Inline.hasPreviewableAttachment.
          apply wp_bind, wp_bind, wp_call_inline. apply wp_bind, wp_await, wp_ret.
          rewrite Hp. cbn [negb].
          eapply (Hinfo _ _ [_]); try reflexivity; auto.
          cbn. now rewrite Hw.
        * apply (Hinfo _ _ []); try reflexivity; try discriminate.
          cbn. now rewrite Hw.
      + apply (Hinfo _ _ []); try reflexivity; try discriminate.
        cbn. now rewrite Hw.
    - apply wp_ret. split; [|split].
      + now exists [].
      + reflexivity.
      + intros w Hw'. discriminate Hw'. }
  destruct (wp_never _ _ _ Hwp) as [a [_ Ha]]. exact Ha.
Qed.

End Attachment.

(** C9: when the file column holds a file reference and the name column is
    empty or missing, [hasPreviewableAttachment] answers true in both
    controls, without looking at any extension. *)
Theorem file_without_name_is_previewable (r : Js.record) (col : string) :
  Js.truthy (Js.get r col) = true ->
  Js.truthy (Js.get r (col ++ "_name")) = false ->
  forall entity id sm si,
    fst (Modal.hasPreviewableAttachment entity id col (Returned r) sm) = Returned true
    /\ fst (Inline.hasPreviewableAttachment entity id col (Returned r) si) = Returned true.
Proof.
  intros Hfile Hname entity id sm si.
  rewrite hasPreviewableAttachment_modal, hasPreviewableAttachment_inline.
  now rewrite (previewable_without_name r col Hfile Hname).
Qed.

Lemma file_without_name_is_previewable_witness :
  fst (Modal.hasPreviewableAttachment "account" "{8f2c}" "doc"
         (Returned [("doc", Js.Str "c0ffee"); ("doc_name", Js.Null)])
         (Modal.init sampleContext)) = Returned true
  /\ fst (Inline.hasPreviewableAttachment "account" "{8f2c}" "doc"
            (Returned [("doc", Js.Str "c0ffee"); ("doc_name", Js.Null)])
            (Inline.init sampleContext Inline.ResourceFails)) = Returned true.
Proof.
  apply (file_without_name_is_previewable
           [("doc", Js.Str "c0ffee"); ("doc_name", Js.Null)] "doc");
    reflexivity.
Defined.

(** C5: a record whose file name is [base.ext] with [ext], in lower case,
    outside the supported list: the attachment check of both controls
    answers false; the modal control leaves its preview button disabled, so
    that a click does nothing; the inline control makes no call that
    belongs to a preview (no download, no object URL, no rendering). *)
Theorem unsupported_extension_no_preview (ctx : Context) (r : Js.record)
    (base ext : string) :
  Js.get r (toString (FileColumnName ctx) ++ "_name") = Js.Str (base ++ "." ++ ext) ->
  Js.without "." ext = true ->
  Js.includes supportedExtensions (Js.toLowerCase ext) = false ->
  (forall entity id sm si,
      fst (Modal.hasPreviewableAttachment entity id (toString (FileColumnName ctx))
             (Returned r) sm) = Returned false
      /\ fst (Inline.hasPreviewableAttachment entity id (toString (FileColumnName ctx))
                (Returned r) si) = Returned false)
  /\ (forall s dw rw,
         let s' := Modal.step s (Modal.UpdateView ctx (Returned r)) in
         Modal.previewButton_disabled s' = true
         /\ Modal.step s' (Modal.PreviewClick dw rw) = s')
  /\ (forall s dw rw answer,
         let s' := Inline.step s (Inline.UpdateView ctx (Returned r) dw rw answer) in
         (exists delta, history (Inline.page s') = delta ++ history (Inline.page s)
                        /\ existsb startsPreview delta = false)
         /\ Inline.currentFileUrl s' = Inline.currentFileUrl s).
Proof.
  intros Hname Hext Hout.
  pose proof (previewable_unsupported r _ base ext Hname Hext Hout) as Hp.
  split; [|split].
  - intros entity id sm si.
    rewrite hasPreviewableAttachment_modal, hasPreviewableAttachment_inline.
    now rewrite Hp.
  - intros s dw rw s'.
    assert (Hd : Modal.previewButton_disabled s' = true).
    { destruct (updateView_modal ctx r s) as [Hd _]. fold s' in Hd.
      rewrite Hd, Hp. now rewrite andb_false_r. }
    split; [exact Hd | now apply disabled_click_modal].
  - intros s dw rw answer s'.
    destruct (updateView_inline_no_preview ctx r dw rw answer s Hp) as [H1 [H2 _]].
    now split.
Qed.

Lemma unsupported_extension_no_preview_witness :
  (forall entity id sm si,
      fst (Modal.hasPreviewableAttachment entity id "doc"
             (Returned (sampleRecord "notes.txt")) sm) = Returned false
      /\ fst (Inline.hasPreviewableAttachment entity id "doc"
                (Returned (sampleRecord "notes.txt")) si) = Returned false)
  /\ (forall s dw rw,
         let s' := Modal.step s (Modal.UpdateView sampleContext
                                   (Returned (sampleRecord "notes.txt"))) in
         Modal.previewButton_disabled s' = true
         /\ Modal.step s' (Modal.PreviewClick dw rw) = s')
  /\ (forall s dw rw answer,
         let s' := Inline.step s (Inline.UpdateView sampleContext
                                    (Returned (sampleRecord "notes.txt")) dw rw answer) in
         (exists delta, history (Inline.page s') = delta ++ history (Inline.page s)
                        /\ existsb startsPreview delta = false)
         /\ Inline.currentFileUrl s' = Inline.currentFileUrl s).
Proof.
  apply (unsupported_extension_no_preview sampleContext (sampleRecord "notes.txt")
           "notes" "txt"); reflexivity.
Defined.

(** C3, as stated: a record with a supported extension and no file content
    makes the control show a download-fallback message.  For such a record
    neither control shows any text that mentions the Download button. *)
Lemma missing_file_download_fallback_counterexample :
  let r := [("doc", Js.Null); ("doc_name", Js.Str "report.pdf")] in
  let sm := Modal.step (Modal.init sampleContext)
              (Modal.UpdateView sampleContext (Returned r)) in
  let si := Inline.step (Inline.init sampleContext (Inline.ResourceLoaded true))
              (Inline.UpdateView sampleContext (Returned r)
                 (sampleDownload "report.pdf") sampleRender (Inline.ResourceLoaded true)) in
  Js.includes supportedExtensions "pdf" = true
  /\ Js.truthy (Js.get r "doc") = false
  /\ existsb isDownloadFallback (modalMessages sm) = false
  /\ existsb isDownloadFallback (inlineMessages si) = false
  /\ modalMessages sm = [msg_no_previewable]
  /\ inlineMessages si = [msg_no_previewable].
Proof. repeat split. Qed.

(** C3, amended: for every record whose file column holds no file
    reference, whatever its file name, a configured control says
    "No previewable file in Attachment.": the modal control in its status
    label, with the preview button disabled and no modal opened; the inline
    control, once [init] has built it, in its preview area; and neither
    starts a download. *)
Theorem missing_file_reported (ctx : Context) (r : Js.record) :
  Modal.configured ctx = true ->
  Js.truthy (Js.get r (toString (FileColumnName ctx))) = false ->
  (forall s,
      let s' := Modal.step s (Modal.UpdateView ctx (Returned r)) in
      Modal.fileLabel s' = msg_no_previewable
      /\ Modal.previewButton_disabled s' = true
      /\ Modal.modal s' = Modal.modal s
      /\ (exists delta, history (Modal.page s') = delta ++ history (Modal.page s)
                        /\ existsb startsPreview delta = false))
  /\ (forall s w dw rw answer,
         Inline.zoomWrapper s = Some w ->
         let s' := Inline.step s (Inline.UpdateView ctx (Returned r) dw rw answer) in
         option_map children (Inline.zoomWrapper s') = Some [InfoBlock msg_no_previewable]
         /\ (exists delta, history (Inline.page s') = delta ++ history (Inline.page s)
                           /\ existsb startsPreview delta = false)).
Proof.
  intros Hc Hfile.
  pose proof (previewable_without_file r _ Hfile) as Hp.
  split.
  - intros s s'. destruct (updateView_modal ctx r s) as (H1 & H2 & H3 & H4).
    fold s' in H1, H2, H3, H4. rewrite Hc, Hp in *. simpl in *.
    repeat split; auto. eexists [_]. split; [exact H3 | reflexivity].
  - intros s w dw rw answer Hw s'.
    destruct (updateView_inline_no_preview ctx r dw rw answer s Hp) as (H1 & _ & H3).
    split; [now apply (H3 w) | exact H1].
Qed.

Lemma missing_file_reported_witness :
  let r := [("doc", Js.Null); ("doc_name", Js.Str "report.pdf")] in
  (forall s,
      let s' := Modal.step s (Modal.UpdateView sampleContext (Returned r)) in
      Modal.fileLabel s' = msg_no_previewable
      /\ Modal.previewButton_disabled s' = true
      /\ Modal.modal s' = Modal.modal s
      /\ (exists delta, history (Modal.page s') = delta ++ history (Modal.page s)
                        /\ existsb startsPreview delta = false))
  /\ (forall s w dw rw answer,
         Inline.zoomWrapper s = Some w ->
         let s' := Inline.step s (Inline.UpdateView sampleContext (Returned r) dw rw answer) in
         option_map children (Inline.zoomWrapper s') = Some [InfoBlock msg_no_previewable]
         /\ (exists delta, history (Inline.page s') = delta ++ history (Inline.page s)
                           /\ existsb startsPreview delta = false)).
Proof.
  apply (missing_file_reported sampleContext
           [("doc", Js.Null); ("doc_name", Js.Str "report.pdf")]); reflexivity.
Defined.

(** ** Errors of the preview action: nothing leaves the handlers *)

(** The handlers of the preview action return whatever the outside world
    answers.  Which errors reach their [catch], and what the user is shown
    for the others, is settled with the runs of the handlers, under
    "Errors of the preview action, by where they are thrown" (C6). *)

Section PreviewErrors.




Lemma setInfoMessage_returns (text : string) (s : Inline.state) :
  fst (Inline.setInfoMessage text s) = Returned tt.
Proof. unfold Inline.setInfoMessage. now destruct (Inline.zoomWrapper s). Qed.


Example forbidden_download_modal :
  let s := Modal.step (Modal.init sampleContext)
             (Modal.UpdateView sampleContext (Returned (sampleRecord "a.pdf"))) in
  let dw := {| retrieved := Returned (sampleRecord "a.pdf");
               response := Response 403 (Returned "") |} in
  alerts (history (Modal.page (Modal.step s (Modal.PreviewClick dw sampleRender))))
  = [msg_permission].
Proof. reflexivity. Qed.

Example failed_download_modal :
  let s := Modal.step (Modal.init sampleContext)
             (Modal.UpdateView sampleContext (Returned (sampleRecord "a.pdf"))) in
  let dw := {| retrieved := Returned (sampleRecord "a.pdf");
               response := Response 500 (Returned "") |} in
  alerts (history (Modal.page (Modal.step s (Modal.PreviewClick dw sampleRender))))
  = [msg_generic].
Proof. reflexivity. Qed.

End PreviewErrors.

(** ** The rendering dispatcher (C4, C7, C8) *)

Section Dispatcher.

Lemma map_fst_combine {A B} (l : list A) (l' : list B) :
  length l = length l' -> map fst (combine l l') = l.
Proof.
  revert l'. induction l as [|a l IH]; intros [|b l'] H; simpl in *;
    try reflexivity; try discriminate.
  f_equal. apply IH. now injection H.
Qed.

Lemma map_snd_combine {A B} (l : list A) (l' : list B) :
  length l = length l' -> map snd (combine l l') = l'.
Proof.
  revert l'. induction l as [|a l IH]; intros [|b l'] H; simpl in *;
    try reflexivity; try discriminate.
  f_equal. apply IH. now injection H.
Qed.

Lemma harmless_ret {T} : harmless (ret tt : M (surface T) unit).
Proof. intros s. repeat split. Qed.

Lemma harmless_awaitWorker (answer : Inline.worker_answer) :
  harmless (Inline.awaitWorker answer).
Proof.
  intros [a b ws]. unfold Inline.awaitWorker, bind, focus, Inline.ensurePdfWorkerUrl.
  simpl. destruct (Inline.pdfWorkerUrlPromise ws); [repeat split|].
  destruct answer as [[]|]; repeat split.
Qed.

Lemma renderFilePreview_modal (f : file) (w : render_world) (s : Modal.state)
      (m : Modal.modal_dom) :
  Modal.modal s = Some m ->
  Modal.renderFilePreview f w s
  = (fst (renderSections (ret tt) f w (Modal.toSurface m s)),
     Modal.ofSurface m (snd (renderSections (ret tt) f w (Modal.toSurface m s))) s).
Proof.
  intros Hm. unfold Modal.renderFilePreview, focus. rewrite Hm.
  now destruct (renderSections (ret tt) f w (Modal.toSurface m s)).
Qed.

Lemma renderFilePreview_inline (f : file) (w : render_world)
      (answer : Inline.worker_answer) (s : Inline.state) (z : wrapper_dom) :
  Inline.zoomWrapper s = Some z ->
  Inline.renderFilePreview f w answer s
  = (fst (renderSections (Inline.awaitWorker answer) f w (Inline.toSurface z s)),
     Inline.ofSurface
       (snd (renderSections (Inline.awaitWorker answer) f w (Inline.toSurface z s))) s).
Proof.
  intros Hz. unfold Inline.renderFilePreview, focus. rewrite Hz.
  now destruct (renderSections (Inline.awaitWorker answer) f w (Inline.toSurface z s)).
Qed.

(** The five tests in the order of the code. *)
Lemma dispatch_tests (f : file) :
  dispatch f
  = if pdfTest f then PdfBranch
    else if imageTest f then ImageBranch
    else if docxTest f then DocxBranch
    else if docTest f then LegacyDocBranch
    else FallbackBranch.
Proof. reflexivity. Qed.

(** Every section but the DOCX one returns, and each leaves its own
    output in the wrapper. *)
Lemma renderSections_output {T} (prepare : M (surface T) unit) (f : file)
      (w : render_world) (s : surface T) :
  harmless prepare ->
  (dispatch f <> DocxBranch ->
   fst (renderSections prepare f w s) = Returned tt)
  /\ sectionOutput (dispatch f) f w (nextCanvas (env s))
       (children (area (snd (renderSections prepare f w s)))).
Proof.
  intros Hp. destruct (dispatch f) eqn:Hd; unfold sectionOutput.
  - assert (Hcases :
      match pdf w with
      | DocumentRejects _ => True
      | Document n page => allPagesRender page n = false
      end \/ exists n page, pdf w = Document n page /\ allPagesRender page n = true).
    { destruct (pdf w) as [e|n page]; [now left|].
      destruct (allPagesRender page n) eqn:Ha; [right; now exists n, page | now left]. }
    destruct Hcases as [Hfail|(n & page & Hw & Ha)].
    + destruct (wp_never _ _ _ (renderSections_pdf_failed prepare f w s Hp Hd Hfail))
        as [[] [Hr Hc]].
      split; [intros _; exact Hr|].
      destruct (pdf w) as [e|n page]; [exact Hc | now rewrite Hfail].
    + destruct (wp_never _ _ _ (renderSections_pdf_ok prepare f w s n page Hp Hd Hw Ha))
        as [[] [Hr [Hc _]]].
      split; [intros _; exact Hr|]. now rewrite Hw, Ha.
  - destruct (wp_never _ _ _ (renderSections_image prepare f w s Hd)) as [[] [Hr Hc]].
    split; [intros _; exact Hr | exact Hc].
  - split; [intros H; now elim H|]. now apply renderSections_docx.
  - destruct (wp_never _ _ _ (renderSections_legacy prepare f w s Hd)) as [[] [Hr Hc]].
    split; [intros _; exact Hr | exact Hc].
  - destruct (wp_never _ _ _ (renderSections_fallback prepare f w s Hd)) as [[] [Hr Hc]].
    split; [intros _; exact Hr | exact Hc].
Qed.

End Dispatcher.

(** C7, as stated: the dispatcher selects one of four branches (PDF, DOCX,
    image, fallback).  A legacy Word file goes to a fifth section, which
    shows its own notice with an "Open document" button and not the
    fallback text. *)
Lemma four_branches_counterexample :
  let f := {| blob := "bytes"; fileName := "old.doc"; mimeType := mime_doc |} in
  dispatch f = LegacyDocBranch
  /\ ~ In (dispatch f) [PdfBranch; DocxBranch; ImageBranch; FallbackBranch]
  /\ (forall w s,
        children (area (snd (renderSections (ret tt) f w (s : surface unit))))
        = [LegacyDocCard msg_legacy_doc "Open document"])
  /\ ~ (forall f', In (dispatch f') [PdfBranch; DocxBranch; ImageBranch; FallbackBranch]).
Proof.
  intros f.
  assert (Hn : ~ In (dispatch f) [PdfBranch; DocxBranch; ImageBranch; FallbackBranch]).
  { simpl. intros [H|[H|[H|[H|[]]]]]; discriminate H. }
  split; [reflexivity|]. split; [exact Hn|]. split.
  - intros w s.
    exact (proj2 (renderSections_output (ret tt) f w s harmless_ret)).
  - intros H. exact (Hn (H f)).
Qed.

(** C7, amended: the dispatcher selects exactly one of five sections (PDF,
    image, DOCX, legacy .doc, fallback): each file goes to the first
    section whose test it passes, in this order, and to the fallback when
    it passes none; and the wrapper then holds the output of that section
    alone, in both controls. *)
Theorem dispatch_five_sections (f : file) :
  (dispatch f = PdfBranch <-> pdfTest f = true)
  /\ (dispatch f = ImageBranch <-> pdfTest f = false /\ imageTest f = true)
  /\ (dispatch f = DocxBranch
      <-> pdfTest f = false /\ imageTest f = false /\ docxTest f = true)
  /\ (dispatch f = LegacyDocBranch
      <-> pdfTest f = false /\ imageTest f = false /\ docxTest f = false
          /\ docTest f = true)
  /\ (dispatch f = FallbackBranch
      <-> pdfTest f = false /\ imageTest f = false /\ docxTest f = false
          /\ docTest f = false)
  /\ (forall w s m,
         Modal.modal s = Some m ->
         exists m', Modal.modal (snd (Modal.renderFilePreview f w s)) = Some m'
                    /\ sectionOutput (dispatch f) f w (nextCanvas (Modal.page s))
                         (children (Modal.body m')))
  /\ (forall w answer s z,
         Inline.zoomWrapper s = Some z ->
         exists z', Inline.zoomWrapper (snd (Inline.renderFilePreview f w answer s)) = Some z'
                    /\ sectionOutput (dispatch f) f w (nextCanvas (Inline.page s))
                         (children z')).
Proof.
  assert (Htests :
    (dispatch f = PdfBranch <-> pdfTest f = true)
    /\ (dispatch f = ImageBranch <-> pdfTest f = false /\ imageTest f = true)
    /\ (dispatch f = DocxBranch
        <-> pdfTest f = false /\ imageTest f = false /\ docxTest f = true)
    /\ (dispatch f = LegacyDocBranch
        <-> pdfTest f = false /\ imageTest f = false /\ docxTest f = false
            /\ docTest f = true)
    /\ (dispatch f = FallbackBranch
        <-> pdfTest f = false /\ imageTest f = false /\ docxTest f = false
            /\ docTest f = false)).
  { rewrite dispatch_tests.
    destruct (pdfTest f), (imageTest f), (docxTest f), (docTest f);
      repeat match goal with
             | |- _ /\ _ => split
             | |- _ <-> _ => split; intros H
             end;
      first [reflexivity | discriminate H | intuition congruence]. }
  destruct Htests as (H1 & H2 & H3 & H4 & H5).
  refine (conj H1 (conj H2 (conj H3 (conj H4 (conj H5 (conj _ _)))))).
  - intros w s m Hm. rewrite (renderFilePreview_modal f w s m Hm). simpl.
    eexists. split; [reflexivity|]. simpl.
    exact (proj2 (renderSections_output (ret tt) f w (Modal.toSurface m s) harmless_ret)).
  - intros w answer s z Hz. rewrite (renderFilePreview_inline f w answer s z Hz). simpl.
    eexists. split; [reflexivity|].
    exact (proj2 (renderSections_output (Inline.awaitWorker answer) f w
                    (Inline.toSurface z s) (harmless_awaitWorker answer))).
Qed.

Lemma dispatch_five_sections_witness :
  dispatch {| blob := "bytes"; fileName := "old.doc"; mimeType := mime_doc |}
  = LegacyDocBranch.
Proof.
  apply (proj1 (proj2 (proj2 (proj2
           (dispatch_five_sections
              {| blob := "bytes"; fileName := "old.doc"; mimeType := mime_doc |}))))).
  repeat split.
Defined.

(** C8: when the document opens with [numPages] pages and every page loads
    and draws, the PDF section of both controls returns after drawing page
    1, 2, ..., [numPages], in this order and once each, every page on a
    canvas created for it, and the wrapper holds one card per canvas in
    the same order. *)
Theorem pdf_pages_rendered_in_order (f : file) (w : render_world) (numPages : nat)
    (page : nat -> page_answer) :
  dispatch f = PdfBranch ->
  pdf w = Document numPages page ->
  allPagesRender page numPages = true ->
  (forall s m,
      Modal.modal s = Some m ->
      let r := Modal.renderFilePreview f w s in
      let canvases := seq (nextCanvas (Modal.page s)) numPages in
      fst r = Returned tt
      /\ option_map (fun m' => children (Modal.body m')) (Modal.modal (snd r))
         = Some (map PageCard canvases)
      /\ renderCalls (history (Modal.page (snd r)))
         = renderCalls (history (Modal.page s)) ++ combine (seq 1 numPages) canvases)
  /\ (forall s z answer,
         Inline.zoomWrapper s = Some z ->
         let r := Inline.renderFilePreview f w answer s in
         let canvases := seq (nextCanvas (Inline.page s)) numPages in
         fst r = Returned tt
         /\ option_map children (Inline.zoomWrapper (snd r)) = Some (map PageCard canvases)
         /\ renderCalls (history (Inline.page (snd r)))
            = renderCalls (history (Inline.page s)) ++ combine (seq 1 numPages) canvases)
  /\ (forall first,
         map fst (combine (seq 1 numPages) (seq first numPages)) = seq 1 numPages
         /\ map snd (combine (seq 1 numPages) (seq first numPages)) = seq first numPages
         /\ NoDup (seq first numPages)).
Proof.
  intros Hd Hw Ha. split; [|split].
  - intros s m Hm r canvases. subst r canvases.
    rewrite (renderFilePreview_modal f w s m Hm).
    destruct (wp_never _ _ _
                (renderSections_pdf_ok (ret tt) f w (Modal.toSurface m s) numPages page
                   harmless_ret Hd Hw Ha)) as [[] [Hr [Hc [Hcalls _]]]].
    simpl in *. now rewrite Hr, Hc, Hcalls.
  - intros s z answer Hz r canvases. subst r canvases.
    rewrite (renderFilePreview_inline f w answer s z Hz).
    destruct (wp_never _ _ _
                (renderSections_pdf_ok (Inline.awaitWorker answer) f w
                   (Inline.toSurface z s) numPages page
                   (harmless_awaitWorker answer) Hd Hw Ha)) as [[] [Hr [Hc [Hcalls _]]]].
    simpl in *. now rewrite Hr, Hc, Hcalls.
  - intros first. split; [|split].
    + apply map_fst_combine. now rewrite !length_seq.
    + apply map_snd_combine. now rewrite !length_seq.
    + apply seq_NoDup.
Qed.

Lemma pdf_pages_rendered_in_order_witness :
  let f := {| blob := "bytes"; fileName := "a.pdf"; mimeType := mime_pdf |} in
  let s := snd (Modal.openModal (Modal.init sampleContext)) in
  let r := Modal.renderFilePreview f sampleRender s in
  let canvases := seq (nextCanvas (Modal.page s)) 3 in
  fst r = Returned tt
  /\ option_map (fun m' => children (Modal.body m')) (Modal.modal (snd r))
     = Some (map PageCard canvases)
  /\ renderCalls (history (Modal.page (snd r)))
     = renderCalls (history (Modal.page s)) ++ combine (seq 1 3) canvases.
Proof.
  intros f s.
  apply (proj1 (pdf_pages_rendered_in_order f sampleRender 3 (fun _ => PageRenders)
                  eq_refl eq_refl eq_refl) s
           {| Modal.title := "Document preview"; Modal.downloadButton := true;
              Modal.body := {| children := []; transform := Some Num.one |} |}).
  reflexivity.
Defined.

(** C4 fails on the code for a .docx file: [renderAsync] is awaited outside
    any [try], so its rejection leaves [renderFilePreview]; the preview
    action then reports the generic failure, and no text points to the
    Download button.  The PDF and the image sections do show their
    "Could not render" message. *)
Theorem docx_failure_escapes :
  let f := {| blob := "bytes"; fileName := "broken.docx"; mimeType := mime_docx |} in
  let opened := Modal.run (Modal.init sampleContext)
                  [Modal.UpdateView sampleContext (Returned (sampleRecord "ok.docx"));
                   Modal.PreviewClick (sampleDownload "ok.docx") sampleRender] in
  let enabled := Modal.step (Modal.init sampleContext)
                   (Modal.UpdateView sampleContext (Returned (sampleRecord "broken.docx"))) in
  let clicked := Modal.step enabled
                   (Modal.PreviewClick (sampleDownload "broken.docx") brokenDocx) in
  let loaded := Inline.step (Inline.init sampleContext (Inline.ResourceLoaded true))
                  (Inline.UpdateView sampleContext (Returned (sampleRecord "broken.docx"))
                     (sampleDownload "broken.docx") brokenDocx (Inline.ResourceLoaded true)) in
  dispatch f = DocxBranch
  /\ fst (Modal.renderFilePreview f brokenDocx opened) = Thrown plainError
  /\ fst (Inline.renderFilePreview f brokenDocx (Inline.ResourceLoaded true)
            (Inline.init sampleContext (Inline.ResourceLoaded true))) = Thrown plainError
  /\ modalMessages clicked = [""; msg_generic]
  /\ option_map (fun m => children (Modal.body m)) (Modal.modal clicked) = Some [WordCard]
  /\ inlineMessages loaded = [msg_generic]
  /\ existsb isDownloadFallback (modalMessages clicked) = false
  /\ existsb isDownloadFallback (inlineMessages loaded) = false
  /\ (forall (prepare : M (surface unit) unit) f' w s e,
        dispatch f' = DocxBranch -> docx w = Thrown e ->
        fst (renderSections prepare f' w s) = Thrown e)
  /\ isDownloadFallback msg_pdf_failed = true
  /\ isDownloadFallback msg_image_failed = true.
Proof.
  intros f opened enabled clicked loaded.
  repeat match goal with |- _ /\ _ => split end; try reflexivity.
  intros prepare f' w s e Hd He.
  rewrite (proj1 (renderSections_docx prepare f' w s Hd)). exact He.
Qed.

(** ** The MIME type of a download (C10) *)

(** C10: the MIME type [downloadFile] returns is computed from the file
    name alone, through its lower-case form: it is the type of the known
    suffix the name ends with, and [application/octet-stream] when it ends
    with none; so it is always one of seven values, each of which occurs. *)
Theorem downloadFile_mimeType :
  (forall entity id col r code bytes sm si,
      responseOk code = true ->
      let w := {| retrieved := Returned r; response := Response code (Returned bytes) |} in
      let f := {| blob := bytes;
                  fileName := downloadedName r col;
                  mimeType := mimeTypeOf (downloadedName r col) |} in
      fst (Modal.downloadFile entity id col w sm) = Returned f
      /\ fst (Inline.downloadFile entity id col w si) = Returned f)
  /\ (forall name, In (mimeTypeOf name) knownMimeTypes)
  /\ length knownMimeTypes = 7%nat
  /\ NoDup knownMimeTypes
  /\ (forall t, In t knownMimeTypes -> exists name, mimeTypeOf name = t)
  /\ (forall name suffix t,
         In (suffix, t) suffixTable ->
         Js.endsWith (Js.toLowerCase name) suffix = true ->
         mimeTypeOf name = t)
  /\ (forall name,
         (forall suffix t, In (suffix, t) suffixTable ->
                           Js.endsWith (Js.toLowerCase name) suffix = false) ->
         mimeTypeOf name = mime_octet)
  /\ (forall a b, Js.toLowerCase a = Js.toLowerCase b -> mimeTypeOf a = mimeTypeOf b).
Proof.
  split; [|split; [|split; [|split; [|split; [|split; [|split]]]]]].
  - intros entity id col r code bytes sm si Hok w f.
    unfold Modal.downloadFile, Inline.downloadFile, bind, await, gets, modify, ret,
      Modal.call, Inline.call. simpl. rewrite Hok. simpl. split; reflexivity.
  - exact mimeTypeOf_known.
  - reflexivity.
  - unfold knownMimeTypes.
    repeat (constructor; [simpl; intuition discriminate|]). constructor.
  - exact knownMimeTypes_attained.
  - exact mimeTypeOf_suffix.
  - exact mimeTypeOf_no_suffix.
  - exact mimeTypeOf_case.
Qed.

Lemma downloadFile_mimeType_witness :
  fst (Modal.downloadFile "account" "{8f2c}" "doc" (sampleDownload "Photo.JPEG")
         (Modal.init sampleContext))
  = Returned {| blob := "bytes"; fileName := "Photo.JPEG"; mimeType := mime_jpeg |}
  /\ mimeTypeOf "Photo.JPEG" = mime_jpeg.
Proof.
  split.
  - apply (proj1 downloadFile_mimeType "account" "{8f2c}" "doc"
             (sampleRecord "Photo.JPEG") 200 "bytes" (Modal.init sampleContext)
             (Inline.init sampleContext Inline.ResourceFails) eq_refl).
  - apply (proj1 (proj2 (proj2 (proj2 (proj2 (proj2 downloadFile_mimeType)))))
             "Photo.JPEG" ".jpeg" mime_jpeg); [simpl; tauto | reflexivity].
Defined.

(* ===================================================================== *)
(** * Further properties of the code *)
(* ===================================================================== *)

(** ** Strings: the last dot, braces, white space *)

Section MoreStrings.
Import Js JsFacts.

Lemma toLowerCase_app (a b : string) :
  toLowerCase (a ++ b) = (toLowerCase a ++ toLowerCase b)%string.
Proof. induction a as [|c r IH]; simpl; congruence. Qed.

Lemma lastIndexOf_negative (c : ascii) (s : string) :
  lastIndexOf c s < 0 -> without c s = true.
Proof.
  induction s as [|a r IH]; simpl; [reflexivity|].
  destruct (0 <=? lastIndexOf c r) eqn:E.
  - apply Z.leb_le in E. lia.
  - apply Z.leb_gt in E. destruct (Ascii.eqb a c); [lia|]. intros _. now rewrite IH.
Qed.

(** A string splits at the last occurrence of [c]. *)
Lemma lastIndexOf_split (c : ascii) (s : string) :
  0 <= lastIndexOf c s ->
  exists base ext,
    s = (base ++ String c ext)%string
    /\ jslength base = lastIndexOf c s
    /\ without c ext = true.
Proof.
  unfold jslength. induction s as [|a r IH]; simpl; [lia|].
  destruct (0 <=? lastIndexOf c r) eqn:E.
  - apply Z.leb_le in E. intros _.
    destruct (IH E) as (base & ext & Hs & Hl & Hw).
    exists (String a base), ext. simpl. repeat split; [now rewrite Hs | lia | exact Hw].
  - apply Z.leb_gt in E. destruct (Ascii.eqb_spec a c) as [->|Hne]; [|lia].
    intros _. exists EmptyString, r. repeat split. now apply lastIndexOf_negative.
Qed.










Lemma startsWithSpace_false (s : string) :
  startsWithSpace s = false -> forall w, In w whiteSpace -> startsWith s w = false.
Proof.
  unfold startsWithSpace. intros H w Hw. destruct (startsWith s w) eqn:E; [|reflexivity].
  assert (existsb (startsWith s) whiteSpace = true)
    by (apply existsb_exists; now exists w).
  congruence.
Qed.













End MoreStrings.

Section MoreAttachment.
Import Js JsFacts.

Lemma endsWith_app_longer (p x y : string) :
  (String.length y <= String.length x)%nat ->
  endsWith (p ++ x) y = endsWith x y.
Proof.
  intros H. unfold endsWith. rewrite length_app.
  replace (String.length p + String.length x - String.length y)%nat
    with (String.length p + (String.length x - String.length y))%nat by lia.
  rewrite drop_app_more.
  replace (Nat.leb (String.length y) (String.length p + String.length x)) with true
    by (symmetry; apply Nat.leb_le; lia).
  replace (Nat.leb (String.length y) (String.length x)) with true
    by (symmetry; apply Nat.leb_le; lia).
  reflexivity.
Qed.

Lemma endsWith_app_decide (p x y : string) :
  endsWith (p ++ x) y = true ->
  (if Nat.leb (String.length y) (String.length x) then endsWith x y else endsWith y x)
  = true.
Proof.
  intros H. destruct (Nat.leb (String.length y) (String.length x)) eqn:E.
  - apply Nat.leb_le in E. now rewrite endsWith_app_longer in H.
  - apply Nat.leb_gt in E.
    apply (endsWith_nested (p ++ x) y x H (endsWith_app p x)). lia.
Qed.

(** Settles the first suffix test of the goal on a string of known end. *)
Ltac suffix_test :=
  match goal with
  | |- context [endsWith (?p ++ ?x) ?y] =>
      first
        [ rewrite (endsWith_app p x); cbv iota
        | let E := fresh in
          destruct (endsWith (p ++ x) y) eqn:E;
          [apply endsWith_app_decide in E; cbv in E; discriminate E|] ]
  end.

(** What a record that passes the check with a file name looks like. *)
Lemma previewable_named (r : record) (col : string) :
  previewable r col = true ->
  truthy (get r (col ++ "_name")) = true ->
  exists base ext,
    get r (col ++ "_name") = Str (base ++ "." ++ ext)
    /\ base <> EmptyString
    /\ ext <> EmptyString
    /\ without "." ext = true
    /\ In (toLowerCase ext) supportedExtensions.
Proof.
  unfold previewable. destruct (truthy (get r col)); [|discriminate].
  cbn [negb]. intros H Ht.
  destruct (get r (col ++ "_name")) as [| |[|c n]] eqn:Hn; try discriminate Ht.
  cbn [or_default] in H.
  change (String.eqb (String c n) "") with false in H. cbv iota in H.
  set (name := String c n) in *.
  destruct (lastIndexOf "." name <=? 0) eqn:E0; [discriminate H|].
  destruct (lastIndexOf "." name =? jslength name - 1) eqn:E1; [discriminate H|].
  cbn [orb] in H. apply Z.leb_gt in E0. apply Z.eqb_neq in E1.
  destruct (lastIndexOf_split "." name) as (base & ext & Hs & Hl & Hw); [lia|].
  exists base, ext.
  assert (Hext : substring_from (lastIndexOf "." name + 1) name = ext).
  { unfold substring_from. rewrite <- Hl, Hs. unfold jslength.
    replace (Z.to_nat (Z.of_nat (String.length base) + 1))
      with (String.length base + 1)%nat by lia.
    now rewrite drop_app_more. }
  rewrite Hext in H. apply includes_In in H.
  repeat split; try assumption.
  - now rewrite Hs.
  - intros ->. change (jslength "") with 0 in Hl. lia.
  - intros ->. apply E1. rewrite <- Hl, Hs. unfold jslength.
    rewrite length_app. simpl. lia.
Qed.

Lemma previewable_of_name (r : record) (col base ext : string) :
  truthy (get r col) = true ->
  get r (col ++ "_name") = Str (base ++ "." ++ ext) ->
  base <> EmptyString ->
  ext <> EmptyString ->
  without "." ext = true ->
  In (toLowerCase ext) supportedExtensions ->
  previewable r col = true.
Proof.
  intros Hf Hn Hb He Hw Hin.
  unfold previewable. rewrite Hf, Hn. cbn [negb].
  assert (Hor : or_default (Str (base ++ "." ++ ext)) "" = (base ++ "." ++ ext)%string)
    by (destruct base; reflexivity).
  rewrite Hor.
  assert (Hne : String.eqb (base ++ "." ++ ext) "" = false)
    by (destruct base; reflexivity).
  rewrite Hne.
  change (base ++ "." ++ ext)%string with (base ++ String "." ext)%string.
  rewrite (lastIndexOf_app "." base ext Hw).
  assert (E0 : (jslength base <=? 0) = false).
  { apply Z.leb_gt. unfold jslength. destruct base; [now elim Hb | simpl; lia]. }
  assert (E1 : (jslength base =? jslength (base ++ String "." ext) - 1) = false).
  { apply Z.eqb_neq. unfold jslength. rewrite length_app.
    destruct ext; [now elim He | simpl; lia]. }
  rewrite E0, E1. cbn [orb].
  unfold substring_from, jslength.
  replace (Z.to_nat (Z.of_nat (String.length base) + 1))
    with (String.length base + 1)%nat by lia.
  rewrite drop_app_more. simpl drop.
  now apply includes_In.
Qed.

(** The section of a downloaded file: its MIME type comes from its name,
    so the name alone decides. *)
Lemma dispatch_downloaded (bytes name : string) :
  dispatch {| blob := bytes; fileName := name; mimeType := mimeTypeOf name |}
  = sectionOfName name.
Proof.
  unfold dispatch, sectionOfName, mimeTypeOf. cbn [fileName mimeType].
  destruct (endsWith (toLowerCase name) ".pdf"); [reflexivity|].
  destruct (endsWith (toLowerCase name) ".docx"); [reflexivity|].
  destruct (endsWith (toLowerCase name) ".doc"); [reflexivity|].
  destruct (endsWith (toLowerCase name) ".png"); [reflexivity|].
  destruct (endsWith (toLowerCase name) ".jpg"); [reflexivity|].
  destruct (endsWith (toLowerCase name) ".jpeg"); [reflexivity|].
  destruct (endsWith (toLowerCase name) ".gif"); reflexivity.
Qed.

Lemma sectionOfName_extension (base ext : string) :
  In (toLowerCase ext) supportedExtensions ->
  sectionOfName (base ++ "." ++ ext) = branchOfExtension (toLowerCase ext).
Proof.
  intros Hin. unfold sectionOfName.
  rewrite toLowerCase_app. change (toLowerCase ("." ++ ext)) with (String "." (toLowerCase ext)).
  simpl in Hin.
  repeat (destruct Hin as [<-|Hin]; [repeat suffix_test; reflexivity|]).
  destruct Hin.
Qed.

Lemma branchOfExtension_supported (ext : string) :
  In ext supportedExtensions -> branchOfExtension ext <> FallbackBranch.
Proof.
  simpl. intros H.
  repeat (destruct H as [<-|H]; [discriminate|]). destruct H.
Qed.

End MoreAttachment.

(** X1: [hasPreviewableAttachment] answers true exactly when the file
    column holds a file reference and either the name column is empty or
    missing, or the file name is [base.ext] with a non-empty [base], a
    non-empty extension after the last dot, and that extension, in lower
    case, in the supported list.  So ".pdf", "report." and "report" are
    refused, and "Report.PDF" is accepted. *)
Theorem previewable_exactly (r : Js.record) (col : string) :
  previewable r col = true
  <-> Js.truthy (Js.get r col) = true
      /\ (Js.truthy (Js.get r (col ++ "_name")) = false
          \/ exists base ext,
               Js.get r (col ++ "_name") = Js.Str (base ++ "." ++ ext)
               /\ base <> EmptyString
               /\ ext <> EmptyString
               /\ Js.without "." ext = true
               /\ In (Js.toLowerCase ext) supportedExtensions).
Proof.
  split.
  - intros H.
    assert (Hf : Js.truthy (Js.get r col) = true).
    { unfold previewable in H. destruct (Js.truthy (Js.get r col)); [reflexivity|].
      discriminate H. }
    split; [exact Hf|].
    destruct (Js.truthy (Js.get r (col ++ "_name"))) eqn:Ht; [right | now left].
    now apply previewable_named.
  - intros [Hf [Hn|(base & ext & Hn & Hb & He & Hw & Hin)]].
    + now apply previewable_without_name.
    + now apply (previewable_of_name r col base ext).
Qed.

(** X3: the section that renders a downloaded file is decided by its name
    alone, since [downloadFile] derives the MIME type from the name: PDF
    for a name that ends in .pdf, Word for .docx, the legacy notice for
    .doc, image for .png, .jpg, .jpeg and .gif, all in any letter case,
    and the fallback notice for every other name. *)
Theorem downloaded_file_section (bytes name : string) :
  dispatch {| blob := bytes; fileName := name; mimeType := mimeTypeOf name |}
  = sectionOfName name
  /\ (sectionOfName name = FallbackBranch <-> mimeTypeOf name = mime_octet).
Proof.
  split; [apply dispatch_downloaded|].
  unfold sectionOfName, mimeTypeOf.
  destruct (Js.endsWith (Js.toLowerCase name) ".pdf"); [split; discriminate|].
  destruct (Js.endsWith (Js.toLowerCase name) ".docx"); [split; discriminate|].
  destruct (Js.endsWith (Js.toLowerCase name) ".doc"); [split; discriminate|].
  destruct (Js.endsWith (Js.toLowerCase name) ".png"); [split; discriminate|].
  destruct (Js.endsWith (Js.toLowerCase name) ".jpg"); [split; discriminate|].
  destruct (Js.endsWith (Js.toLowerCase name) ".jpeg"); [split; discriminate|].
  destruct (Js.endsWith (Js.toLowerCase name) ".gif"); [split; discriminate|].
  split; reflexivity.
Qed.

(** X4: the attachment check and the rendering agree.  For a record that
    passes [hasPreviewableAttachment], the file that [downloadFile] then
    builds goes, when the record has a file name, to the section of the
    name's extension and never to the fallback notice; and when the record
    has no file name, the file is called "document", has the type
    application/octet-stream, and goes to the fallback notice. *)
Theorem previewable_file_section (r : Js.record) (col bytes : string) :
  previewable r col = true ->
  let name := downloadedName r col in
  let f := {| blob := bytes; fileName := name; mimeType := mimeTypeOf name |} in
  (Js.truthy (Js.get r (col ++ "_name")) = false ->
   name = "document"%string /\ mimeType f = mime_octet /\ dispatch f = FallbackBranch)
  /\ (Js.truthy (Js.get r (col ++ "_name")) = true ->
      exists base ext,
        name = (base ++ "." ++ ext)%string
        /\ In (Js.toLowerCase ext) supportedExtensions
        /\ dispatch f = branchOfExtension (Js.toLowerCase ext)
        /\ dispatch f <> FallbackBranch).
Proof.
  intros H name f. split.
  - intros Ht.
    assert (Hname : name = "document"%string).
    { unfold name, downloadedName.
      destruct (Js.get r (col ++ "_name")) as [| |[|c n]]; try reflexivity.
      discriminate Ht. }
    unfold f. rewrite Hname. repeat split.
  - intros Ht.
    destruct (previewable_named r col H Ht) as (base & ext & Hn & Hb & He & Hw & Hin).
    exists base, ext.
    assert (Hname : name = (base ++ "." ++ ext)%string).
    { unfold name, downloadedName. rewrite Hn.
      destruct base; [now elim Hb | reflexivity]. }
    assert (Hd : dispatch f = branchOfExtension (Js.toLowerCase ext)).
    { unfold f. rewrite dispatch_downloaded, Hname.
      now apply sectionOfName_extension. }
    repeat split; try assumption.
    rewrite Hd. now apply branchOfExtension_supported.
Qed.

Lemma previewable_file_section_witness :
  dispatch {| blob := "bytes"; fileName := downloadedName (sampleRecord "Scan.JPEG") "doc";
              mimeType := mimeTypeOf (downloadedName (sampleRecord "Scan.JPEG") "doc") |}
  <> FallbackBranch.
Proof.
  destruct (proj2 (previewable_file_section (sampleRecord "Scan.JPEG") "doc" "bytes"
                     eq_refl) eq_refl)
    as (base & ext & _ & _ & _ & H).
  exact H.
Defined.



(** X5: [applyZoom] leaves a zoom factor that is already in [[0.5, 3]] as
    it is, and clamping twice is clamping once, for every number (NaN
    included). *)
Theorem clampZoom_idempotent (z : Num.number) :
  (Num.inZoomRange z = true -> Num.clampZoom z = z)
  /\ Num.clampZoom (Num.clampZoom z) = Num.clampZoom z.
Proof.
  assert (Hfix : forall x, Num.inZoomRange x = true -> Num.clampZoom x = x).
  { intros x H. unfold Num.inZoomRange in H. apply andb_true_iff in H as [Hlo Hhi].
    unfold Num.clampZoom.
    assert (Hmax : Num.max x Num.half = x).
    { unfold Num.le, SFleb in Hlo.
      destruct (SFcompare Num.half x) as [c|] eqn:Ec; [|discriminate Hlo].
      apply NumFacts.compare_antisym in Ec.
      unfold Num.max. rewrite Ec.
      destruct c; try discriminate Hlo; cbn [CompOpp]; [|reflexivity].
      destruct x as [[|]| | |]; try reflexivity; discriminate Ec. }
    rewrite Hmax.
    unfold Num.le, SFleb in Hhi.
    destruct (SFcompare x Num.three) as [c|] eqn:Ec; [|discriminate Hhi].
    unfold Num.min. rewrite Ec.
    destruct c; try discriminate Hhi; [|reflexivity].
    destruct x as [[|]| | |]; try reflexivity; discriminate Ec. }
  split; [apply Hfix|].
  destruct (Num.isNaN z) eqn:Hn.
  - destruct z; try discriminate Hn. reflexivity.
  - apply Hfix. now apply NumFacts.clampZoom_inZoomRange.
Qed.

Lemma clampZoom_idempotent_witness : Num.clampZoom Num.one = Num.one.
Proof. apply (proj1 (clampZoom_idempotent Num.one)). reflexivity. Defined.

(* ===================================================================== *)
(** ** The calls of a computation *)
(* ===================================================================== *)

Section Emits.
Context {S : Type} (I : S -> Prop) (hist : S -> list effect) (ok : effect -> bool).

Lemma emitsOnly_same {A} (m : M S A) :
  (forall s, I s -> I (snd (m s)) /\ hist (snd (m s)) = hist s) ->
  emitsOnly I hist ok m.
Proof.
  intros H s Hs. destruct (H s Hs) as [Hi Hh]. split; [exact Hi|].
  exists []. now rewrite Hh.
Qed.

Lemma emitsOnly_one {A} (e : effect) (m : M S A) :
  ok e = true ->
  (forall s, I s -> I (snd (m s)) /\ hist (snd (m s)) = e :: hist s) ->
  emitsOnly I hist ok m.
Proof.
  intros He H s Hs. destruct (H s Hs) as [Hi Hh]. split; [exact Hi|].
  exists [e]. simpl. now rewrite Hh, He.
Qed.

Lemma emitsOnly_ret {A} (a : A) : emitsOnly I hist ok (ret a).
Proof. apply emitsOnly_same. now intros s Hs. Qed.

Lemma emitsOnly_throw {A} (e : error) : emitsOnly I hist ok (throw e : M S A).
Proof. apply emitsOnly_same. now intros s Hs. Qed.

Lemma emitsOnly_await {A} (o : outcome A) : emitsOnly I hist ok (await o).
Proof. apply emitsOnly_same. now intros s Hs. Qed.

Lemma emitsOnly_gets {A} (f : S -> A) : emitsOnly I hist ok (gets f).
Proof. apply emitsOnly_same. now intros s Hs. Qed.

Lemma emitsOnly_modify (f : S -> S) :
  (forall s, I s -> I (f s)) ->
  (forall s, hist (f s) = hist s) ->
  emitsOnly I hist ok (modify f).
Proof. intros Hi Hh. apply emitsOnly_same. intros s Hs. split; [now apply Hi | apply Hh]. Qed.

Lemma emitsOnly_bind {A B} (m : M S A) (k : A -> M S B) :
  emitsOnly I hist ok m -> (forall a, emitsOnly I hist ok (k a)) ->
  emitsOnly I hist ok (bind m k).
Proof.
  intros Hm Hk s Hs. destruct (Hm s Hs) as (Hi & d1 & Hh1 & Hd1).
  unfold bind. destruct (m s) as [[a|e] s1]; simpl in *.
  - destruct (Hk a s1 Hi) as (Hi2 & d2 & Hh2 & Hd2). split; [exact Hi2|].
    exists (d2 ++ d1). rewrite Hh2, Hh1, app_assoc. split; [reflexivity|].
    now rewrite forallb_app, Hd1, Hd2.
  - split; [exact Hi|]. now exists d1.
Qed.

Lemma emitsOnly_tryCatch {A} (m : M S A) (h : error -> M S A) :
  emitsOnly I hist ok m -> (forall e, emitsOnly I hist ok (h e)) ->
  emitsOnly I hist ok (tryCatch m h).
Proof.
  intros Hm Hk s Hs. destruct (Hm s Hs) as (Hi & d1 & Hh1 & Hd1).
  unfold tryCatch. destruct (m s) as [[a|e] s1]; simpl in *.
  - split; [exact Hi|]. now exists d1.
  - destruct (Hk e s1 Hi) as (Hi2 & d2 & Hh2 & Hd2). split; [exact Hi2|].
    exists (d2 ++ d1). rewrite Hh2, Hh1, app_assoc. split; [reflexivity|].
    now rewrite forallb_app, Hd1, Hd2.
Qed.

End Emits.

Lemma emitsOnly_focus {S T A} (I : S -> Prop) (J : T -> Prop)
      (hist : S -> list effect) (hist' : T -> list effect) (ok : effect -> bool)
      (read : S -> T) (write : T -> S -> S) (m : M T A) :
  (forall s, I s -> J (read s)) ->
  (forall s t, I s -> J t -> I (write t s)) ->
  (forall s, hist' (read s) = hist s) ->
  (forall s t, hist (write t s) = hist' t) ->
  emitsOnly J hist' ok m ->
  emitsOnly I hist ok (focus read write m).
Proof.
  intros HJ HI Hr Hw Hm s Hs. destruct (Hm (read s) (HJ s Hs)) as (Hj & d & Hh & Hd).
  unfold focus. destruct (m (read s)) as [o t]; simpl in *.
  split; [now apply HI|]. exists d. now rewrite Hw, Hh, Hr.
Qed.

Lemma emitsOnly_weaken {S A} (I : S -> Prop) (hist : S -> list effect)
      (ok ok' : effect -> bool) (m : M S A) :
  (forall e, ok e = true -> ok' e = true) ->
  emitsOnly I hist ok m -> emitsOnly I hist ok' m.
Proof.
  intros H Hm s Hs. destruct (Hm s Hs) as (Hi & d & Hh & Hd). split; [exact Hi|].
  exists d. split; [exact Hh|]. rewrite forallb_forall in *. auto.
Qed.

(** The rendering sections make rendering calls only, besides those of
    what the control awaits first. *)
Section EmitsRendering.
Context {T : Type} (I : surface T -> Prop) (ok : effect -> bool).
Hypothesis I_self :
  forall r r' : surface T,
    self r' = self r -> transform (area r') = transform (area r) -> I r -> I r'.
Hypothesis ok_rendering : forall e, isRendering e = true -> ok e = true.

Let hist := fun r : surface T => history (env r).

Lemma emitsOnly_emit (e : effect) : isRendering e = true -> emitsOnly I hist ok (emit e).
Proof.
  intros He. apply (emitsOnly_one I hist ok e); [now apply ok_rendering|].
  intros r Hr. split; [|reflexivity]. revert Hr. now apply I_self.
Qed.

Lemma emitsOnly_setChildren (l : list node) : emitsOnly I hist ok (setChildren l).
Proof.
  apply emitsOnly_same. intros r Hr. split; [|reflexivity]. revert Hr. now apply I_self.
Qed.

Lemma emitsOnly_appendChild (n : node) : emitsOnly I hist ok (appendChild n).
Proof.
  apply emitsOnly_same. intros r Hr. split; [|reflexivity]. revert Hr. now apply I_self.
Qed.

Lemma emitsOnly_createCanvas : emitsOnly I hist ok (createCanvas (T := T)).
Proof.
  apply emitsOnly_same. intros r Hr. split; [|reflexivity]. revert Hr. now apply I_self.
Qed.

Lemma emitsOnly_renderPage (page : nat -> page_answer) (n : nat) :
  emitsOnly I hist ok (renderPage page n).
Proof.
  unfold renderPage. apply emitsOnly_bind; [now apply emitsOnly_emit|]. intros _.
  assert (H : forall answer,
             emitsOnly I hist ok
               (bind createCanvas (fun canvas =>
                  bind (appendChild (PageCard canvas)) (fun _ =>
                    bind (emit (RenderPage n canvas)) (fun _ =>
                      match answer with
                      | RenderRejects e => throw e
                      | _ => ret tt
                      end))))).
  { intros answer. apply emitsOnly_bind; [apply emitsOnly_createCanvas|]. intros c.
    apply emitsOnly_bind; [apply emitsOnly_appendChild|]. intros _.
    apply emitsOnly_bind; [now apply emitsOnly_emit|]. intros _.
    destruct answer; first [apply emitsOnly_ret | apply emitsOnly_throw]. }
  destruct (page n) as [|e|e];
    [exact (H PageRenders) | apply emitsOnly_throw | exact (H (RenderRejects e))].
Qed.

Lemma emitsOnly_renderPages (page : nat -> page_answer) (l : list nat) :
  emitsOnly I hist ok (renderPages page l).
Proof.
  induction l as [|n l IH]; simpl; [apply emitsOnly_ret|].
  apply emitsOnly_bind; [apply emitsOnly_renderPage | intros _; exact IH].
Qed.

Lemma emitsOnly_renderSections (prepare : M (surface T) unit) (f : file)
      (w : render_world) :
  emitsOnly I hist ok prepare ->
  emitsOnly I hist ok (renderSections prepare f w).
Proof.
  intros Hp. unfold renderSections.
  apply emitsOnly_bind; [apply emitsOnly_setChildren|]. intros _.
  destruct (dispatch f).
  - apply emitsOnly_bind; [apply emitsOnly_appendChild|]. intros _.
    apply emitsOnly_tryCatch; [|intros e; apply emitsOnly_setChildren].
    unfold renderPdf. apply emitsOnly_bind; [exact Hp|]. intros _.
    apply emitsOnly_bind; [now apply emitsOnly_emit|]. intros _.
    destruct (pdf w); [apply emitsOnly_throw|].
    apply emitsOnly_bind; [apply emitsOnly_setChildren|]. intros _.
    apply emitsOnly_renderPages.
  - apply emitsOnly_bind; [apply emitsOnly_appendChild|]. intros _.
    apply emitsOnly_bind; [now apply emitsOnly_emit|]. intros _.
    destruct (readerLoads w); apply emitsOnly_setChildren.
  - apply emitsOnly_bind; [apply emitsOnly_appendChild|]. intros _.
    apply emitsOnly_bind; [now apply emitsOnly_emit|]. intros _.
    apply emitsOnly_await.
  - apply emitsOnly_appendChild.
  - apply emitsOnly_appendChild.
Qed.

End EmitsRendering.

Section ModalCalls.
Import Modal.
Variable ok : effect -> bool.

Let hist := fun s : state => history (page s).
Let any := fun _ : state => True.

Lemma emitsOnly_call_modal (e : effect) : ok e = true -> emitsOnly any hist ok (call e).
Proof. intros He. apply (emitsOnly_one any hist ok e); [exact He|]. now intros s _. Qed.

Lemma emitsOnly_set_modal (f : state -> state) :
  (forall s, page (f s) = page s) -> emitsOnly any hist ok (modify f).
Proof.
  intros H. apply emitsOnly_modify; [now intros|]. intros s. unfold hist. now rewrite H.
Qed.

Hypothesis ok_revoke : forall u, ok (RevokeObjectURL u) = true.

Lemma emitsOnly_cleanupFileUrl_modal : emitsOnly any hist ok cleanupFileUrl.
Proof.
  intros s _. split; [exact Logic.I|]. unfold cleanupFileUrl.
  destruct (currentFileUrl s) as [u|]; [|now exists []].
  exists [RevokeObjectURL u]. simpl. now rewrite ok_revoke.
Qed.

Lemma emitsOnly_destroyModal : emitsOnly any hist ok destroyModal.
Proof.
  unfold destroyModal. apply emitsOnly_bind; [now apply emitsOnly_set_modal|].
  intros _. apply emitsOnly_cleanupFileUrl_modal.
Qed.

Lemma emitsOnly_applyZoom_modal (z : Num.number) : emitsOnly any hist ok (applyZoom z).
Proof.
  apply emitsOnly_same. intros s _. split; [exact Logic.I|]. unfold applyZoom.
  now destruct (modal s).
Qed.

Lemma emitsOnly_openModal : emitsOnly any hist ok openModal.
Proof.
  unfold openModal. apply emitsOnly_bind; [apply emitsOnly_destroyModal|]. intros _.
  apply emitsOnly_bind; [now apply emitsOnly_set_modal|]. intros _.
  apply emitsOnly_bind; [now apply emitsOnly_set_modal|]. intros _.
  apply emitsOnly_applyZoom_modal.
Qed.

Lemma emitsOnly_destroy_modal : emitsOnly any hist ok destroy.
Proof.
  unfold destroy. apply emitsOnly_bind; [apply emitsOnly_cleanupFileUrl_modal|].
  intros _. apply emitsOnly_destroyModal.
Qed.

Hypothesis ok_retrieve : forall a b c, ok (RetrieveRecord a b c) = true.

Lemma emitsOnly_hasPreviewableAttachment_modal (entity id col : string)
      (answer : outcome Js.record) :
  emitsOnly any hist ok (hasPreviewableAttachment entity id col answer).
Proof.
  unfold hasPreviewableAttachment.
  apply emitsOnly_bind; [now apply emitsOnly_call_modal|]. intros _.
  apply emitsOnly_bind; [apply emitsOnly_await|]. intros r. apply emitsOnly_ret.
Qed.

Lemma emitsOnly_updateView_modal (ctx : Context) (answer : outcome Js.record) :
  emitsOnly any hist ok (updateView ctx answer).
Proof.
  unfold updateView.
  apply emitsOnly_bind; [now apply emitsOnly_set_modal|]. intros _.
  apply emitsOnly_bind; [now apply emitsOnly_set_modal|]. intros _.
  apply emitsOnly_bind; [now apply emitsOnly_set_modal|]. intros _.
  unfold checkAttachmentAndUpdateUI.
  apply emitsOnly_bind; [apply emitsOnly_gets|]. intros c.
  destruct (negb (configured c)).
  - apply emitsOnly_bind; [now apply emitsOnly_set_modal|]. intros _.
    now apply emitsOnly_set_modal.
  - apply emitsOnly_tryCatch.
    + apply emitsOnly_bind; [apply emitsOnly_hasPreviewableAttachment_modal|].
      intros [|]; (apply emitsOnly_bind; [now apply emitsOnly_set_modal|]); intros _;
        now apply emitsOnly_set_modal.
    + intros _. apply emitsOnly_bind; [now apply emitsOnly_set_modal|]. intros _.
      now apply emitsOnly_set_modal.
Qed.

Hypothesis ok_fetch : forall url, ok (Fetch url) = true.

Lemma emitsOnly_downloadFile_modal (entity id col : string) (w : download_world) :
  emitsOnly any hist ok (downloadFile entity id col w).
Proof.
  unfold downloadFile.
  apply emitsOnly_bind; [now apply emitsOnly_call_modal|]. intros _.
  apply emitsOnly_bind; [apply emitsOnly_await|]. intros r.
  apply emitsOnly_bind; [apply emitsOnly_gets|]. intros c.
  apply emitsOnly_bind; [now apply emitsOnly_set_modal|]. intros _.
  apply emitsOnly_bind; [now apply emitsOnly_call_modal|]. intros _.
  destruct (response w) as [e|st body]; [apply emitsOnly_throw|].
  destruct (negb (responseOk st)); [apply emitsOnly_throw|].
  apply emitsOnly_bind; [apply emitsOnly_await|]. intros b. apply emitsOnly_ret.
Qed.

Hypothesis ok_rendering : forall e, isRendering e = true -> ok e = true.

Lemma emitsOnly_renderFilePreview_modal (f : file) (w : render_world) :
  emitsOnly any hist ok (renderFilePreview f w).
Proof.
  intros s _. split; [exact Logic.I|]. unfold renderFilePreview.
  destruct (modal s) as [m|]; [|now exists []].
  destruct (emitsOnly_renderSections (fun _ => True) ok (fun _ _ _ _ _ => Logic.I)
              ok_rendering (ret tt) f w (emitsOnly_ret _ _ _ tt) (toSurface m s) Logic.I)
    as (_ & d & Hh & Hd).
  exists d. split; [|exact Hd].
  unfold focus. destruct (renderSections (ret tt) f w (toSurface m s)) as [o r].
  exact Hh.
Qed.

Hypothesis ok_create : forall u, ok (CreateObjectURL u FileBlob) = true.
Hypothesis ok_alert : forall msg, ok (Alert msg) = true.

Lemma emitsOnly_onPreviewClick (dw : download_world) (rw : render_world) :
  emitsOnly any hist ok (onPreviewClick dw rw).
Proof.
  unfold onPreviewClick.
  apply emitsOnly_bind; [apply emitsOnly_gets|]. intros [|]; [apply emitsOnly_ret|].
  apply emitsOnly_bind; [apply emitsOnly_gets|]. intros c.
  destruct (negb (configured c)); [now apply emitsOnly_call_modal|].
  apply emitsOnly_tryCatch.
  - unfold previewAction.
    apply emitsOnly_bind; [apply emitsOnly_downloadFile_modal|]. intros f.
    apply emitsOnly_bind; [now apply emitsOnly_set_modal|]. intros _.
    apply emitsOnly_bind; [apply emitsOnly_cleanupFileUrl_modal|]. intros _.
    apply emitsOnly_bind.
    { intros s _. split; [exact Logic.I|].
      exists [CreateObjectURL (nextUrl (page s)) FileBlob]. simpl.
      now rewrite ok_create. }
    intros u.
    apply emitsOnly_bind; [now apply emitsOnly_set_modal|]. intros _.
    apply emitsOnly_bind; [apply emitsOnly_openModal|]. intros _.
    apply emitsOnly_renderFilePreview_modal.
  - intros e. destruct (isForbidden e); now apply emitsOnly_call_modal.
Qed.

End ModalCalls.

(* ===================================================================== *)
(** ** The modal control, step by step *)
(* ===================================================================== *)

Section ModalRuns.
Import Modal.

Lemma downloadFile_run_modal (entity id col : string) (w : download_world) (s : state) :
  downloadFile entity id col w s
  = (downloadResult col w, modalDownloaded entity id col w s).
Proof.
  unfold downloadFile, downloadResult, modalDownloaded, downloadedName, bind, call,
    modify, await, gets, throw, ret.
  destruct (retrieved w) as [r|e]; [|reflexivity]. cbn -[getFileUrl].
  destruct (response w) as [e|st [bytes|e]]; try reflexivity;
    destruct (responseOk st); reflexivity.
Qed.

Lemma openModal_run (f : file) (s : state) :
  (bind (modify (set_currentFile (Some (fileName f)) (Some (mimeType f)))) (fun _ =>
   bind cleanupFileUrl (fun _ =>
   bind (createObjectURL FileBlob) (fun u =>
   bind (modify (set_currentFileUrl (Some u))) (fun _ => openModal))))) s
  = (Returned tt, modalOpened f s).
Proof.
  unfold modalOpened, openModal, destroyModal, cleanupFileUrl, createObjectURL, applyZoom,
    bind, call, modify.
  cbn -[Num.clampZoom]. destruct (currentFileUrl s); reflexivity.
Qed.

Lemma previewAction_run (ctx : Context) (dw : download_world) (rw : render_world)
      (s : state) :
  previewAction ctx dw rw s
  = let entity := toString (EntityLogicalName ctx) in
    let id := toString (entityId ctx) in
    let col := toString (FileColumnName ctx) in
    match downloadResult col dw with
    | Returned f => renderFilePreview f rw (modalOpened f (modalDownloaded entity id col dw s))
    | Thrown e => (Thrown e, modalDownloaded entity id col dw s)
    end.
Proof.
  unfold previewAction. unfold bind at 1. rewrite downloadFile_run_modal.
  cbv zeta. destruct (downloadResult _ dw) as [f|e]; [|reflexivity].
  pose proof (openModal_run f
                (modalDownloaded (toString (EntityLogicalName ctx)) (toString (entityId ctx))
                   (toString (FileColumnName ctx)) dw s)) as H.
  unfold bind in *.
  destruct (modify (set_currentFile (Some (fileName f)) (Some (mimeType f))) _)
    as [[[]|e1] s1]; [|discriminate H].
  destruct (cleanupFileUrl s1) as [[[]|e2] s2]; [|discriminate H].
  destruct (createObjectURL FileBlob s2) as [[u|e3] s3]; [|discriminate H].
  destruct (modify (set_currentFileUrl (Some u)) s3) as [[[]|e4] s4]; [|discriminate H].
  rewrite H. reflexivity.
Qed.

Lemma onPreviewClick_run (dw : download_world) (rw : render_world) (s : state) :
  previewButton_disabled s = false ->
  configured (context s) = true ->
  onPreviewClick dw rw s
  = tryCatch (previewAction (context s) dw rw)
             (fun err => call (Alert (errorMessage err))) s.
Proof.
  intros Hd Hc. unfold onPreviewClick, bind, gets. rewrite Hd, Hc. cbn [negb].
  unfold tryCatch. destruct (previewAction (context s) dw rw s) as [[[]|e] s1];
    [reflexivity|]. unfold errorMessage. now destruct (isForbidden e).
Qed.

(** [renderFilePreview] only touches the modal body and the page. *)
Lemma renderFilePreview_fields_modal (f : file) (w : render_world) (s : state) :
  let s' := snd (renderFilePreview f w s) in
  context s' = context s
  /\ previewButton_disabled s' = previewButton_disabled s
  /\ fileLabel s' = fileLabel s
  /\ zoomLevel s' = zoomLevel s
  /\ currentFileUrl s' = currentFileUrl s
  /\ currentFileName s' = currentFileName s
  /\ currentMimeType s' = currentMimeType s
  /\ currentDownloadUrl s' = currentDownloadUrl s
  /\ option_map title (modal s') = option_map title (modal s)
  /\ option_map downloadButton (modal s') = option_map downloadButton (modal s).
Proof.
  unfold renderFilePreview. destruct (modal s) as [m|] eqn:Hm; simpl.
  - unfold focus. destruct (renderSections (ret tt) f w (toSurface m s)) as [o r].
    simpl. repeat split.
  - rewrite Hm. repeat split.
Qed.

End ModalRuns.

Lemma fold_left_invariant {S E} (P : S -> Prop) (step : S -> E -> S) :
  (forall s e, P s -> P (step s e)) ->
  forall es s, P s -> P (fold_left step es s).
Proof.
  intros H es. induction es as [|e es IH]; intros s Hs; simpl; [exact Hs|].
  apply IH, H, Hs.
Qed.

Lemma orElse_downloadedName (r : Js.record) (col d : string) :
  orElse (Some (downloadedName r col)) d = downloadedName r col.
Proof.
  unfold downloadedName. now destruct (Js.get r (col ++ "_name")) as [| |[|c n]].
Qed.

Lemma value_url_nonempty (url : string) :
  exists c r, Some (url ++ "/$value")%string = Some (String c r).
Proof. destruct url as [|c r]; simpl; eauto. Qed.

Lemma downloadResult_ok (col : string) (dw : download_world) (r : Js.record)
      (httpStatus : Z) (bytes : string) :
  retrieved dw = Returned r ->
  response dw = Response httpStatus (Returned bytes) ->
  responseOk httpStatus = true ->
  downloadResult col dw
  = Returned {| blob := bytes; fileName := downloadedName r col;
                mimeType := mimeTypeOf (downloadedName r col) |}.
Proof. intros Hr Hf Hok. unfold downloadResult. now rewrite Hr, Hf, Hok. Qed.

Section ModalSteps.
Import Modal.

Lemma modalDownloaded_fields (entity id col : string) (w : download_world) (s : state) :
  let s' := modalDownloaded entity id col w s in
  context s' = context s
  /\ previewButton_disabled s' = previewButton_disabled s
  /\ fileLabel s' = fileLabel s
  /\ modal s' = modal s
  /\ zoomLevel s' = zoomLevel s
  /\ currentFileUrl s' = currentFileUrl s
  /\ currentFileName s' = currentFileName s
  /\ currentMimeType s' = currentMimeType s
  /\ nextUrl (page s') = nextUrl (page s)
  /\ nextCanvas (page s') = nextCanvas (page s).
Proof. unfold modalDownloaded. destruct (retrieved w); repeat split. Qed.

(** The state after a click on the enabled button of a configured
    control. *)
Lemma onPreviewClick_state (dw : download_world) (rw : render_world) (s : state) :
  previewButton_disabled s = false ->
  configured (context s) = true ->
  let ctx := context s in
  let s1 := modalDownloaded (toString (EntityLogicalName ctx)) (toString (entityId ctx))
              (toString (FileColumnName ctx)) dw s in
  snd (onPreviewClick dw rw s)
  = match downloadResult (toString (FileColumnName ctx)) dw with
    | Thrown e => set_page (record_effect (Alert (errorMessage e)) (page s1)) s1
    | Returned f =>
        let r := renderFilePreview f rw (modalOpened f s1) in
        match fst r with
        | Returned _ => snd r
        | Thrown e => set_page (record_effect (Alert (errorMessage e)) (page (snd r))) (snd r)
        end
    end.
Proof.
  intros Hd Hc ctx s1. rewrite (onPreviewClick_run dw rw s Hd Hc).
  unfold tryCatch. rewrite previewAction_run. cbv zeta. fold ctx. fold s1.
  destruct (downloadResult (toString (FileColumnName ctx)) dw) as [f|e]; [|reflexivity].
  destruct (renderFilePreview f rw (modalOpened f s1)) as [[[]|e] s2]; reflexivity.
Qed.

Lemma onPreviewClick_idle (dw : download_world) (rw : render_world) (s : state) :
  currentFileUrl s = None -> currentFileUrl (snd (onPreviewClick dw rw s)) = None.
Proof.
  intros Hu.
  destruct (previewButton_disabled s) eqn:Hd.
  { unfold onPreviewClick, bind, gets. now rewrite Hd. }
  destruct (configured (context s)) eqn:Hc.
  2:{ unfold onPreviewClick, bind, gets. rewrite Hd, Hc. exact Hu. }
  rewrite (onPreviewClick_state dw rw s Hd Hc). cbv zeta.
  destruct (downloadResult _ dw) as [f|e].
  - pose proof (renderFilePreview_fields_modal f rw
                  (modalOpened f
                     (modalDownloaded (toString (EntityLogicalName (context s)))
                        (toString (entityId (context s)))
                        (toString (FileColumnName (context s))) dw s)))
      as (_ & _ & _ & _ & H & _).
    destruct (fst (renderFilePreview f rw _)); exact H.
  - cbn [currentFileUrl set_page].
    now destruct (modalDownloaded_fields (toString (EntityLogicalName (context s)))
                    (toString (entityId (context s)))
                    (toString (FileColumnName (context s))) dw s)
      as (_ & _ & _ & _ & _ & -> & _).
Qed.

Lemma updateView_fields_modal (ctx : Context) (answer : outcome Js.record) (s : state) :
  let s' := snd (updateView ctx answer s) in
  context s' = ctx
  /\ modal s' = modal s
  /\ zoomLevel s' = zoomLevel s
  /\ currentFileUrl s' = currentFileUrl s
  /\ currentFileName s' = currentFileName s
  /\ currentMimeType s' = currentMimeType s
  /\ currentDownloadUrl s' = currentDownloadUrl s.
Proof.
  unfold updateView, checkAttachmentAndUpdateUI, hasPreviewableAttachment, tryCatch,
    bind, call, modify, await, gets, ret. cbn.
  destruct (negb (configured ctx)); [repeat split|].
  destruct answer as [r|e]; [destruct (previewable r _)|]; repeat split.
Qed.

Lemma applyZoom_fields_modal (z : Num.number) (s : state) :
  let s' := snd (applyZoom z s) in
  currentFileUrl s' = currentFileUrl s /\ page s' = page s.
Proof. unfold applyZoom. destruct (modal s); split; reflexivity. Qed.

Lemma open_document_idle (s : state) :
  currentFileUrl s = None -> step s OpenDocumentClick = s.
Proof.
  intros Hu. unfold step, handle, onOpenDocumentClick, bind, gets. simpl.
  destruct (modal s) as [m|]; [|reflexivity].
  destruct (showsLegacyCard (body m)); [|reflexivity]. now rewrite Hu.
Qed.

Lemma close_idle (s : state) :
  currentFileUrl s = None ->
  page (step s CloseClick) = page s /\ page (step s Destroy) = page s
  /\ currentFileUrl (step s CloseClick) = None /\ currentFileUrl (step s Destroy) = None.
Proof.
  intros Hu. unfold step, handle, destroy, destroyModal, cleanupFileUrl, bind, modify.
  simpl. rewrite Hu. simpl. rewrite Hu. repeat split; exact Hu.
Qed.

Lemma step_idle (s : state) (e : event) :
  currentFileUrl s = None -> currentFileUrl (step s e) = None.
Proof.
  intros Hu. destruct e.
  - unfold step, handle.
    now destruct (updateView_fields_modal ctx answer s) as (_ & _ & _ & -> & _).
  - now apply onPreviewClick_idle.
  - unfold step, handle, bind, gets.
    now destruct (applyZoom_fields_modal (Num.sub (zoomLevel s) Num.tenth) s) as [-> _].
  - unfold step, handle, bind, gets.
    now destruct (applyZoom_fields_modal (Num.add (zoomLevel s) Num.tenth) s) as [-> _].
  - unfold step, handle.
    now destruct (applyZoom_fields_modal Num.one s) as [-> _].
  - unfold step, handle, onDownloadClick, bind, gets. simpl.
    destruct (modal s) as [m|]; [|exact Hu].
    destruct (downloadButton m); [|exact Hu]. rewrite Hu.
    destruct (currentDownloadUrl s) as [[|c r]|]; exact Hu.
  - now rewrite open_document_idle.
  - now apply close_idle.
  - now apply close_idle.
Qed.

Lemma run_idle (ctx : Context) (es : list event) :
  currentFileUrl (run (init ctx) es) = None.
Proof.
  unfold run. apply (fold_left_invariant (fun s => currentFileUrl s = None));
    [intros s e; apply step_idle | reflexivity].
Qed.

Lemma callsOfModal_preview_rendering (dw : download_world) (rw : render_world) (c : effect) :
  isRendering c = true -> callsOfModal (PreviewClick dw rw) c = true.
Proof. destruct c; try discriminate; reflexivity. Qed.

Lemma step_calls_modal (s : state) (e : event) :
  currentFileUrl s = None ->
  exists delta,
    history (page (step s e)) = delta ++ history (page s)
    /\ forallb (callsOfModal e) delta = true.
Proof.
  intros Hu. destruct e.
  - now apply (emitsOnly_updateView_modal (callsOfModal (UpdateView ctx answer))).
  - apply (emitsOnly_onPreviewClick (callsOfModal (PreviewClick dw rw)));
      try reflexivity; try exact Logic.I.
    apply callsOfModal_preview_rendering.
  - exists []. unfold step, handle, bind, gets.
    now destruct (applyZoom_fields_modal (Num.sub (zoomLevel s) Num.tenth) s) as [_ ->].
  - exists []. unfold step, handle, bind, gets.
    now destruct (applyZoom_fields_modal (Num.add (zoomLevel s) Num.tenth) s) as [_ ->].
  - exists []. unfold step, handle.
    now destruct (applyZoom_fields_modal Num.one s) as [_ ->].
  - unfold step, handle, onDownloadClick, bind, gets. simpl.
    destruct (modal s) as [m|]; [|now exists []].
    destruct (downloadButton m); [|now exists []]. rewrite Hu.
    destruct (currentDownloadUrl s) as [[|c r]|]; try (now exists []).
    now exists [Navigate (String c r)].
  - exists []. now rewrite open_document_idle.
  - exists []. now destruct (close_idle s Hu) as (-> & _).
  - exists []. now destruct (close_idle s Hu) as (_ & -> & _).
Qed.

Lemma callsOfModal_modalCall (e : event) (c : effect) :
  callsOfModal e c = true -> modalCall c = true.
Proof. destruct e, c; try discriminate; try reflexivity. now destruct k. Qed.

End ModalSteps.

(* ===================================================================== *)
(** ** The modal control: what its handlers do *)
(* ===================================================================== *)

(** X6: what [updateView] of the modal control leaves, whatever the state
    before.  The preview button is enabled exactly when the control is
    configured, [retrieveRecord] resolved, and the record passes the
    attachment check; the status label is empty then, and otherwise names
    the reason: missing configuration, a check that failed ("Could not
    check Attachment." when [retrieveRecord] rejects), or no previewable
    file.  The interim text "Checking attachment..." never stays, and
    neither the modal nor the fields of the current file change. *)
Theorem preview_button_enabled_iff (s : Modal.state) (ctx : Context)
    (answer : outcome Js.record) :
  let s' := Modal.step s (Modal.UpdateView ctx answer) in
  let col := toString (FileColumnName ctx) in
  (Modal.previewButton_disabled s' = false
   <-> Modal.configured ctx = true
       /\ exists r, answer = Returned r /\ previewable r col = true)
  /\ Modal.fileLabel s'
     = (if negb (Modal.configured ctx) then msg_missing_config
        else match answer with
             | Thrown _ => msg_could_not_check
             | Returned r => if previewable r col then "" else msg_no_previewable
             end)
  /\ (Modal.fileLabel s' = ""%string <-> Modal.previewButton_disabled s' = false)
  /\ Modal.context s' = ctx
  /\ Modal.modal s' = Modal.modal s
  /\ Modal.currentFileUrl s' = Modal.currentFileUrl s
  /\ Modal.currentDownloadUrl s' = Modal.currentDownloadUrl s.
Proof.
  unfold Modal.step, Modal.handle, Modal.updateView, Modal.checkAttachmentAndUpdateUI,
    Modal.hasPreviewableAttachment, tryCatch, bind, Modal.call, modify, await, gets, ret.
  cbn.
  destruct (Modal.configured ctx); cbn.
  - destruct answer as [r|e]; cbn.
    + destruct (previewable r (toString (FileColumnName ctx))) eqn:Hp; cbn.
      * repeat split; try reflexivity. exists r. now split.
      * repeat split; try discriminate.
        intros (_ & r' & Hr & Hp'). injection Hr as <-. congruence.
    + repeat split; try discriminate. intros (_ & r' & Hr & _). discriminate Hr.
  - repeat split; try discriminate. intros (H & _). discriminate H.
Qed.

Section ModalKnown.
Import Modal.

Lemma click_cases_modal (s : state) :
  (step s DownloadClick = s
   \/ exists c, step s DownloadClick = set_page (record_effect c (page s)) s)
  /\ (step s OpenDocumentClick = s
      \/ exists c, step s OpenDocumentClick = set_page (record_effect c (page s)) s).
Proof.
  unfold step, handle, onDownloadClick, onOpenDocumentClick, bind, gets, call, modify.
  simpl. split.
  - destruct (modal s) as [m|]; [|now left].
    destruct (downloadButton m); [|now left].
    destruct (currentDownloadUrl s) as [[|c r]|], (currentFileUrl s);
      first [now left | right; eexists; reflexivity].
  - destruct (modal s) as [m|]; [|now left].
    destruct (showsLegacyCard (body m)); [|now left].
    destruct (currentFileUrl s); first [now left | right; eexists; reflexivity].
Qed.

Lemma destroy_closes (s : state) :
  modal (step s CloseClick) = None /\ modal (step s Destroy) = None.
Proof.
  unfold step, handle, destroy, destroyModal, cleanupFileUrl, bind, call, modify.
  destruct s as [c d l m z u n t h p]. now destruct u.
Qed.

Lemma applyZoom_known (z : Num.number) (s : state) :
  modalKnown s -> modalKnown (snd (applyZoom z s)).
Proof.
  intros H. unfold applyZoom. destruct (modal s) as [m|] eqn:Hm; [|exact H].
  intros m' Hm'.
  cbn [snd modal set_modal set_zoomLevel] in Hm'. injection Hm' as <-.
  cbn [snd title currentFileName currentDownloadUrl set_modal set_zoomLevel].
  now apply H.
Qed.

Lemma step_modalKnown (s : state) (e : event) : modalKnown s -> modalKnown (step s e).
Proof.
  intros H. destruct e.
  - destruct (updateView_fields_modal ctx answer s) as (_ & Hm & _ & _ & Hn & _ & Hd).
    unfold step, handle, modalKnown. rewrite Hm, Hn, Hd. exact H.
  - unfold step, handle.
    destruct (previewButton_disabled s) eqn:Hd.
    { unfold onPreviewClick, bind, gets. now rewrite Hd. }
    destruct (configured (context s)) eqn:Hc.
    2:{ unfold onPreviewClick, bind, gets. rewrite Hd, Hc. exact H. }
    rewrite (onPreviewClick_state dw rw s Hd Hc). cbv zeta.
    set (s1 := modalDownloaded _ _ _ dw s).
    destruct (downloadResult (toString (FileColumnName (context s))) dw) as [f|e] eqn:Hres.
    + assert (Hk : modalKnown (snd (renderFilePreview f rw (modalOpened f s1)))).
      { destruct (renderFilePreview_fields_modal f rw (modalOpened f s1))
          as (_ & _ & _ & _ & _ & Hn & _ & Hdl & Ht & _).
        intros m Hm. rewrite Hn, Hdl. rewrite Hm in Ht.
        cbn [option_map modal modalOpened title] in Ht. injection Ht as Ht.
        split.
        - cbn [currentFileName modalOpened]. rewrite Ht.
          unfold downloadResult in Hres.
          destruct (retrieved dw) as [r|]; [|discriminate Hres].
          destruct (response dw) as [|st [bytes|]]; try discriminate Hres;
            destruct (responseOk st); try discriminate Hres.
          injection Hres as <-. cbn [fileName].
          exact (f_equal Some (eq_sym (orElse_downloadedName r _ "Document preview"))).
        - cbn [currentDownloadUrl modalOpened]. unfold s1, modalDownloaded.
          unfold downloadResult in Hres.
          destruct (retrieved dw) as [r|]; [|discriminate Hres].
          cbn -[getFileUrl]. apply value_url_nonempty. }
      destruct (fst (renderFilePreview f rw (modalOpened f s1))); exact Hk.
    + destruct (modalDownloaded_fields (toString (EntityLogicalName (context s)))
                  (toString (entityId (context s)))
                  (toString (FileColumnName (context s))) dw s)
        as (_ & _ & _ & Hm & _ & _ & Hn & _).
      fold s1 in Hm, Hn.
      intros m. cbn [modal currentFileName currentDownloadUrl set_page].
      rewrite Hm, Hn. intros Hmm. destruct (H m Hmm) as [H1 H2]. split; [exact H1|].
      unfold s1, modalDownloaded. destruct (retrieved dw); [|exact H2].
      cbn -[getFileUrl]. apply value_url_nonempty.
  - unfold step, handle, bind, gets. now apply applyZoom_known.
  - unfold step, handle, bind, gets. now apply applyZoom_known.
  - unfold step, handle. now apply applyZoom_known.
  - destruct (click_cases_modal s) as [[->|(c & ->)] _]; exact H.
  - destruct (click_cases_modal s) as [_ [->|(c & ->)]]; exact H.
  - intros m Hm. destruct (destroy_closes s) as [Hn _]. rewrite Hn in Hm. discriminate Hm.
  - intros m Hm. destruct (destroy_closes s) as [_ Hn]. rewrite Hn in Hm. discriminate Hm.
Qed.

Lemma run_modalKnown (ctx : Context) (es : list event) : modalKnown (run (init ctx) es).
Proof.
  unfold run. apply (fold_left_invariant modalKnown); [intros s e; apply step_modalKnown|].
  intros m Hm. discriminate Hm.
Qed.

End ModalKnown.

(** X10: the modal control never keeps an object URL.  [onPreviewClick]
    creates the URL of the file and calls [openModal], which starts with
    [destroyModal], which revokes it; so in every state the control
    reaches [currentFileUrl] is null and no object URL is live.  It follows
    that the "Open document" button of a legacy .doc file does nothing and
    that closing the modal revokes nothing.  The Download button never
    navigates to an object URL: in an open modal that has the button, the
    title is the name of the current file and a click navigates to the
    [$value] address in [currentDownloadUrl]. *)
Theorem modal_holds_no_object_url (ctx : Context) (es : list Modal.event) :
  let s := Modal.run (Modal.init ctx) es in
  Modal.currentFileUrl s = None
  /\ liveUrls (history (Modal.page s)) = []
  /\ Modal.step s Modal.OpenDocumentClick = s
  /\ history (Modal.page (Modal.step s Modal.CloseClick)) = history (Modal.page s)
  /\ (forall m,
        Modal.modal s = Some m ->
        Modal.currentFileName s = Some (Modal.title m)
        /\ exists href,
             Modal.currentDownloadUrl s = Some href
             /\ href <> EmptyString
             /\ Modal.step s Modal.DownloadClick
                = if Modal.downloadButton m
                  then Modal.set_page (record_effect (Navigate href) (Modal.page s)) s
                  else s).
Proof.
  intros s. assert (Hu : Modal.currentFileUrl s = None) by apply run_idle.
  split; [exact Hu|]. split; [|split; [|split]].
  - destruct (run_keeps_modal es (Modal.init ctx) (modalInv_init ctx)) as (Hl & _).
    fold s in Hl. now rewrite Hl, Hu.
  - now apply open_document_idle.
  - now destruct (close_idle s Hu) as (-> & _).
  - intros m Hm. destruct (run_modalKnown ctx es m Hm) as [Hn (c & r & Hd)].
    fold s in Hn, Hd. split; [exact Hn|].
    exists (String c r). split; [exact Hd|]. split; [discriminate|].
    unfold Modal.step, Modal.handle, Modal.onDownloadClick, bind, gets. simpl.
    rewrite Hm. destruct (Modal.downloadButton m); [|reflexivity]. now rewrite Hd.
Qed.

(** X11: the calls of the modal control.  In every state the control
    reaches, [updateView] makes no call but [retrieveRecord]; a click on
    the preview button makes no call but [retrieveRecord], [fetch],
    [createObjectURL] of the file, [revokeObjectURL], [alert] and those of
    the rendering libraries; the Download button only navigates; and zoom,
    "Open document", Close and [destroy] make no call at all.  So the
    control never asks the host for a resource, never creates an object URL
    for a worker and never navigates to an object URL. *)
Theorem modal_calls (ctx : Context) (es : list Modal.event) :
  let s := Modal.run (Modal.init ctx) es in
  forallb modalCall (history (Modal.page s)) = true
  /\ forall e, exists delta,
       history (Modal.page (Modal.step s e)) = delta ++ history (Modal.page s)
       /\ forallb (callsOfModal e) delta = true.
Proof.
  intros s.
  assert (H : Modal.currentFileUrl s = None
              /\ forallb modalCall (history (Modal.page s)) = true).
  { unfold s, Modal.run.
    apply (fold_left_invariant
             (fun s => Modal.currentFileUrl s = None
                       /\ forallb modalCall (history (Modal.page s)) = true)).
    - intros s0 e [Hu Hh]. split; [now apply step_idle|].
      destruct (step_calls_modal s0 e Hu) as (d & -> & Hd).
      rewrite forallb_app, Hh, andb_true_r.
      rewrite forallb_forall in *. intros c Hc.
      apply (callsOfModal_modalCall e), Hd, Hc.
    - split; reflexivity. }
  destruct H as [Hu Hh]. split; [exact Hh|].
  intros e. now apply step_calls_modal.
Qed.

Section ModalSuccess.
Import Modal.

(** When the rendering throws, it is the Word section that did. *)
Lemma renderSections_throws {T} (prepare : M (surface T) unit) (f : file)
      (w : render_world) (s : surface T) (e : error) :
  harmless prepare ->
  fst (renderSections prepare f w s) = Thrown e ->
  dispatch f = DocxBranch /\ docx w = Thrown e.
Proof.
  intros Hp He.
  destruct (dispatch f) eqn:Hd;
    try (destruct (renderSections_output prepare f w s Hp) as [Hr _];
         rewrite Hr in He by (rewrite Hd; discriminate); discriminate He).
  split; [reflexivity|].
  destruct (renderSections_docx prepare f w s Hd) as [Hr _]. congruence.
Qed.

End ModalSuccess.

(** X9: a successful click of the modal control, step by step.  When the
    button is enabled, the control configured, [retrieveRecord] resolves
    and [fetch] answers with an OK status and a body that decodes, the
    click leaves the modal open with the file name as its title
    ("document" for a record without a file name), the Download button as
    the manifest says, the zoom back at 1, and in the body the output of
    the section of the file name.  The control remembers the name, the
    type and the [$value] address, the object URL it created is already
    revoked, and the calls were, in this order: [retrieveRecord], [fetch],
    [createObjectURL], [revokeObjectURL], then those of the rendering; an
    alert follows only when docx-preview rejects a Word file. *)
Theorem preview_click_opens_modal (s : Modal.state) (dw : download_world)
    (rw : render_world) (r : Js.record) (httpStatus : Z) (bytes : string) :
  Modal.previewButton_disabled s = false ->
  Modal.configured (Modal.context s) = true ->
  Modal.currentFileUrl s = None ->
  retrieved dw = Returned r ->
  response dw = Response httpStatus (Returned bytes) ->
  responseOk httpStatus = true ->
  let ctx := Modal.context s in
  let col := toString (FileColumnName ctx) in
  let name := downloadedName r col in
  let f := {| blob := bytes; fileName := name; mimeType := mimeTypeOf name |} in
  let url := getFileUrl ctx (toString (entityId ctx)) col in
  let s' := Modal.step s (Modal.PreviewClick dw rw) in
  exists m shown,
    Modal.modal s' = Some m
    /\ Modal.title m = name
    /\ Modal.downloadButton m = EnableDownload ctx
    /\ transform (Modal.body m) = Some Num.one
    /\ Modal.zoomLevel s' = Num.one
    /\ sectionOutput (sectionOfName name) f rw (nextCanvas (Modal.page s))
         (children (Modal.body m))
    /\ Modal.currentFileName s' = Some name
    /\ Modal.currentMimeType s' = Some (mimeTypeOf name)
    /\ Modal.currentDownloadUrl s' = Some (url ++ "/$value")%string
    /\ Modal.currentFileUrl s' = None
    /\ history (Modal.page s')
       = shown
           ++ [RevokeObjectURL (nextUrl (Modal.page s));
               CreateObjectURL (nextUrl (Modal.page s)) FileBlob;
               Fetch url;
               RetrieveRecord (toString (EntityLogicalName ctx)) (toString (entityId ctx))
                 (selectQuery col)]
           ++ history (Modal.page s)
    /\ match shown with
       | Alert msg :: calls =>
           forallb isRendering calls = true
           /\ sectionOfName name = DocxBranch
           /\ exists e, docx rw = Thrown e /\ msg = errorMessage e
       | calls => forallb isRendering calls = true
       end.
Proof.
  intros Hd Hc Hu Hr Hf Hok ctx col name f url s'.
  unfold s', Modal.step, Modal.handle.
  rewrite (onPreviewClick_state dw rw s Hd Hc). cbv zeta.
  fold ctx. fold col.
  rewrite (downloadResult_ok col dw r httpStatus bytes Hr Hf Hok). fold name. fold f.
  set (s1 := modalDownloaded (toString (EntityLogicalName ctx)) (toString (entityId ctx))
               col dw s).
  assert (Hh1 : history (Modal.page s1)
                = [Fetch url;
                   RetrieveRecord (toString (EntityLogicalName ctx))
                     (toString (entityId ctx)) (selectQuery col)]
                    ++ history (Modal.page s)).
  { unfold s1, modalDownloaded. now rewrite Hr. }
  assert (Hd1 : Modal.currentDownloadUrl s1 = Some (url ++ "/$value")%string).
  { unfold s1, modalDownloaded. now rewrite Hr. }
  destruct (modalDownloaded_fields (toString (EntityLogicalName ctx))
              (toString (entityId ctx)) col dw s)
    as (Hctx & _ & _ & _ & _ & Hu1 & _ & _ & Hn1 & Hc1).
  fold s1 in Hctx, Hu1, Hn1, Hc1.
  set (m0 := {| Modal.title := orElse (Some (fileName f)) "Document preview";
                Modal.downloadButton := EnableDownload (Modal.context s1);
                Modal.body := {| children := [];
                                 transform := Some (Num.clampZoom Num.one) |} |}).
  assert (Hm0 : Modal.modal (modalOpened f s1) = Some m0) by reflexivity.
  rewrite (renderFilePreview_modal f rw (modalOpened f s1) m0 Hm0).
  cbn [fst snd].
  set (r0 := Modal.toSurface m0 (modalOpened f s1)).
  destruct (renderSections_output (ret tt) f rw r0 harmless_ret) as [_ Hout].
  destruct (emitsOnly_renderSections (fun _ : surface unit => True) isRendering
              (fun _ _ _ _ _ => Logic.I) (fun _ H => H) (ret tt) f rw
              (emitsOnly_ret _ _ _ tt) r0 Logic.I) as (_ & calls & Hcalls & Hren).
  assert (Hsec : dispatch f = sectionOfName name) by apply dispatch_downloaded.
  assert (Hhist : history (env r0)
                  = [RevokeObjectURL (nextUrl (Modal.page s));
                     CreateObjectURL (nextUrl (Modal.page s)) FileBlob;
                     Fetch url;
                     RetrieveRecord (toString (EntityLogicalName ctx))
                       (toString (entityId ctx)) (selectQuery col)]
                      ++ history (Modal.page s)).
  { unfold r0. cbn [Modal.toSurface env modalOpened Modal.page history].
    rewrite Hu1, Hu, Hn1, Hh1. reflexivity. }
  assert (Hcanvas : nextCanvas (env r0) = nextCanvas (Modal.page s)).
  { unfold r0. cbn [Modal.toSurface env modalOpened Modal.page nextCanvas]. exact Hc1. }
  rewrite Hsec, Hcanvas in Hout. rewrite Hhist in Hcalls.
  assert (Htr : transform (area (snd (renderSections (ret tt) f rw r0))) = Some Num.one).
  { destruct (quiet_renderSections (fun _ : surface unit => True) (ret tt) f rw
                (fun _ _ _ _ => Logic.I) (quiet_ret _ tt) r0 Logic.I)
      as (_ & _ & _ & _ & Ht & _).
    rewrite Ht. reflexivity. }
  set (out := renderSections (ret tt) f rw r0) in *.
  destruct (fst out) as [[]|e] eqn:Hfst.
  - exists {| Modal.title := Modal.title m0; Modal.downloadButton := Modal.downloadButton m0;
              Modal.body := area (snd out) |}, calls.
    cbn -[Num.clampZoom sectionOutput]. rewrite Hctx, Hd1.
    refine (conj eq_refl (conj _ (conj eq_refl (conj _ (conj eq_refl (conj Hout
             (conj eq_refl (conj eq_refl (conj eq_refl (conj eq_refl (conj Hcalls _))))))))))).
    + apply orElse_downloadedName.
    + exact Htr.
    + destruct calls as [|[] calls']; try exact Hren. discriminate Hren.
  - destruct (renderSections_throws (ret tt) f rw r0 e harmless_ret Hfst) as [Hdx He].
    exists {| Modal.title := Modal.title m0; Modal.downloadButton := Modal.downloadButton m0;
              Modal.body := area (snd out) |}, (Alert (errorMessage e) :: calls).
    cbn -[Num.clampZoom sectionOutput]. rewrite Hctx, Hd1.
    refine (conj eq_refl (conj _ (conj eq_refl (conj _ (conj eq_refl (conj Hout
             (conj eq_refl (conj eq_refl (conj eq_refl (conj eq_refl
             (conj (f_equal (cons (Alert (errorMessage e))) Hcalls) _))))))))))).
    + apply orElse_downloadedName.
    + exact Htr.
    + split; [exact Hren|]. split; [congruence|]. now exists e.
Qed.

Lemma preview_click_opens_modal_witness :
  let s' := Modal.step (Modal.init sampleContext)
              (Modal.PreviewClick (sampleDownload "Report.PDF") sampleRender) in
  exists m, Modal.modal s' = Some m
            /\ Modal.title m = "Report.PDF"%string
            /\ children (Modal.body m) = [PageCard 0; PageCard 1; PageCard 2].
Proof.
  intros s'.
  destruct (preview_click_opens_modal (Modal.init sampleContext)
              (sampleDownload "Report.PDF") sampleRender (sampleRecord "Report.PDF")
              200 "bytes" eq_refl eq_refl eq_refl eq_refl eq_refl eq_refl)
    as (m & shown & Hm & Ht & _ & _ & _ & Hout & _).
  exists m. split; [exact Hm|]. split; [exact Ht | exact Hout].
Defined.

(* ===================================================================== *)
(** ** The inline control, step by step *)
(* ===================================================================== *)

Section InlineRuns.
Import Inline.

Lemma downloadFile_run_inline (entity id col : string) (w : download_world) (s : state) :
  downloadFile entity id col w s
  = (downloadResult col w, inlineDownloaded entity id col w s).
Proof.
  unfold downloadFile, downloadResult, inlineDownloaded, downloadedName, bind, call,
    modify, await, gets, throw, ret.
  destruct (retrieved w) as [r|e]; [|reflexivity]. cbn -[getFileUrl].
  destruct (response w) as [e|st [bytes|e]]; try reflexivity;
    destruct (responseOk st); reflexivity.
Qed.

Lemma inlineDownloaded_fields (entity id col : string) (w : download_world) (s : state) :
  let s' := inlineDownloaded entity id col w s in
  context s' = context s
  /\ previewToolbarTitle s' = previewToolbarTitle s
  /\ downloadButton s' = downloadButton s
  /\ zoomWrapper s' = zoomWrapper s
  /\ zoomLevel s' = zoomLevel s
  /\ currentFileUrl s' = currentFileUrl s
  /\ currentFileName s' = currentFileName s
  /\ currentMimeType s' = currentMimeType s
  /\ worker s' = worker s
  /\ nextUrl (page s') = nextUrl (page s)
  /\ nextCanvas (page s') = nextCanvas (page s).
Proof. unfold inlineDownloaded. destruct (retrieved w); repeat split. Qed.

Lemma load_run (f : file) (s : state) :
  (bind (modify (set_currentFile (Some (fileName f)) (Some (mimeType f)))) (fun _ =>
   bind cleanupFileUrl (fun _ =>
   bind (createObjectURL FileBlob) (fun u =>
   bind (modify (set_currentFileUrl (Some u))) (fun _ =>
   modify (fun s =>
     match previewToolbarTitle s with
     | Some _ => set_title (Some (orElse (currentFileName s) "Document preview")) s
     | None => s
     end)))))) s
  = (Returned tt, inlineLoaded f s).
Proof.
  unfold inlineLoaded, cleanupFileUrl, createObjectURL, bind, call, modify.
  destruct s as [c t d z l u n m h k p]. destruct t, u; reflexivity.
Qed.

Lemma loadAction_run (ctx : Context) (check : outcome Js.record) (dw : download_world)
      (rw : render_world) (answer : worker_answer) (s : state) :
  loadAction ctx check dw rw answer s
  = let entity := toString (EntityLogicalName ctx) in
    let id := toString (entityId ctx) in
    let col := toString (FileColumnName ctx) in
    match check with
    | Thrown e => (Thrown e, checked ctx s)
    | Returned r =>
        if previewable r col then
          match downloadResult col dw with
          | Returned f =>
              renderFilePreview f rw answer
                (inlineLoaded f (inlineDownloaded entity id col dw (checked ctx s)))
          | Thrown e => (Thrown e, inlineDownloaded entity id col dw (checked ctx s))
          end
        else setInfoMessage msg_no_previewable (checked ctx s)
    end.
Proof.
  unfold loadAction, hasPreviewableAttachment. cbv zeta.
  unfold bind at 1. unfold bind at 1. unfold call, modify at 1. fold (checked ctx s).
  unfold bind at 1. unfold await at 1.
  destruct check as [r|e]; [|reflexivity].
  unfold ret at 1. destruct (previewable r (toString (FileColumnName ctx))); [|reflexivity].
  cbn [negb]. unfold bind at 1. rewrite downloadFile_run_inline.
  destruct (downloadResult _ dw) as [f|e]; [|reflexivity].
  pose proof (load_run f
                (inlineDownloaded (toString (EntityLogicalName ctx)) (toString (entityId ctx))
                   (toString (FileColumnName ctx)) dw (checked ctx s))) as H.
  unfold bind in *.
  destruct (modify (set_currentFile (Some (fileName f)) (Some (mimeType f))) _)
    as [[[]|e1] s1]; [|discriminate H].
  destruct (cleanupFileUrl s1) as [[[]|e2] s2]; [|discriminate H].
  destruct (createObjectURL FileBlob s2) as [[u|e3] s3]; [|discriminate H].
  destruct (modify (set_currentFileUrl (Some u)) s3) as [[[]|e4] s4]; [|discriminate H].
  match type of H with
  | ?m s4 = _ => destruct (m s4) as [[[]|e5] s5]; [|discriminate H]
  end.
  injection H as ->. reflexivity.
Qed.

Lemma autoLoadPreview_run (check : outcome Js.record) (dw : download_world)
      (rw : render_world) (answer : worker_answer) (s : state) (w : wrapper_dom) :
  zoomWrapper s = Some w ->
  Modal.configured (context s) = true ->
  autoLoadPreview check dw rw answer s
  = tryCatch (loadAction (context s) check dw rw answer)
             (fun err => setInfoMessage (errorMessage err)) s.
Proof.
  intros Hz Hc. unfold Modal.configured in Hc.
  apply andb_true_iff in Hc as [Hc H3]. apply andb_true_iff in Hc as [H1 H2].
  unfold autoLoadPreview, bind, gets. rewrite Hz, H1, H2, H3. cbn [negb andb].
  unfold tryCatch. destruct (loadAction (context s) check dw rw answer s) as [[[]|e] s1];
    [reflexivity|]. unfold errorMessage. now destruct (isForbidden e).
Qed.

(** [renderFilePreview] only touches the wrapper, the page and the
    worker. *)
Lemma renderFilePreview_fields_inline (f : file) (w : render_world) (answer : worker_answer)
      (s : state) :
  let s' := snd (renderFilePreview f w answer s) in
  context s' = context s
  /\ previewToolbarTitle s' = previewToolbarTitle s
  /\ downloadButton s' = downloadButton s
  /\ zoomLevel s' = zoomLevel s
  /\ currentFileUrl s' = currentFileUrl s
  /\ currentFileName s' = currentFileName s
  /\ currentMimeType s' = currentMimeType s
  /\ currentDownloadUrl s' = currentDownloadUrl s.
Proof.
  unfold renderFilePreview. destruct (zoomWrapper s) as [z|]; simpl.
  - unfold focus. destruct (renderSections (awaitWorker answer) f w (toSurface z s)) as [o r].
    simpl. repeat split.
  - repeat split.
Qed.

Lemma setInfoMessage_fields (text : string) (s : state) :
  let s' := snd (setInfoMessage text s) in
  context s' = context s
  /\ downloadButton s' = downloadButton s
  /\ zoomLevel s' = zoomLevel s
  /\ currentFileUrl s' = currentFileUrl s
  /\ currentFileName s' = currentFileName s
  /\ currentMimeType s' = currentMimeType s
  /\ currentDownloadUrl s' = currentDownloadUrl s
  /\ worker s' = worker s
  /\ page s' = page s
  /\ option_map transform (zoomWrapper s') = option_map transform (zoomWrapper s)
  /\ (forall w, zoomWrapper s = Some w ->
        option_map children (zoomWrapper s') = Some [InfoBlock text]
        /\ previewToolbarTitle s'
           = option_map (fun _ => "Document preview"%string) (previewToolbarTitle s)).
Proof.
  unfold setInfoMessage. destruct (zoomWrapper s) as [w|] eqn:Hz; simpl.
  - destruct (previewToolbarTitle s) eqn:Ht; simpl; rewrite ?Hz, ?Ht; repeat split.
  - rewrite Hz. repeat split; discriminate.
Qed.

End InlineRuns.

Section InlineCalls.
Import Inline.
Variable z0 : Num.number.
Variable t0 : option (option Num.number).
Variable b0 : bool.
Variable ok : effect -> bool.

(** The worker was asked for, and the zoom and the Download button are as
    they were. *)
Let settled := fun s : state =>
  pdfWorkerUrlPromise (worker s) <> None
  /\ zoomLevel s = z0
  /\ option_map transform (zoomWrapper s) = t0
  /\ downloadButton s = b0.
Let hist := fun s : state => history (page s).

Lemma emitsOnly_call_inline (e : effect) : ok e = true -> emitsOnly settled hist ok (call e).
Proof. intros He. apply (emitsOnly_one settled hist ok e); [exact He|]. now intros s Hs. Qed.

Lemma emitsOnly_set_inline (f : state -> state) :
  (forall s, page (f s) = page s) ->
  (forall s, worker (f s) = worker s) ->
  (forall s, zoomLevel (f s) = zoomLevel s) ->
  (forall s, option_map transform (zoomWrapper (f s)) = option_map transform (zoomWrapper s)) ->
  (forall s, downloadButton (f s) = downloadButton s) ->
  emitsOnly settled hist ok (modify f).
Proof.
  intros Hp Hw Hl Ht Hb. apply emitsOnly_modify.
  - intros s (H1 & H2 & H3 & H4). unfold settled. now rewrite Hw, Hl, Ht, Hb.
  - intros s. unfold hist. now rewrite Hp.
Qed.

Lemma emitsOnly_setInfoMessage (text : string) : emitsOnly settled hist ok (setInfoMessage text).
Proof.
  apply emitsOnly_same. intros s (H1 & H2 & H3 & H4).
  destruct (setInfoMessage_fields text s) as (_ & Hb & Hl & _ & _ & _ & _ & Hw & Hp & Ht & _).
  unfold settled, hist. now rewrite Hw, Hl, Ht, Hp, Hb.
Qed.

Hypothesis ok_revoke : forall u, ok (RevokeObjectURL u) = true.

Lemma emitsOnly_cleanupFileUrl_inline : emitsOnly settled hist ok cleanupFileUrl.
Proof.
  intros s Hs. unfold cleanupFileUrl.
  destruct (currentFileUrl s) as [u|]; [|split; [exact Hs | now exists []]].
  split; [exact Hs|]. exists [RevokeObjectURL u]. simpl. now rewrite ok_revoke.
Qed.

Lemma emitsOnly_destroy_inline : emitsOnly settled hist ok destroy.
Proof.
  unfold destroy. apply emitsOnly_bind; [apply emitsOnly_cleanupFileUrl_inline|].
  intros _ s Hs. destruct (pdfWorkerUrl (worker s)) as [u|]; [|split; [exact Hs | now exists []]].
  split; [exact Hs|]. exists [RevokeObjectURL u]. simpl. now rewrite ok_revoke.
Qed.

Hypothesis ok_retrieve : forall a b c, ok (RetrieveRecord a b c) = true.
Hypothesis ok_fetch : forall url, ok (Fetch url) = true.

Lemma emitsOnly_downloadFile_inline (entity id col : string) (w : download_world) :
  emitsOnly settled hist ok (downloadFile entity id col w).
Proof.
  unfold downloadFile.
  apply emitsOnly_bind; [now apply emitsOnly_call_inline|]. intros _.
  apply emitsOnly_bind; [apply emitsOnly_await|]. intros r.
  apply emitsOnly_bind; [apply emitsOnly_gets|]. intros c.
  apply emitsOnly_bind; [now apply emitsOnly_set_inline|]. intros _.
  apply emitsOnly_bind; [now apply emitsOnly_call_inline|]. intros _.
  destruct (response w) as [e|st body]; [apply emitsOnly_throw|].
  destruct (negb (responseOk st)); [apply emitsOnly_throw|].
  apply emitsOnly_bind; [apply emitsOnly_await|]. intros b. apply emitsOnly_ret.
Qed.

Hypothesis ok_rendering : forall e, isRendering e = true -> ok e = true.

Lemma emitsOnly_renderFilePreview_inline (f : file) (w : render_world)
      (answer : worker_answer) :
  emitsOnly settled hist ok (renderFilePreview f w answer).
Proof.
  intros s Hs. unfold renderFilePreview.
  destruct (zoomWrapper s) as [z|] eqn:Hz; [|split; [exact Hs | now exists []]].
  destruct Hs as (H1 & H2 & H3 & H4). rewrite Hz in H3. simpl in H3.
  set (J := fun r : surface worker_state =>
              pdfWorkerUrlPromise (self r) <> None /\ Some (transform (area r)) = t0).
  assert (HJ : forall r r' : surface worker_state,
             self r' = self r -> transform (area r') = transform (area r) -> J r -> J r').
  { intros r r' Hs' Ht' [Ha Hb]. unfold J. now rewrite Hs', Ht'. }
  assert (Hprep : emitsOnly J (fun r => history (env r)) ok (awaitWorker answer)).
  { apply emitsOnly_same. intros r [Ha Hb].
    rewrite (awaitWorker_cached answer r Ha). now split. }
  destruct (emitsOnly_renderSections J ok HJ ok_rendering (awaitWorker answer) f w Hprep
              (toSurface z s) (conj H1 H3)) as ([Ha Hb] & d & Hh & Hd).
  unfold focus. destruct (renderSections (awaitWorker answer) f w (toSurface z s)) as [o r].
  simpl in *. split; [|now exists d].
  unfold settled. simpl. auto.
Qed.

Hypothesis ok_create : forall u, ok (CreateObjectURL u FileBlob) = true.

Lemma emitsOnly_updateView_inline (ctx : Context) (check : outcome Js.record)
      (dw : download_world) (rw : render_world) (answer : worker_answer) :
  emitsOnly settled hist ok (updateView ctx check dw rw answer).
Proof.
  unfold updateView. apply emitsOnly_bind; [now apply emitsOnly_set_inline|]. intros _.
  unfold autoLoadPreview. apply emitsOnly_bind; [apply emitsOnly_gets|].
  intros [z|]; [|apply emitsOnly_ret].
  apply emitsOnly_bind; [apply emitsOnly_gets|]. intros c.
  destruct (negb (Js.truthy (entityId c))); [apply emitsOnly_setInfoMessage|].
  destruct (negb _); [apply emitsOnly_setInfoMessage|].
  apply emitsOnly_tryCatch.
  2:{ intros e. destruct (isForbidden e); apply emitsOnly_setInfoMessage. }
  unfold loadAction, hasPreviewableAttachment. cbv zeta.
  apply emitsOnly_bind.
  { apply emitsOnly_bind; [now apply emitsOnly_call_inline|]. intros _.
    apply emitsOnly_bind; [apply emitsOnly_await|]. intros r. apply emitsOnly_ret. }
  intros [|]; cbn [negb]; [|apply emitsOnly_setInfoMessage].
  apply emitsOnly_bind; [apply emitsOnly_downloadFile_inline|]. intros f.
  apply emitsOnly_bind; [now apply emitsOnly_set_inline|]. intros _.
  apply emitsOnly_bind; [apply emitsOnly_cleanupFileUrl_inline|]. intros _.
  apply emitsOnly_bind.
  { intros s Hs. split; [exact Hs|].
    exists [CreateObjectURL (nextUrl (page s)) FileBlob]. simpl. now rewrite ok_create. }
  intros u.
  apply emitsOnly_bind; [now apply emitsOnly_set_inline|]. intros _.
  apply emitsOnly_bind.
  { apply emitsOnly_set_inline; intros s; now destruct (previewToolbarTitle s). }
  intros _. apply emitsOnly_renderFilePreview_inline.
Qed.

End InlineCalls.

Section InlineSteps.
Import Inline.

(** The states [updateView] can end in. *)
Lemma updateView_cases (s : state) (ctx : Context) (check : outcome Js.record)
      (dw : download_world) (rw : render_world) (answer : worker_answer) :
  let s0 := set_context ctx s in
  let entity := toString (EntityLogicalName ctx) in
  let id := toString (entityId ctx) in
  let col := toString (FileColumnName ctx) in
  let s' := step s (UpdateView ctx check dw rw answer) in
  s' = s0
  \/ (exists text, s' = snd (setInfoMessage text s0))
  \/ (exists text, s' = snd (setInfoMessage text (checked ctx s0)))
  \/ (exists text,
        s' = snd (setInfoMessage text (inlineDownloaded entity id col dw (checked ctx s0))))
  \/ (exists f,
        downloadResult col dw = Returned f
        /\ let r := renderFilePreview f rw answer
                      (inlineLoaded f (inlineDownloaded entity id col dw (checked ctx s0))) in
           (s' = snd r \/ exists text, s' = snd (setInfoMessage text (snd r)))).
Proof.
  intros s0 entity id col s'.
  assert (Hs' : s' = snd (autoLoadPreview check dw rw answer s0)) by reflexivity.
  assert (Hctx : context s0 = ctx) by reflexivity.
  destruct (zoomWrapper s0) as [w|] eqn:Hz.
  2:{ left. rewrite Hs'. unfold autoLoadPreview, bind, gets. now rewrite Hz. }
  right.
  destruct (Js.truthy (entityId ctx)) eqn:H1.
  2:{ left. exists msg_save_record. rewrite Hs'.
      unfold autoLoadPreview, bind, gets. rewrite Hz, Hctx. now rewrite H1. }
  destruct (Js.truthy (EntityLogicalName ctx) && Js.truthy (FileColumnName ctx))%bool eqn:H2.
  2:{ left. exists msg_missing_config. rewrite Hs'.
      unfold autoLoadPreview, bind, gets. rewrite Hz, Hctx. now rewrite H1, H2. }
  assert (Hc : Modal.configured (context s0) = true).
  { unfold Modal.configured. rewrite Hctx.
    apply andb_true_iff in H2 as [H2 H3]. now rewrite H1, H2, H3. }
  right. rewrite Hs', (autoLoadPreview_run check dw rw answer s0 w Hz Hc).
  unfold tryCatch. rewrite loadAction_run. cbv zeta. rewrite Hctx.
  fold entity. fold id. fold col.
  destruct check as [r|e]; [|left; now exists (errorMessage e)].
  destruct (previewable r col).
  2:{ left. exists msg_no_previewable.
      pose proof (setInfoMessage_returns msg_no_previewable (checked ctx s0)) as Hret.
      destruct (setInfoMessage msg_no_previewable (checked ctx s0)) as [[[]|e] s1];
        [reflexivity | discriminate Hret]. }
  right. destruct (downloadResult col dw) as [f|e] eqn:Hd;
    [right | left; now exists (errorMessage e)].
  exists f. split; [reflexivity|]. cbv zeta.
  destruct (renderFilePreview f rw answer _) as [[[]|e] s2]; [now left|].
  right. now exists (errorMessage e).
Qed.

Lemma downloadResult_retrieved (col : string) (dw : download_world) (f : file) :
  downloadResult col dw = Returned f -> exists r, retrieved dw = Returned r.
Proof. unfold downloadResult. destruct (retrieved dw) as [r|e]; [eauto | discriminate]. Qed.

Lemma setInfoMessage_known (text : string) (s : state) :
  downloadKnown s -> downloadKnown (snd (setInfoMessage text s)).
Proof.
  destruct (setInfoMessage_fields text s) as (_ & _ & _ & Hu & _ & _ & Hd & _).
  unfold downloadKnown. now rewrite Hu, Hd.
Qed.

Lemma inlineDownloaded_known (entity id col : string) (dw : download_world) (s : state) :
  downloadKnown s -> downloadKnown (inlineDownloaded entity id col dw s).
Proof.
  unfold downloadKnown, inlineDownloaded. destruct (retrieved dw); [|auto].
  intros _ _. cbn -[getFileUrl]. apply value_url_nonempty.
Qed.

Lemma updateView_known (s : state) (ctx : Context) (check : outcome Js.record)
      (dw : download_world) (rw : render_world) (answer : worker_answer) :
  downloadKnown s -> downloadKnown (step s (UpdateView ctx check dw rw answer)).
Proof.
  intros H.
  assert (H0 : downloadKnown (set_context ctx s)) by exact H.
  assert (H1 : downloadKnown (checked ctx (set_context ctx s))) by exact H.
  destruct (updateView_cases s ctx check dw rw answer)
    as [->|[[text ->]|[[text ->]|[[text ->]|(f & Hd & Hr)]]]].
  - exact H0.
  - now apply setInfoMessage_known.
  - now apply setInfoMessage_known.
  - now apply setInfoMessage_known, inlineDownloaded_known.
  - cbv zeta in Hr.
    set (s2 := inlineLoaded f _) in Hr.
    assert (H2 : downloadKnown (snd (renderFilePreview f rw answer s2))).
    { destruct (renderFilePreview_fields_inline f rw answer s2)
        as (_ & _ & _ & _ & Hu & _ & _ & Hdl).
      unfold downloadKnown. rewrite Hu, Hdl. intros _.
      destruct (downloadResult_retrieved _ dw f Hd) as [r Hret].
      unfold s2, inlineLoaded, inlineDownloaded. rewrite Hret. cbn -[getFileUrl].
      apply value_url_nonempty. }
    destruct Hr as [->|[text ->]]; [exact H2 | now apply setInfoMessage_known].
Qed.

Lemma applyZoom_fields_inline (z : Num.number) (s : state) :
  let s' := snd (applyZoom z s) in
  currentFileUrl s' = currentFileUrl s
  /\ currentDownloadUrl s' = currentDownloadUrl s
  /\ worker s' = worker s
  /\ page s' = page s.
Proof. unfold applyZoom. destruct (zoomWrapper s); repeat split. Qed.

Lemma download_click_inline (s : state) :
  downloadKnown s ->
  step s DownloadClick = s
  \/ exists href,
       currentDownloadUrl s = Some href
       /\ step s DownloadClick = set_page (record_effect (Navigate href) (page s)) s.
Proof.
  intros H. unfold step, handle, downloadCurrentFile, bind, gets. simpl.
  destruct (downloadButton s); [|now left].
  destruct (currentDownloadUrl s) as [[|c r]|] eqn:Hd.
  - destruct (currentFileUrl s) as [u|] eqn:Hu; [|now left].
    unfold downloadKnown in H. rewrite Hu, Hd in H.
    destruct H as (c & r & Hcr); [discriminate | discriminate Hcr].
  - right. now exists (String c r).
  - destruct (currentFileUrl s) as [u|] eqn:Hu; [|now left].
    unfold downloadKnown in H. rewrite Hu, Hd in H.
    destruct H as (c & r & Hcr); [discriminate | discriminate Hcr].
Qed.

Lemma download_click_cases_inline (s : state) :
  step s DownloadClick = s
  \/ exists c, step s DownloadClick = set_page (record_effect c (page s)) s.
Proof.
  unfold step, handle, downloadCurrentFile, bind, gets, call, modify. simpl.
  destruct (downloadButton s); [|now left].
  destruct (currentDownloadUrl s) as [[|c r]|], (currentFileUrl s);
    first [now left | right; eexists; reflexivity].
Qed.

Lemma open_document_click_inline (s : state) :
  step s OpenDocumentClick = s
  \/ exists u,
       currentFileUrl s = Some u
       /\ step s OpenDocumentClick
          = set_page (record_effect (NavigateObjectURL u) (page s)) s.
Proof.
  unfold step, handle, onOpenDocumentClick, bind, gets. simpl.
  destruct (zoomWrapper s) as [w|]; [|now left].
  destruct (showsLegacyCard w); [|now left].
  destruct (currentFileUrl s) as [u|]; [|now left].
  right. now exists u.
Qed.

Lemma destroy_fields_inline (s : state) :
  let s' := step s Destroy in
  currentFileUrl s' = None
  /\ pdfWorkerUrl (worker s') = None
  /\ pdfWorkerUrlPromise (worker s') = pdfWorkerUrlPromise (worker s)
  /\ zoomLevel s' = zoomLevel s
  /\ zoomWrapper s' = zoomWrapper s
  /\ currentDownloadUrl s' = currentDownloadUrl s
  /\ downloadButton s' = downloadButton s.
Proof.
  unfold step, handle, destroy, cleanupFileUrl, bind, call, modify.
  destruct s as [c t d z l u n m h [wu wp] p]. destruct u, wu; repeat split.
Qed.

Lemma step_known (s : state) (e : event) : downloadKnown s -> downloadKnown (step s e).
Proof.
  intros H. destruct e.
  - now apply updateView_known.
  - unfold step, handle, bind, gets. unfold downloadKnown.
    now destruct (applyZoom_fields_inline (Num.sub (zoomLevel s) Num.tenth) s)
      as (-> & -> & _).
  - unfold step, handle, bind, gets. unfold downloadKnown.
    now destruct (applyZoom_fields_inline (Num.add (zoomLevel s) Num.tenth) s)
      as (-> & -> & _).
  - unfold step, handle. unfold downloadKnown.
    now destruct (applyZoom_fields_inline Num.one s) as (-> & -> & _).
  - destruct (download_click_inline s H) as [->|(href & _ & ->)]; exact H.
  - destruct (open_document_click_inline s) as [->|(u & _ & ->)]; exact H.
  - destruct (destroy_fields_inline s) as (Hu & _). unfold downloadKnown.
    rewrite Hu. now intros [].
Qed.

Lemma callsOfInline_update_rendering ctx check dw rw answer (c : effect) :
  isRendering c = true -> callsOfInline (UpdateView ctx check dw rw answer) c = true.
Proof. destruct c; try discriminate; reflexivity. Qed.

Lemma step_calls_inline (s : state) (e : event) :
  pdfWorkerUrlPromise (worker s) <> None ->
  downloadKnown s ->
  exists delta,
    history (page (step s e)) = delta ++ history (page s)
    /\ forallb (callsOfInline e) delta = true.
Proof.
  intros Hp Hk. destruct e.
  - apply (emitsOnly_updateView_inline (zoomLevel s) (option_map transform (zoomWrapper s))
             (downloadButton s) (callsOfInline (UpdateView ctx check dw rw answer)));
      try reflexivity; try (now repeat split).
    apply callsOfInline_update_rendering.
  - exists []. unfold step, handle, bind, gets.
    now destruct (applyZoom_fields_inline (Num.sub (zoomLevel s) Num.tenth) s)
      as (_ & _ & _ & ->).
  - exists []. unfold step, handle, bind, gets.
    now destruct (applyZoom_fields_inline (Num.add (zoomLevel s) Num.tenth) s)
      as (_ & _ & _ & ->).
  - exists []. unfold step, handle.
    now destruct (applyZoom_fields_inline Num.one s) as (_ & _ & _ & ->).
  - destruct (download_click_inline s Hk) as [->|(href & _ & ->)];
      [now exists [] | now exists [Navigate href]].
  - destruct (open_document_click_inline s) as [->|(u & _ & ->)];
      [now exists [] | now exists [NavigateObjectURL u]].
  - apply (emitsOnly_destroy_inline (zoomLevel s) (option_map transform (zoomWrapper s))
             (downloadButton s) (callsOfInline Destroy)); try reflexivity; now repeat split.
Qed.

Lemma step_settled (s : state) (e : event) :
  isZoomClick e = false ->
  pdfWorkerUrlPromise (worker s) <> None ->
  zoomLevel (step s e) = zoomLevel s
  /\ option_map transform (zoomWrapper (step s e)) = option_map transform (zoomWrapper s)
  /\ downloadButton (step s e) = downloadButton s.
Proof.
  intros He Hp. destruct e; try discriminate He.
  - destruct (emitsOnly_updateView_inline (zoomLevel s)
                (option_map transform (zoomWrapper s)) (downloadButton s) (fun _ => true)
                (fun _ => eq_refl) (fun _ _ _ => eq_refl) (fun _ => eq_refl)
                (fun _ _ => eq_refl) (fun _ => eq_refl) ctx check dw rw answer s
                (conj Hp (conj eq_refl (conj eq_refl eq_refl)))) as ((_ & H1 & H2 & H3) & _).
    now repeat split.
  - now destruct (download_click_cases_inline s) as [->|(c & ->)].
  - now destruct (open_document_click_inline s) as [->|(u & _ & ->)].
  - destruct (destroy_fields_inline s) as (_ & _ & _ & -> & -> & _ & ->). now repeat split.
Qed.

End InlineSteps.

(* ===================================================================== *)
(** ** The inline control: what its handlers do *)
(* ===================================================================== *)

Section InlineReach.
Import Inline.

Lemma liveFileUrls_entries (h : list effect) (u : nat) (w : option nat) :
  liveUrls h = fileEntry (Some u) ++ workerEntry w -> liveFileUrls h = [u].
Proof. intros H. unfold liveFileUrls. rewrite H. now destruct w. Qed.

Lemma run_known (ctx : Context) (answer : worker_answer) (es : list event) :
  let s := run (init ctx answer) es in
  inlineInv s /\ downloadKnown s.
Proof.
  unfold run. apply (fold_left_invariant (fun s => inlineInv s /\ downloadKnown s)).
  - intros s e [Hi Hk]. split; [now apply step_keeps_inline | now apply step_known].
  - split; [apply inlineInv_init|].
    unfold downloadKnown. now destruct answer as [[|]|].
Qed.

Lemma resourceRequests_app (d h : list effect) :
  forallb inlineCall d = true ->
  resourceRequests (d ++ h) = resourceRequests h /\ alerts (d ++ h) = alerts h.
Proof.
  induction d as [|c d IH]; [now split|]. simpl. intros H.
  apply andb_true_iff in H as [Hc Hd]. destruct (IH Hd) as [IH1 IH2].
  unfold resourceRequests in *. simpl.
  destruct c; try discriminate Hc; simpl; now rewrite ?IH1, ?IH2.
Qed.

Lemma step_wrapper (s : state) (e : event) :
  pdfWorkerUrlPromise (worker s) <> None ->
  (exists w, zoomWrapper s = Some w) -> exists w, zoomWrapper (step s e) = Some w.
Proof.
  intros Hp [w Hw].
  destruct (isZoomClick e) eqn:He.
  - destruct e; try discriminate He;
      unfold step, handle, bind, gets, applyZoom; rewrite Hw; simpl; eauto.
  - destruct (step_settled s e He Hp) as (_ & Ht & _). rewrite Hw in Ht.
    destruct (zoomWrapper (step s e)) as [w'|]; [eauto | discriminate Ht].
Qed.

Lemma run_wrapper (ctx : Context) (answer : worker_answer) (es : list event) :
  exists w, zoomWrapper (run (init ctx answer) es) = Some w.
Proof.
  assert (H : inlineInv (run (init ctx answer) es)
              /\ exists w, zoomWrapper (run (init ctx answer) es) = Some w);
    [|now destruct H].
  unfold run.
  apply (fold_left_invariant (fun s => inlineInv s /\ exists w, zoomWrapper s = Some w)).
  - intros s e [Hi Hw]. split; [now apply step_keeps_inline|].
    destruct Hi as (_ & _ & _ & Hp & _). now apply step_wrapper.
  - split; [apply inlineInv_init|]. destruct answer as [[|]|]; eexists; reflexivity.
Qed.

Lemma run_button (ctx : Context) (answer : worker_answer) (es : list event) :
  downloadButton (run (init ctx answer) es) = EnableDownload ctx.
Proof.
  assert (H : inlineInv (run (init ctx answer) es)
              /\ downloadButton (run (init ctx answer) es) = EnableDownload ctx);
    [|now destruct H].
  unfold run.
  apply (fold_left_invariant (fun s => inlineInv s /\ downloadButton s = EnableDownload ctx)).
  - intros s e [Hi Hb]. split; [now apply step_keeps_inline|].
    destruct Hi as (_ & _ & _ & Hp & _). rewrite <- Hb.
    destruct (isZoomClick e) eqn:He.
    + destruct e; try discriminate He;
        unfold step, handle, bind, gets, applyZoom; now destruct (zoomWrapper s).
    + now destruct (step_settled s e He Hp) as (_ & _ & ->).
  - split; [apply inlineInv_init|]. now destruct answer as [[|]|].
Qed.

Lemma callsOfInline_inlineCall (e : event) (c : effect) :
  callsOfInline e c = true -> inlineCall c = true.
Proof. destruct e, c; try discriminate; try reflexivity. now destruct k. Qed.

End InlineReach.

(** X13: where the buttons of the inline control lead.  In every state the
    control reaches, an object URL held in [currentFileUrl] is live, it is
    the only live URL of a file, and the [$value] address of the download
    is known with it.  So the Download button, when it does anything,
    navigates to that address and never to the object URL (the second
    branch of [downloadCurrentFile] is never taken), and the "Open
    document" button of a legacy .doc file, when it does anything, opens
    the live object URL of the file. *)
Theorem inline_navigation_targets (ctx : Context) (answer : Inline.worker_answer)
    (es : list Inline.event) :
  let s := Inline.run (Inline.init ctx answer) es in
  (forall u, Inline.currentFileUrl s = Some u ->
     liveFileUrls (history (Inline.page s)) = [u]
     /\ exists href, Inline.currentDownloadUrl s = Some href /\ href <> EmptyString)
  /\ (Inline.step s Inline.DownloadClick = s
      \/ exists href,
           Inline.currentDownloadUrl s = Some href
           /\ Inline.step s Inline.DownloadClick
              = Inline.set_page (record_effect (Navigate href) (Inline.page s)) s)
  /\ (Inline.step s Inline.OpenDocumentClick = s
      \/ exists u,
           liveFileUrls (history (Inline.page s)) = [u]
           /\ Inline.step s Inline.OpenDocumentClick
              = Inline.set_page (record_effect (NavigateObjectURL u) (Inline.page s)) s).
Proof.
  intros s. destruct (run_known ctx answer es) as [Hi Hk]. fold s in Hi, Hk.
  destruct Hi as (Hl & _).
  assert (Hlive : forall u, Inline.currentFileUrl s = Some u ->
                            liveFileUrls (history (Inline.page s)) = [u]).
  { intros u Hu. rewrite Hu in Hl. now apply liveFileUrls_entries in Hl. }
  split; [|split].
  - intros u Hu. split; [now apply Hlive|].
    destruct Hk as (c & r & Hd); [now rewrite Hu|].
    exists (String c r). now split.
  - now apply download_click_inline.
  - destruct (open_document_click_inline s) as [H|(u & Hu & H)]; [now left|].
    right. exists u. split; [now apply Hlive | exact H].
Qed.

(** X14: the calls of the inline control.  [init] asks the host for the
    pdf.js worker, and in every state the control reaches that request is
    the only one ever made: [ensurePdfWorkerUrl] answers from its cache.
    The control never calls [alert].  [updateView] makes no call but
    [retrieveRecord], [fetch], [createObjectURL] of the file,
    [revokeObjectURL] and those of the rendering libraries; the Download
    button only navigates to an address, "Open document" only to an object
    URL, [destroy] only revokes, and the zoom buttons make no call. *)
Theorem inline_calls (ctx : Context) (answer : Inline.worker_answer)
    (es : list Inline.event) :
  let s := Inline.run (Inline.init ctx answer) es in
  resourceRequests (history (Inline.page s)) = 1%nat
  /\ alerts (history (Inline.page s)) = []
  /\ (exists calls,
        history (Inline.page s) = calls ++ history (Inline.page (Inline.init ctx answer))
        /\ forallb inlineCall calls = true)
  /\ forall e, exists delta,
       history (Inline.page (Inline.step s e)) = delta ++ history (Inline.page s)
       /\ forallb (callsOfInline e) delta = true.
Proof.
  intros s.
  assert (H : (inlineInv s /\ downloadKnown s)
              /\ exists calls,
                   history (Inline.page s)
                   = calls ++ history (Inline.page (Inline.init ctx answer))
                   /\ forallb inlineCall calls = true).
  { unfold s, Inline.run.
    apply (fold_left_invariant
             (fun s => (inlineInv s /\ downloadKnown s)
                       /\ exists calls,
                            history (Inline.page s)
                            = calls ++ history (Inline.page (Inline.init ctx answer))
                            /\ forallb inlineCall calls = true)).
    - intros s0 e [[Hi Hk] (calls & Hh & Hc)].
      split; [split; [now apply step_keeps_inline | now apply step_known]|].
      destruct Hi as (_ & _ & _ & Hp & _).
      destruct (step_calls_inline s0 e Hp Hk) as (d & Hd & Hok).
      exists (d ++ calls). rewrite Hd, Hh, app_assoc. split; [reflexivity|].
      rewrite forallb_app, Hc, andb_true_r.
      rewrite forallb_forall in *. intros c Hin.
      apply (callsOfInline_inlineCall e), Hok, Hin.
    - split; [|now exists []].
      split; [apply inlineInv_init|].
      unfold downloadKnown. now destruct answer as [[|]|]. }
  destruct H as [[Hi Hk] (calls & Hh & Hc)].
  destruct (resourceRequests_app calls (history (Inline.page (Inline.init ctx answer))) Hc)
    as [Hr Ha].
  rewrite Hh, Hr, Ha.
  split; [now destruct answer as [[|]|]|].
  split; [now destruct answer as [[|]|]|].
  split; [now exists calls|].
  intros e. rewrite <- Hh. destruct Hi as (_ & _ & _ & Hp & _).
  now apply step_calls_inline.
Qed.

(** X15: what a refresh of the inline control leaves alone.  In every
    state the control reaches, [updateView], whatever the host answers and
    whatever is then shown (a file, a message), keeps the zoom factor and
    the scale written on the wrapper, and so does [destroy]: the user's
    zoom survives a refresh of the form.  The Download button is decided
    once, by [EnableDownload] as it was at [init]: no later context changes
    it.  (The modal control sets the zoom back to 1 and reads
    [EnableDownload] again each time it opens.) *)
Theorem updateView_keeps_zoom (ctx : Context) (answer : Inline.worker_answer)
    (es : list Inline.event) :
  let s := Inline.run (Inline.init ctx answer) es in
  (forall ctx' check dw rw answer',
     let s' := Inline.step s (Inline.UpdateView ctx' check dw rw answer') in
     Inline.zoomLevel s' = Inline.zoomLevel s
     /\ option_map transform (Inline.zoomWrapper s')
        = option_map transform (Inline.zoomWrapper s)
     /\ option_map transform (Inline.zoomWrapper s') = Some (Some (Inline.zoomLevel s')))
  /\ Inline.zoomLevel (Inline.step s Inline.Destroy) = Inline.zoomLevel s
  /\ Inline.zoomWrapper (Inline.step s Inline.Destroy) = Inline.zoomWrapper s
  /\ Inline.downloadButton s = EnableDownload ctx.
Proof.
  intros s. destruct (run_known ctx answer es) as [Hi _]. fold s in Hi.
  assert (Hw : exists w, Inline.zoomWrapper s = Some w) by apply run_wrapper.
  destruct Hi as (_ & _ & _ & Hp & _ & _ & Hscale).
  split; [|split; [|split]].
  - intros ctx' check dw rw answer' s'.
    destruct (step_settled s (Inline.UpdateView ctx' check dw rw answer') eq_refl Hp)
      as (H1 & H2 & _).
    fold s' in H1, H2. split; [exact H1|]. split; [exact H2|].
    rewrite H2, H1. destruct Hw as [w Hw]. rewrite Hw in *. simpl in *. now rewrite Hscale.
  - now destruct (destroy_fields_inline s) as (_ & _ & _ & H1 & _).
  - now destruct (destroy_fields_inline s) as (_ & _ & _ & _ & H2 & _).
  - apply run_button.
Qed.

(** X12: a successful refresh of the inline control, step by step.  From a
    state the control reaches, when the control is configured, the check
    passes, [retrieveRecord] resolves again for the download, [fetch]
    answers with an OK status and a body that decodes, and docx-preview
    does not reject a Word file, [updateView] leaves: a new object URL in
    [currentFileUrl], which is the only live URL of a file (the previous
    one was revoked before); the name, the type and the [$value] address
    of the file; the file name in the toolbar; in the wrapper the output of
    the section of the file name; the worker as it was.  The calls were, in
    this order: [retrieveRecord] for the check, [retrieveRecord] and
    [fetch] for the download, [revokeObjectURL] of the previous URL if
    there was one, [createObjectURL], then those of the rendering. *)
Theorem updateView_shows_file (ctx0 : Context) (answer0 : Inline.worker_answer)
    (es : list Inline.event) (ctx : Context) (r0 r : Js.record) (dw : download_world)
    (rw : render_world) (answer : Inline.worker_answer) (httpStatus : Z) (bytes : string) :
  Modal.configured ctx = true ->
  previewable r0 (toString (FileColumnName ctx)) = true ->
  retrieved dw = Returned r ->
  response dw = Response httpStatus (Returned bytes) ->
  responseOk httpStatus = true ->
  (sectionOfName (downloadedName r (toString (FileColumnName ctx))) <> DocxBranch
   \/ docx rw = Returned tt) ->
  let col := toString (FileColumnName ctx) in
  let name := downloadedName r col in
  let f := {| blob := bytes; fileName := name; mimeType := mimeTypeOf name |} in
  let url := getFileUrl ctx (toString (entityId ctx)) col in
  let retrieve := RetrieveRecord (toString (EntityLogicalName ctx)) (toString (entityId ctx))
                    (selectQuery col) in
  let s := Inline.run (Inline.init ctx0 answer0) es in
  let s' := Inline.step s (Inline.UpdateView ctx (Returned r0) dw rw answer) in
  let u := nextUrl (Inline.page s) in
  Inline.currentFileUrl s' = Some u
  /\ liveFileUrls (history (Inline.page s')) = [u]
  /\ Inline.currentFileName s' = Some name
  /\ Inline.currentMimeType s' = Some (mimeTypeOf name)
  /\ Inline.currentDownloadUrl s' = Some (url ++ "/$value")%string
  /\ Inline.previewToolbarTitle s'
     = option_map (fun _ => name) (Inline.previewToolbarTitle s)
  /\ (exists z, Inline.zoomWrapper s' = Some z
                /\ sectionOutput (sectionOfName name) f rw (nextCanvas (Inline.page s))
                     (children z))
  /\ Inline.worker s' = Inline.worker s
  /\ exists shown,
       history (Inline.page s')
       = shown ++ [CreateObjectURL u FileBlob]
           ++ match Inline.currentFileUrl s with
              | Some v => [RevokeObjectURL v]
              | None => []
              end
           ++ [Fetch url; retrieve; retrieve] ++ history (Inline.page s)
       /\ forallb isRendering shown = true.
Proof.
  intros Hc Hp Hr Hf Hok Hdocx col name f url retrieve s s' u.
  destruct (run_known ctx0 answer0 es) as [Hi _]. fold s in Hi.
  destruct (run_wrapper ctx0 answer0 es) as [w Hw]. fold s in Hw.
  assert (Hi' : inlineInv s') by now apply step_keeps_inline.
  pose proof Hi as (_ & _ & _ & Hprom & _).
  set (s0 := Inline.set_context ctx s).
  assert (Hs' : s' = snd (Inline.autoLoadPreview (Returned r0) dw rw answer s0))
    by reflexivity.
  assert (Hctx : Inline.context s0 = ctx) by reflexivity.
  assert (Hw0 : Inline.zoomWrapper s0 = Some w) by exact Hw.
  assert (Hc0 : Modal.configured (Inline.context s0) = true) by now rewrite Hctx.
  rewrite (autoLoadPreview_run (Returned r0) dw rw answer s0 w Hw0 Hc0) in Hs'.
  unfold tryCatch in Hs'. rewrite loadAction_run in Hs'. cbv beta iota zeta in Hs'.
  rewrite Hctx in Hs'. rewrite Hp in Hs'. fold col in Hs'.
  rewrite (downloadResult_ok col dw r httpStatus bytes Hr Hf Hok) in Hs'.
  fold name in Hs'. fold f in Hs'.
  set (s2 := inlineLoaded f
               (inlineDownloaded (toString (EntityLogicalName ctx)) (toString (entityId ctx))
                  col dw (checked ctx s0))) in Hs'.
  assert (Hs2 : s2
    = {| Inline.context := ctx;
         Inline.previewToolbarTitle :=
           match Inline.previewToolbarTitle s with
           | Some _ => Some (orElse (Some name) "Document preview")
           | None => None
           end;
         Inline.downloadButton := Inline.downloadButton s;
         Inline.zoomWrapper := Some w;
         Inline.zoomLevel := Inline.zoomLevel s;
         Inline.currentFileUrl := Some u;
         Inline.currentFileName := Some name;
         Inline.currentMimeType := Some (mimeTypeOf name);
         Inline.currentDownloadUrl := Some (url ++ "/$value")%string;
         Inline.worker := Inline.worker s;
         Inline.page :=
           {| history :=
                CreateObjectURL u FileBlob
                  :: match Inline.currentFileUrl s with
                     | Some v => [RevokeObjectURL v]
                     | None => []
                     end ++ [Fetch url; retrieve; retrieve] ++ history (Inline.page s);
              nextUrl := S u;
              nextCanvas := nextCanvas (Inline.page s) |} |}).
  { unfold s2, inlineLoaded, inlineDownloaded. rewrite Hr. cbn -[getFileUrl].
    now rewrite Hw. }
  clearbody s2. subst s2.
  match type of Hs' with
  | context [Inline.renderFilePreview f rw answer ?t] => set (s2 := t) in Hs'
  end.
  assert (Hz2 : Inline.zoomWrapper s2 = Some w) by reflexivity.
  rewrite (renderFilePreview_inline f rw answer s2 w Hz2) in Hs'.
  set (r1 := Inline.toSurface w s2) in Hs'.
  destruct (renderSections_output (Inline.awaitWorker answer) f rw r1
              (harmless_awaitWorker answer)) as [Hret Hout].
  assert (Hsec : dispatch f = sectionOfName name) by apply dispatch_downloaded.
  assert (Hfst : fst (renderSections (Inline.awaitWorker answer) f rw r1) = Returned tt).
  { destruct Hdocx as [Hn|Hd].
    - apply Hret. now rewrite Hsec.
    - destruct (dispatch f) eqn:Hdis; try (apply Hret; discriminate).
      destruct (renderSections_docx (Inline.awaitWorker answer) f rw r1 Hdis) as [-> _].
      exact Hd. }
  set (J := fun r : surface Inline.worker_state =>
              Inline.pdfWorkerUrlPromise (self r) <> None).
  assert (HJ : forall r r' : surface Inline.worker_state,
             self r' = self r -> transform (area r') = transform (area r) -> J r -> J r').
  { intros x x' Hs _ H. unfold J. now rewrite Hs. }
  assert (Hprep : emitsOnly J (fun x => history (env x)) isRendering
                    (Inline.awaitWorker answer)).
  { apply emitsOnly_same. intros x Hx. rewrite (awaitWorker_cached answer x Hx). now split. }
  destruct (emitsOnly_renderSections J isRendering HJ (fun _ H => H)
              (Inline.awaitWorker answer) f rw Hprep r1 Hprom)
    as (_ & shown & Hshown & Hren).
  destruct (quiet_renderSections _ (Inline.awaitWorker answer) f rw
              stable_cached (quiet_awaitWorker answer) r1 Hprom)
    as (_ & _ & _ & _ & _ & Hself).
  rewrite Hsec in Hout.
  set (out := renderSections (Inline.awaitWorker answer) f rw r1) in *.
  rewrite Hfst in Hs'. cbn [fst snd] in Hs'.
  assert (Hu : Inline.currentFileUrl s' = Some u) by now rewrite Hs'.
  split; [exact Hu|]. split.
  { destruct Hi' as (Hl & _). rewrite Hu in Hl. now apply liveFileUrls_entries in Hl. }
  rewrite Hs'. cbn -[sectionOutput orElse].
  split; [reflexivity|]. split; [reflexivity|]. split; [reflexivity|]. split.
  { destruct (Inline.previewToolbarTitle s); [|reflexivity]. cbn [option_map].
    f_equal. apply orElse_downloadedName. }
  split; [exists (area (snd out)); now split|].
  split; [exact Hself|].
  exists shown. split; [exact Hshown | exact Hren].
Qed.

Lemma updateView_shows_file_witness :
  let s := Inline.run (Inline.init sampleContext (Inline.ResourceLoaded true)) [] in
  let s' := Inline.step s
              (Inline.UpdateView sampleContext (Returned (sampleRecord "old.doc"))
                 (sampleDownload "old.doc") sampleRender (Inline.ResourceLoaded true)) in
  Inline.currentFileUrl s' = Some 1%nat
  /\ Inline.previewToolbarTitle s' = Some "old.doc"%string.
Proof.
  intros s s'.
  assert (Hne : sectionOfName (downloadedName (sampleRecord "old.doc")
                                 (toString (FileColumnName sampleContext)))
                <> DocxBranch) by discriminate.
  destruct (updateView_shows_file sampleContext (Inline.ResourceLoaded true) []
              sampleContext (sampleRecord "old.doc") (sampleRecord "old.doc")
              (sampleDownload "old.doc") sampleRender (Inline.ResourceLoaded true)
              200 "bytes" eq_refl eq_refl eq_refl eq_refl eq_refl (or_introl Hne))
    as (Hu & _ & _ & _ & _ & Ht & _).
  split; [exact Hu | exact Ht].
Defined.

(* ===================================================================== *)
(** ** Both controls: refusals and failures *)
(* ===================================================================== *)

Lemma errorMessage_http (httpStatus : Z) :
  errorMessage (httpError httpStatus)
  = if httpStatus =? 403 then msg_permission else msg_generic.
Proof. reflexivity. Qed.

Lemma downloadResult_http (col : string) (dw : download_world) (r : Js.record)
      (httpStatus : Z) (body : outcome string) :
  retrieved dw = Returned r ->
  response dw = Response httpStatus body ->
  responseOk httpStatus = false ->
  downloadResult col dw = Thrown (httpError httpStatus).
Proof. intros Hr Hf Hok. unfold downloadResult. now rewrite Hr, Hf, Hok. Qed.

(** X8: a response of [fetch] that is not OK (a status outside 200..299).
    [downloadFile] throws an error that carries the status, and the
    control shows the permission message for status 403 and the generic
    message for every other status: the modal control in an alert, with
    the modal, the object URL and the name of the current file left as
    they were; the inline control in the preview area, with the toolbar
    back to "Document preview" and the previous object URL still in place.
    The calls are [retrieveRecord] and [fetch] (after the check, in the
    inline control) and nothing else; no object URL is created and nothing
    is rendered.  In both controls the Download address already points to
    the file that failed to load. *)
Theorem http_error_reported (dw : download_world) (r : Js.record) (httpStatus : Z)
    (body : outcome string) :
  retrieved dw = Returned r ->
  response dw = Response httpStatus body ->
  responseOk httpStatus = false ->
  let msg := if httpStatus =? 403 then msg_permission else msg_generic in
  (forall s rw,
      Modal.previewButton_disabled s = false ->
      Modal.configured (Modal.context s) = true ->
      let ctx := Modal.context s in
      let col := toString (FileColumnName ctx) in
      let url := getFileUrl ctx (toString (entityId ctx)) col in
      let s' := Modal.step s (Modal.PreviewClick dw rw) in
      history (Modal.page s')
      = [Alert msg; Fetch url;
         RetrieveRecord (toString (EntityLogicalName ctx)) (toString (entityId ctx))
           (selectQuery col)] ++ history (Modal.page s)
      /\ Modal.modal s' = Modal.modal s
      /\ Modal.currentFileUrl s' = Modal.currentFileUrl s
      /\ Modal.currentFileName s' = Modal.currentFileName s
      /\ Modal.currentDownloadUrl s' = Some (url ++ "/$value")%string)
  /\ (forall s w ctx r0 rw answer,
         Inline.zoomWrapper s = Some w ->
         Modal.configured ctx = true ->
         previewable r0 (toString (FileColumnName ctx)) = true ->
         let col := toString (FileColumnName ctx) in
         let url := getFileUrl ctx (toString (entityId ctx)) col in
         let retrieve := RetrieveRecord (toString (EntityLogicalName ctx))
                           (toString (entityId ctx)) (selectQuery col) in
         let s' := Inline.step s (Inline.UpdateView ctx (Returned r0) dw rw answer) in
         history (Inline.page s') = [Fetch url; retrieve; retrieve] ++ history (Inline.page s)
         /\ option_map children (Inline.zoomWrapper s') = Some [InfoBlock msg]
         /\ Inline.previewToolbarTitle s'
            = option_map (fun _ => "Document preview"%string) (Inline.previewToolbarTitle s)
         /\ Inline.currentFileUrl s' = Inline.currentFileUrl s
         /\ Inline.currentFileName s' = Inline.currentFileName s
         /\ Inline.currentDownloadUrl s' = Some (url ++ "/$value")%string).
Proof.
  intros Hr Hf Hok msg. split.
  - intros s rw Hd Hc ctx col url s'.
    unfold s', Modal.step, Modal.handle.
    rewrite (onPreviewClick_state dw rw s Hd Hc). cbv zeta. fold ctx. fold col.
    rewrite (downloadResult_http col dw r httpStatus body Hr Hf Hok).
    rewrite errorMessage_http. fold msg.
    unfold modalDownloaded. rewrite Hr. repeat split.
  - intros s w ctx r0 rw answer Hw Hc Hp col url retrieve s'.
    set (s0 := Inline.set_context ctx s).
    assert (Hs' : s' = snd (Inline.autoLoadPreview (Returned r0) dw rw answer s0))
      by reflexivity.
    assert (Hctx : Inline.context s0 = ctx) by reflexivity.
    assert (Hw0 : Inline.zoomWrapper s0 = Some w) by exact Hw.
    assert (Hc0 : Modal.configured (Inline.context s0) = true) by now rewrite Hctx.
    rewrite (autoLoadPreview_run (Returned r0) dw rw answer s0 w Hw0 Hc0) in Hs'.
    unfold tryCatch in Hs'. rewrite loadAction_run in Hs'. cbv beta iota zeta in Hs'.
    rewrite Hctx in Hs'. rewrite Hp in Hs'. fold col in Hs'.
    rewrite (downloadResult_http col dw r httpStatus body Hr Hf Hok) in Hs'.
    rewrite errorMessage_http in Hs'. fold msg in Hs'.
    set (s1 := inlineDownloaded (toString (EntityLogicalName ctx)) (toString (entityId ctx))
                 col dw (checked ctx s0)) in Hs'.
    assert (Hw1 : Inline.zoomWrapper s1 = Some w).
    { unfold s1, inlineDownloaded. now rewrite Hr. }
    destruct (setInfoMessage_fields msg s1)
      as (_ & _ & _ & Hu & Hn & _ & Hdl & _ & Hpg & _ & Hshown).
    destruct (Hshown w Hw1) as [Hch Ht].
    rewrite <- Hs' in *. rewrite Hpg, Hch, Ht, Hu, Hn, Hdl.
    unfold s1, inlineDownloaded. rewrite Hr. repeat split.
Qed.

Lemma http_error_reported_witness :
  let dw := {| retrieved := Returned (sampleRecord "a.pdf");
               response := Response 403 (Returned "") |} in
  alerts (history (Modal.page
            (Modal.step (Modal.init sampleContext) (Modal.PreviewClick dw sampleRender))))
  = [msg_permission].
Proof.
  intros dw.
  destruct (http_error_reported dw (sampleRecord "a.pdf") 403 (Returned "")
              eq_refl eq_refl eq_refl) as [H _].
  destruct (H (Modal.init sampleContext) sampleRender eq_refl eq_refl) as [Hh _].
  rewrite Hh. reflexivity.
Defined.

(** X7: a control that is not configured calls nobody.  When the record
    id, [EntityLogicalName] or [FileColumnName] is missing, [updateView]
    of the modal control disables the button under the text "Control is
    missing configuration ..." and a click on a button that is still
    enabled only raises an alert with that text; [updateView] of the
    inline control shows "Save the record and upload a file ..." when the
    record id is missing and the configuration text otherwise.  Neither
    control calls [retrieveRecord] or anything else, and what was
    previewed before stays as it is. *)
Theorem unconfigured_makes_no_call (ctx : Context) :
  Modal.configured ctx = false ->
  (forall s answer,
      let s' := Modal.step s (Modal.UpdateView ctx answer) in
      Modal.page s' = Modal.page s
      /\ Modal.fileLabel s' = msg_missing_config
      /\ Modal.previewButton_disabled s' = true
      /\ Modal.modal s' = Modal.modal s)
  /\ (forall s dw rw,
         Modal.context s = ctx ->
         Modal.previewButton_disabled s = false ->
         Modal.step s (Modal.PreviewClick dw rw)
         = Modal.set_page (record_effect (Alert msg_missing_config) (Modal.page s)) s)
  /\ (forall s w check dw rw answer,
         Inline.zoomWrapper s = Some w ->
         let s' := Inline.step s (Inline.UpdateView ctx check dw rw answer) in
         Inline.page s' = Inline.page s
         /\ option_map children (Inline.zoomWrapper s')
            = Some [InfoBlock (if Js.truthy (entityId ctx) then msg_missing_config
                               else msg_save_record)]
         /\ Inline.currentFileUrl s' = Inline.currentFileUrl s
         /\ Inline.currentDownloadUrl s' = Inline.currentDownloadUrl s).
Proof.
  intros Hc. split; [|split].
  - intros s answer.
    unfold Modal.step, Modal.handle, Modal.updateView, Modal.checkAttachmentAndUpdateUI,
      bind, modify, gets. cbn. rewrite Hc. repeat split.
  - intros s dw rw Hctx Hd.
    unfold Modal.step, Modal.handle, Modal.onPreviewClick, bind, gets.
    rewrite Hd, Hctx, Hc. reflexivity.
  - intros s w check dw rw answer Hw s'.
    set (s0 := Inline.set_context ctx s).
    assert (Hs' : s' = snd (Inline.setInfoMessage
                              (if Js.truthy (entityId ctx) then msg_missing_config
                               else msg_save_record) s0)).
    { unfold s', Inline.step, Inline.handle, Inline.updateView, Inline.autoLoadPreview,
        bind, modify, gets. cbn [fst snd]. fold s0.
      assert (Hw0 : Inline.zoomWrapper s0 = Some w) by exact Hw.
      assert (Hctx : Inline.context s0 = ctx) by reflexivity.
      rewrite Hw0, Hctx. unfold Modal.configured in Hc.
      destruct (Js.truthy (entityId ctx)); [|reflexivity]. cbn [negb].
      cbn [andb] in Hc. now rewrite Hc. }
    destruct (setInfoMessage_fields
                (if Js.truthy (entityId ctx) then msg_missing_config else msg_save_record) s0)
      as (_ & _ & _ & Hu & _ & _ & Hdl & _ & Hpg & _ & Hshown).
    destruct (Hshown w Hw) as [Hch _].
    rewrite Hs', Hpg, Hch, Hu, Hdl. repeat split.
Qed.

Lemma unconfigured_makes_no_call_witness :
  let ctx := {| entityId := Js.Null; EntityLogicalName := Js.Str "account";
                FileColumnName := Js.Str "doc"; EntitySetName := Js.Str "accounts";
                EnableDownload := true; clientUrl := "https://org.example" |} in
  history (Modal.page
             (Modal.step (Modal.init ctx)
                (Modal.PreviewClick (sampleDownload "a.pdf") sampleRender)))
  = [Alert msg_missing_config].
Proof.
  intros ctx.
  destruct (unconfigured_makes_no_call ctx eq_refl) as (_ & H & _).
  rewrite (H (Modal.init ctx) (sampleDownload "a.pdf") sampleRender eq_refl eq_refl).
  reflexivity.
Defined.

(** X16: [destroy] is idempotent, in both controls and from every state.
    After [destroy] the modal control has no modal and no object URL, the
    inline control has no object URL of a file and none of the worker; a
    second [destroy], and in the modal control a click on Close, changes
    nothing and calls nobody.  [destroy] of the inline control keeps the
    promise of the worker: a later rendering would not ask for the worker
    again. *)
Theorem destroy_idempotent :
  (forall s : Modal.state,
      let s1 := Modal.step s Modal.Destroy in
      Modal.modal s1 = None
      /\ Modal.currentFileUrl s1 = None
      /\ Modal.step s1 Modal.Destroy = s1
      /\ Modal.step s1 Modal.CloseClick = s1)
  /\ (forall s : Inline.state,
         let s1 := Inline.step s Inline.Destroy in
         Inline.currentFileUrl s1 = None
         /\ Inline.pdfWorkerUrl (Inline.worker s1) = None
         /\ Inline.pdfWorkerUrlPromise (Inline.worker s1)
            = Inline.pdfWorkerUrlPromise (Inline.worker s)
         /\ Inline.step s1 Inline.Destroy = s1).
Proof.
  split.
  - intros s. unfold Modal.step, Modal.handle, Modal.destroy, Modal.destroyModal,
      Modal.cleanupFileUrl, bind, Modal.call, modify.
    destruct s as [c d l m z u n t h p]. destruct u; repeat split.
  - intros s. unfold Inline.step, Inline.handle, Inline.destroy, Inline.cleanupFileUrl,
      bind, Inline.call, modify.
    destruct s as [c t d z l u n m h [wu wp] p]. destruct u, wu; repeat split.
Qed.

(** X17: a check that fails or says no leaves the previous file of the
    inline control in place.  When [retrieveRecord] of the attachment
    check rejects, or the record does not pass the check, [updateView]
    calls nothing but that [retrieveRecord]: the preview area shows the
    message (the permission or the generic one for a rejection, "No
    previewable file in Attachment." otherwise) and the toolbar shows
    "Document preview", but the object URL, the name, the type and the
    Download address of the file previewed before are kept, the object URL
    stays live, and the Download button stays as it was. *)
Theorem failed_check_keeps_previous_file (s : Inline.state) (w : wrapper_dom)
    (ctx : Context) (check : outcome Js.record) (dw : download_world) (rw : render_world)
    (answer : Inline.worker_answer) :
  Inline.zoomWrapper s = Some w ->
  Modal.configured ctx = true ->
  match check with
  | Thrown _ => True
  | Returned r => previewable r (toString (FileColumnName ctx)) = false
  end ->
  let s' := Inline.step s (Inline.UpdateView ctx check dw rw answer) in
  history (Inline.page s')
  = RetrieveRecord (toString (EntityLogicalName ctx)) (toString (entityId ctx))
      (selectQuery (toString (FileColumnName ctx))) :: history (Inline.page s)
  /\ option_map children (Inline.zoomWrapper s')
     = Some [InfoBlock match check with
                       | Thrown e => errorMessage e
                       | Returned _ => msg_no_previewable
                       end]
  /\ Inline.previewToolbarTitle s'
     = option_map (fun _ => "Document preview"%string) (Inline.previewToolbarTitle s)
  /\ Inline.currentFileUrl s' = Inline.currentFileUrl s
  /\ Inline.currentFileName s' = Inline.currentFileName s
  /\ Inline.currentMimeType s' = Inline.currentMimeType s
  /\ Inline.currentDownloadUrl s' = Inline.currentDownloadUrl s
  /\ Inline.downloadButton s' = Inline.downloadButton s
  /\ liveUrls (history (Inline.page s')) = liveUrls (history (Inline.page s)).
Proof.
  intros Hw Hc Hcheck s'.
  set (s0 := Inline.set_context ctx s).
  set (text := match check with
               | Thrown e => errorMessage e
               | Returned _ => msg_no_previewable
               end).
  assert (Hctx : Inline.context s0 = ctx) by reflexivity.
  assert (Hw0 : Inline.zoomWrapper s0 = Some w) by exact Hw.
  assert (Hc0 : Modal.configured (Inline.context s0) = true) by now rewrite Hctx.
  assert (Hs' : s' = snd (Inline.setInfoMessage text (checked ctx s0))).
  { assert (H : s' = snd (Inline.autoLoadPreview check dw rw answer s0)) by reflexivity.
    rewrite (autoLoadPreview_run check dw rw answer s0 w Hw0 Hc0) in H.
    unfold tryCatch in H. rewrite loadAction_run in H. cbv zeta in H. rewrite Hctx in H.
    destruct check as [r|e]; [|exact H].
    rewrite Hcheck in H. unfold text.
    pose proof (setInfoMessage_returns msg_no_previewable (checked ctx s0)) as Hret.
    destruct (Inline.setInfoMessage msg_no_previewable (checked ctx s0)) as [[[]|e] s1];
      [exact H | discriminate Hret]. }
  destruct (setInfoMessage_fields text (checked ctx s0))
    as (_ & Hb & _ & Hu & Hn & Hm & Hdl & _ & Hpg & _ & Hshown).
  destruct (Hshown w Hw) as [Hch Ht].
  rewrite Hs', Hpg, Hch, Ht, Hu, Hn, Hm, Hdl, Hb. repeat split.
Qed.

Lemma failed_check_keeps_previous_file_witness :
  let s := Inline.init sampleContext (Inline.ResourceLoaded true) in
  let s' := Inline.step s
              (Inline.UpdateView sampleContext (Thrown (httpError 403))
                 (sampleDownload "a.pdf") sampleRender (Inline.ResourceLoaded true)) in
  option_map children (Inline.zoomWrapper s') = Some [InfoBlock msg_permission].
Proof.
  intros s s'.
  destruct (failed_check_keeps_previous_file s
              {| children := []; transform := Some Num.one |} sampleContext
              (Thrown (httpError 403)) (sampleDownload "a.pdf") sampleRender
              (Inline.ResourceLoaded true)) as (_ & H & _);
    [reflexivity | reflexivity | exact Logic.I | exact H].
Defined.

(* ===================================================================== *)
(** ** Errors of the preview action, by where they are thrown (C6) *)
(* ===================================================================== *)

Section ErrorOrigins.














End ErrorOrigins.




(* ===================================================================== *)
(** ** The page loop of the PDF section, when a page fails *)
(* ===================================================================== *)

Section PageLoop.
Context {T : Type}.

Lemma renderPages_app (page : nat -> page_answer) (l1 l2 : list nat) (s : surface T) :
  renderPages page (l1 ++ l2) s
  = bind (renderPages page l1) (fun _ => renderPages page l2) s.
Proof.
  revert s. induction l1 as [|n l1 IH]; intros s; [reflexivity|].
  simpl. unfold bind in *. destruct (renderPage page n s) as [[[]|e] s1]; [apply IH|reflexivity].
Qed.

Lemma pagesRequested_pageCalls (pcs : list (nat * nat)) (h : list effect) :
  pagesRequested (pageCalls pcs h) = pagesRequested h ++ map fst pcs.
Proof.
  revert h. induction pcs as [|[n c] pcs IH]; intros h; simpl; [now rewrite app_nil_r|].
  rewrite IH. simpl. now rewrite <- app_assoc.
Qed.

Lemma seq_snoc (a k : nat) : (1 <= k)%nat -> seq a (k - 1) ++ [(a + (k - 1))%nat] = seq a k.
Proof.
  intros H. destruct k as [|k]; [lia|].
  replace (S k - 1)%nat with k by lia. symmetry. apply seq_S.
Qed.

Lemma combine_seq_S (a b n : nat) :
  combine (seq a (S n)) (seq b (S n))
  = combine (seq a n) (seq b n) ++ [((a + n)%nat, (b + n)%nat)].
Proof.
  revert a b. induction n as [|n IH]; intros a b.
  - simpl. now rewrite !Nat.add_0_r.
  - change (combine (seq a (S (S n))) (seq b (S (S n))))
      with ((a, b) :: combine (seq (S a) (S n)) (seq (S b) (S n))).
    rewrite IH. simpl. repeat f_equal; lia.
Qed.

Lemma combine_seq_snoc (a b k : nat) :
  (1 <= k)%nat ->
  combine (seq a (k - 1)) (seq b (k - 1)) ++ [((a + (k - 1))%nat, (b + (k - 1))%nat)]
  = combine (seq a k) (seq b k).
Proof.
  intros H. destruct k as [|k]; [lia|].
  replace (S k - 1)%nat with k by lia. symmetry. apply combine_seq_S.
Qed.

(** The first page that fails ends the loop: the state when the PDF
    section has shown its failure message. *)
Lemma renderSections_pdf_stops (prepare : M (surface T) unit) (f : file)
      (w : render_world) (s : surface T) (numPages : nat) (page : nat -> page_answer)
      (k : nat) :
  (forall r, self r = self s -> prepare r = (Returned tt, r)) ->
  dispatch f = PdfBranch ->
  pdf w = Document numPages page ->
  (1 <= k <= numPages)%nat ->
  (forall i, (1 <= i < k)%nat -> page i = PageRenders) ->
  page k <> PageRenders ->
  let out := renderSections prepare f w s in
  fst out = Returned tt
  /\ children (area (snd out)) = [InfoBlock msg_pdf_failed]
  /\ pagesRequested (history (env (snd out)))
     = pagesRequested (history (env s)) ++ seq 1 k
  /\ renderCalls (history (env (snd out)))
     = renderCalls (history (env s))
         ++ combine (seq 1 (pagesDrawn page k)) (seq (nextCanvas (env s)) (pagesDrawn page k))
  /\ nextCanvas (env (snd out)) = (nextCanvas (env s) + pagesDrawn page k)%nat.
Proof.
  intros Hprep Hd Hw Hk Hbefore Hfail out.
  assert (Hseq : seq 1 numPages = seq 1 (k - 1) ++ k :: seq (S k) (numPages - k)).
  { replace numPages with ((k - 1) + S (numPages - k))%nat at 1 by lia.
    rewrite seq_app. f_equal. now replace (1 + (k - 1))%nat with k by lia. }
  set (sb := {| area := {| children := []; transform := transform (area s) |};
                env := record_effect GetDocument (env s);
                self := self s |}).
  assert (Hok : forall n, In n (seq 1 (k - 1)) -> page n = PageRenders).
  { intros n Hn. apply in_seq in Hn. apply Hbefore. lia. }
  pose proof (renderPages_ok page (seq 1 (k - 1)) sb Hok) as Hfirst.
  rewrite length_seq in Hfirst.
  assert (Hout : out
    = let sc := snd (renderPages page (seq 1 (k - 1)) sb) in
      let sd := snd (renderPage page k sc) in
      (Returned tt,
       {| area := {| children := [InfoBlock msg_pdf_failed];
                     transform := transform (area sd) |};
          env := env sd; self := self sd |})).
  { unfold out, renderSections. rewrite Hd. unfold bind at 1. unfold setChildren at 1.
    unfold modify at 1. unfold bind at 1. unfold appendChild at 1. unfold modify at 1.
    unfold tryCatch, renderPdf. unfold bind at 1. rewrite Hprep by reflexivity.
    unfold bind at 1. unfold emit at 1. unfold modify at 1. rewrite Hw.
    unfold bind at 1. unfold setChildren at 1. unfold modify at 1.
    cbn [area env self children transform]. fold sb.
    rewrite Hseq, renderPages_app. unfold bind at 1. rewrite Hfirst. cbn [fst snd].
    simpl renderPages. unfold bind at 1.
    destruct (renderPage_fails page k
                {| area := {| children := children (area sb)
                                           ++ map PageCard (seq (nextCanvas (env sb)) (k - 1));
                              transform := transform (area sb) |};
                   env := {| history :=
                               pageCalls (combine (seq 1 (k - 1))
                                            (seq (nextCanvas (env sb)) (k - 1)))
                                 (history (env sb));
                             nextUrl := nextUrl (env sb);
                             nextCanvas := nextCanvas (env sb) + (k - 1) |};
                   self := self sb |} Hfail) as [e He].
    destruct (renderPage page k _) as [[[]|e'] sd]; [discriminate He|]. reflexivity. }
  rewrite Hout. cbv zeta. cbn [fst snd area env children].
  rewrite Hfirst. cbn [snd].
  split; [reflexivity|]. split; [reflexivity|].
  unfold pagesDrawn, renderPage, bind, emit, createCanvas, appendChild, modify, throw, ret.
  destruct (page k) as [|e|e] eqn:Hpk; [now elim Hfail| |];
    cbn [snd env history nextCanvas record_effect createCanvas_b fst area self children
         transform sb nextUrl].
  - change (pagesRequested (GetPage k :: ?h)) with (pagesRequested h ++ [k]).
    change (renderCalls (GetPage k :: ?h)) with (renderCalls h).
    rewrite pagesRequested_pageCalls, renderCalls_pageCalls.
    rewrite map_fst_combine by now rewrite !length_seq.
    cbn [pagesRequested renderCalls]. rewrite <- app_assoc.
    rewrite <- (seq_snoc 1 k) by lia.
    replace (1 + (k - 1))%nat with k by lia.
    repeat split.
  - change (pagesRequested (RenderPage k ?c :: GetPage k :: ?h))
      with (pagesRequested h ++ [k]).
    change (renderCalls (RenderPage k ?c :: GetPage k :: ?h))
      with (renderCalls h ++ [(k, c)]).
    rewrite pagesRequested_pageCalls, renderCalls_pageCalls.
    rewrite map_fst_combine by now rewrite !length_seq.
    cbn [pagesRequested renderCalls]. rewrite <- !app_assoc.
    rewrite <- (seq_snoc 1 k) at 1 by lia.
    rewrite <- (combine_seq_snoc 1 (nextCanvas (env s)) k) by lia.
    replace (1 + (k - 1))%nat with k by lia.
    repeat split. lia.
Qed.

End PageLoop.

(** X18: the page loop of the PDF section stops at the first page that
    fails.  When the document opens with [numPages] pages, pages 1 to
    [k - 1] load and draw, and page [k] does not load or does not draw,
    the section asks pdf.js for the pages 1, ..., [k] in this order and for
    no page after [k]; it has drawn the pages before [k] (and started page
    [k] on a canvas of its own when only the drawing failed); and it
    returns with the pages drawn so far replaced by the text "Could not
    render PDF preview. ...".  Both controls; the inline one once its
    worker was asked for. *)
Theorem pdf_stops_at_first_failure (f : file) (w : render_world) (numPages : nat)
    (page : nat -> page_answer) (k : nat) :
  dispatch f = PdfBranch ->
  pdf w = Document numPages page ->
  (1 <= k <= numPages)%nat ->
  (forall i, (1 <= i < k)%nat -> page i = PageRenders) ->
  page k <> PageRenders ->
  (forall s m,
      Modal.modal s = Some m ->
      let r := Modal.renderFilePreview f w s in
      fst r = Returned tt
      /\ option_map (fun m' => children (Modal.body m')) (Modal.modal (snd r))
         = Some [InfoBlock msg_pdf_failed]
      /\ pagesRequested (history (Modal.page (snd r)))
         = pagesRequested (history (Modal.page s)) ++ seq 1 k
      /\ renderCalls (history (Modal.page (snd r)))
         = renderCalls (history (Modal.page s))
             ++ combine (seq 1 (pagesDrawn page k))
                        (seq (nextCanvas (Modal.page s)) (pagesDrawn page k)))
  /\ (forall s z answer,
         Inline.zoomWrapper s = Some z ->
         Inline.pdfWorkerUrlPromise (Inline.worker s) <> None ->
         let r := Inline.renderFilePreview f w answer s in
         fst r = Returned tt
         /\ option_map children (Inline.zoomWrapper (snd r))
            = Some [InfoBlock msg_pdf_failed]
         /\ pagesRequested (history (Inline.page (snd r)))
            = pagesRequested (history (Inline.page s)) ++ seq 1 k
         /\ renderCalls (history (Inline.page (snd r)))
            = renderCalls (history (Inline.page s))
                ++ combine (seq 1 (pagesDrawn page k))
                           (seq (nextCanvas (Inline.page s)) (pagesDrawn page k))).
Proof.
  intros Hd Hw Hk Hbefore Hfail. split.
  - intros s m Hm r. unfold r. rewrite (renderFilePreview_modal f w s m Hm).
    destruct (renderSections_pdf_stops (ret tt) f w (Modal.toSurface m s) numPages page k
                (fun _ _ => eq_refl) Hd Hw Hk Hbefore Hfail)
      as (H1 & H2 & H3 & H4 & _).
    cbn [fst snd]. split; [exact H1|]. split; [exact (f_equal Some H2)|].
    split; [exact H3 | exact H4].
  - intros s z answer Hz Hp r. unfold r. rewrite (renderFilePreview_inline f w answer s z Hz).
    assert (Hprep : forall x : surface Inline.worker_state,
               self x = self (Inline.toSurface z s) ->
               Inline.awaitWorker answer x = (Returned tt, x)).
    { intros x Hx. apply awaitWorker_cached. now rewrite Hx. }
    destruct (renderSections_pdf_stops (Inline.awaitWorker answer) f w
                (Inline.toSurface z s) numPages page k Hprep Hd Hw Hk Hbefore Hfail)
      as (H1 & H2 & H3 & H4 & _).
    cbn [fst snd]. split; [exact H1|]. split; [exact (f_equal Some H2)|].
    split; [exact H3 | exact H4].
Qed.

Lemma pdf_stops_at_first_failure_witness :
  let w := {| pdf := Document 3 (fun n => if Nat.eqb n 2 then GetPageRejects plainError
                                          else PageRenders);
              docx := Returned tt; readerLoads := true |} in
  let f := {| blob := "bytes"; fileName := "a.pdf"; mimeType := mime_pdf |} in
  let s := snd (Modal.openModal (Modal.init sampleContext)) in
  pagesRequested (history (Modal.page (snd (Modal.renderFilePreview f w s)))) = [1; 2]%nat.
Proof.
  intros w f s.
  assert (Hbefore : forall i, (1 <= i < 2)%nat ->
                      (if Nat.eqb i 2 then GetPageRejects plainError else PageRenders)
                      = PageRenders).
  { intros i Hi. assert (i = 1%nat) as -> by lia. reflexivity. }
  destruct (pdf_stops_at_first_failure f w 3
              (fun n => if Nat.eqb n 2 then GetPageRejects plainError else PageRenders) 2
              eq_refl eq_refl (conj (le_S _ _ (le_n 1)) (le_S _ _ (le_n 2))) Hbefore
              (fun H => ltac:(discriminate H))) as [H _].
  exact (proj1 (proj2 (proj2
           (H s {| Modal.title := "Document preview"; Modal.downloadButton := true;
                   Modal.body := {| children := []; transform := Some Num.one |} |}
              eq_refl)))).
Defined.

Section InlineTitle.
Import Inline.

Lemma setInfoMessage_titleKnown (text : string) (s : state) :
  titleKnown s -> titleKnown (snd (setInfoMessage text s)).
Proof.
  intros (t & Ht & H). unfold setInfoMessage.
  destruct (zoomWrapper s) as [w|]; [|now exists t].
  cbn [snd previewToolbarTitle set_zoomWrapper]. rewrite Ht.
  exists "Document preview"%string. split; [reflexivity|]. split; [now left | discriminate].
Qed.

Lemma downloadResult_fileName (col : string) (dw : download_world) (f : file) :
  downloadResult col dw = Returned f ->
  orElse (Some (fileName f)) "Document preview" = fileName f
  /\ fileName f <> EmptyString.
Proof.
  unfold downloadResult. destruct (retrieved dw) as [r|]; [|discriminate].
  destruct (response dw) as [|st [bytes|]]; try discriminate;
    destruct (responseOk st); try discriminate.
  intros H. injection H as <-. split; [apply orElse_downloadedName|].
  cbn [fileName]. unfold downloadedName.
  now destruct (Js.get r (col ++ "_name")) as [| |[|c n]].
Qed.

Lemma step_titleKnown (s : state) (e : event) : titleKnown s -> titleKnown (step s e).
Proof.
  intros H. destruct e.
  - assert (H0 : titleKnown (set_context ctx s)) by exact H.
    assert (H1 : titleKnown (checked ctx (set_context ctx s))) by exact H.
    destruct (updateView_cases s ctx check dw rw answer)
      as [->|[[text ->]|[[text ->]|[[text ->]|(f & Hd & Hr)]]]].
    + exact H0.
    + now apply setInfoMessage_titleKnown.
    + now apply setInfoMessage_titleKnown.
    + apply setInfoMessage_titleKnown.
      destruct (inlineDownloaded_fields (toString (EntityLogicalName ctx))
                  (toString (entityId ctx)) (toString (FileColumnName ctx)) dw
                  (checked ctx (set_context ctx s)))
        as (_ & Ht & _ & _ & _ & _ & Hn & _).
      unfold titleKnown. rewrite Ht, Hn. exact H1.
    + cbv zeta in Hr.
      set (s1 := inlineDownloaded _ _ _ dw _) in Hr.
      assert (H2 : titleKnown (snd (renderFilePreview f rw answer (inlineLoaded f s1)))).
      { destruct (renderFilePreview_fields_inline f rw answer (inlineLoaded f s1))
          as (_ & Ht & _ & _ & _ & Hn & _).
        unfold titleKnown. rewrite Ht, Hn.
        destruct (inlineDownloaded_fields (toString (EntityLogicalName ctx))
                    (toString (entityId ctx)) (toString (FileColumnName ctx)) dw
                    (checked ctx (set_context ctx s)))
          as (_ & Ht1 & _).
        fold s1 in Ht1. destruct H1 as (t & Ht0 & _).
        cbn [previewToolbarTitle currentFileName inlineLoaded]. rewrite Ht1, Ht0.
        destruct (downloadResult_fileName _ dw f Hd) as [-> Hne].
        exists (fileName f). split; [reflexivity|]. split; [now right | exact Hne]. }
      destruct Hr as [->|[text ->]]; [exact H2 | now apply setInfoMessage_titleKnown].
  - unfold step, handle, bind, gets, applyZoom. now destruct (zoomWrapper s).
  - unfold step, handle, bind, gets, applyZoom. now destruct (zoomWrapper s).
  - unfold step, handle, applyZoom. now destruct (zoomWrapper s).
  - now destruct (download_click_cases_inline s) as [->|(c & ->)].
  - now destruct (open_document_click_inline s) as [->|(u & _ & ->)].
  - unfold step, handle, destroy, cleanupFileUrl, bind, call, modify.
    destruct s as [c t d z l u n m h [wu wp] p]. now destruct u, wu.
Qed.

End InlineTitle.

(** X19: the toolbar of the inline control never shows a stale name.  In
    every state the control reaches, the toolbar title is either the
    default "Document preview" or the name of the current file, the one
    whose object URL and Download address the control holds: a message
    ([setInfoMessage]) puts the default back, a loaded file puts its name
    ("document" for a record without a file name). *)
Theorem inline_title_is_current_file (ctx : Context) (answer : Inline.worker_answer)
    (es : list Inline.event) :
  let s := Inline.run (Inline.init ctx answer) es in
  exists t,
    Inline.previewToolbarTitle s = Some t
    /\ (t = "Document preview"%string \/ Inline.currentFileName s = Some t)
    /\ t <> EmptyString.
Proof.
  intros s.
  assert (H : titleKnown s).
  { unfold s, Inline.run.
    apply (fold_left_invariant titleKnown); [intros s0 e; apply step_titleKnown|].
    exists "Document preview"%string.
    split; [now destruct answer as [[|]|]|]. split; [now left | discriminate]. }
  exact H.
Qed.

(* ===================================================================== *)
(** ** The zoom buttons *)
(* ===================================================================== *)

Section ZoomLevels.

Lemma sameNumber_eq (a b : Num.number) : sameNumber a b = true <-> a = b.
Proof.
  split.
  - destruct a as [s| s | |s m e], b as [s'|s'| |s' m' e']; simpl; try discriminate;
      try reflexivity.
    + intros H. apply Bool.eqb_prop in H. now subst.
    + intros H. apply Bool.eqb_prop in H. now subst.
    + intros H. apply andb_true_iff in H as [H He]. apply andb_true_iff in H as [Hs Hm].
      apply Bool.eqb_prop in Hs. apply Pos.eqb_eq in Hm. apply Z.eqb_eq in He. now subst.
  - intros <-. destruct a as [s|s| |s m e]; simpl; try reflexivity;
      try apply Bool.eqb_reflx.
    now rewrite Bool.eqb_reflx, Pos.eqb_refl, Z.eqb_refl.
Qed.

Lemma knownLevel_In (z : Num.number) (l : list Num.number) :
  knownLevel z l = true <-> In z l.
Proof.
  unfold knownLevel. rewrite existsb_exists. split.
  - intros (y & Hy & He). apply sameNumber_eq in He. now subst.
  - intros H. exists z. split; [exact H | now apply sameNumber_eq].
Qed.

Lemma zoomLevels_one : In Num.one zoomLevels.
Proof. apply knownLevel_In. vm_compute. reflexivity. Qed.

Lemma zoomLevels_closed (z : Num.number) :
  In z zoomLevels -> In (zoomIn z) zoomLevels /\ In (zoomOut z) zoomLevels.
Proof.
  assert (H : forallb (fun z => knownLevel (zoomIn z) zoomLevels
                                && knownLevel (zoomOut z) zoomLevels) zoomLevels = true)
    by (vm_compute; reflexivity).
  rewrite forallb_forall in H. intros Hz. specialize (H z Hz).
  apply andb_true_iff in H as [H1 H2]. split; now apply knownLevel_In.
Qed.

Lemma zoomLevels_facts (z : Num.number) : In z zoomLevels -> zoomFacts z = true.
Proof.
  assert (H : forallb zoomFacts zoomLevels = true) by (vm_compute; reflexivity).
  rewrite forallb_forall in H. apply H.
Qed.

Lemma zoom_clicks_modal (s : Modal.state) :
  Modal.zoomLevel (Modal.step s Modal.ZoomInClick)
  = match Modal.modal s with
    | Some _ => zoomIn (Modal.zoomLevel s)
    | None => Modal.zoomLevel s
    end
  /\ Modal.zoomLevel (Modal.step s Modal.ZoomOutClick)
     = match Modal.modal s with
       | Some _ => zoomOut (Modal.zoomLevel s)
       | None => Modal.zoomLevel s
       end
  /\ Modal.zoomLevel (Modal.step s Modal.ZoomResetClick)
     = match Modal.modal s with
       | Some _ => Num.one
       | None => Modal.zoomLevel s
       end
  /\ (Modal.modal (Modal.step s Modal.ZoomInClick) = None <-> Modal.modal s = None)
  /\ (Modal.modal (Modal.step s Modal.ZoomOutClick) = None <-> Modal.modal s = None).
Proof.
  unfold Modal.step, Modal.handle, bind, gets, Modal.applyZoom.
  destruct (Modal.modal s) as [m|] eqn:Hm; cbn [snd Modal.zoomLevel Modal.modal
    Modal.set_modal Modal.set_zoomLevel]; rewrite ?Hm; repeat split; try discriminate;
    reflexivity.
Qed.

Lemma zoom_clicks_inline (s : Inline.state) :
  Inline.zoomLevel (Inline.step s Inline.ZoomInClick)
  = match Inline.zoomWrapper s with
    | Some _ => zoomIn (Inline.zoomLevel s)
    | None => Inline.zoomLevel s
    end
  /\ Inline.zoomLevel (Inline.step s Inline.ZoomOutClick)
     = match Inline.zoomWrapper s with
       | Some _ => zoomOut (Inline.zoomLevel s)
       | None => Inline.zoomLevel s
       end
  /\ Inline.zoomLevel (Inline.step s Inline.ZoomResetClick)
     = match Inline.zoomWrapper s with
       | Some _ => Num.one
       | None => Inline.zoomLevel s
       end
  /\ (Inline.zoomWrapper (Inline.step s Inline.ZoomInClick) = None
      <-> Inline.zoomWrapper s = None)
  /\ (Inline.zoomWrapper (Inline.step s Inline.ZoomOutClick) = None
      <-> Inline.zoomWrapper s = None).
Proof.
  unfold Inline.step, Inline.handle, bind, gets, Inline.applyZoom.
  destruct (Inline.zoomWrapper s) as [w|] eqn:Hw; cbn [snd Inline.zoomLevel
    Inline.zoomWrapper Inline.set_zoomWrapper Inline.set_zoomLevel]; rewrite ?Hw;
    repeat split; try discriminate; reflexivity.
Qed.

Lemma step_level_modal (s : Modal.state) (e : Modal.event) :
  In (Modal.zoomLevel s) zoomLevels -> In (Modal.zoomLevel (Modal.step s e)) zoomLevels.
Proof.
  intros H. destruct (zoom_clicks_modal s) as (Hin & Hout & Hreset & _).
  destruct e.
  - unfold Modal.step, Modal.handle.
    now destruct (updateView_fields_modal ctx answer s) as (_ & _ & -> & _).
  - unfold Modal.step, Modal.handle.
    destruct (Modal.previewButton_disabled s) eqn:Hd.
    { unfold Modal.onPreviewClick, bind, gets. now rewrite Hd. }
    destruct (Modal.configured (Modal.context s)) eqn:Hc.
    2:{ unfold Modal.onPreviewClick, bind, gets. rewrite Hd, Hc. exact H. }
    rewrite (onPreviewClick_state dw rw s Hd Hc). cbv zeta.
    destruct (downloadResult _ dw) as [f|e].
    + match goal with
      | |- context [Modal.renderFilePreview f rw ?t] =>
          destruct (renderFilePreview_fields_modal f rw t) as (_ & _ & _ & Hz & _)
      end.
      assert (Hone : In (Num.clampZoom Num.one) zoomLevels) by apply zoomLevels_one.
      destruct (fst (Modal.renderFilePreview f rw _));
        cbn [Modal.zoomLevel Modal.set_page]; rewrite Hz; exact Hone.
    + cbn [Modal.zoomLevel Modal.set_page].
      now destruct (modalDownloaded_fields (toString (EntityLogicalName (Modal.context s)))
                      (toString (entityId (Modal.context s)))
                      (toString (FileColumnName (Modal.context s))) dw s)
        as (_ & _ & _ & _ & -> & _).
  - rewrite Hout. destruct (Modal.modal s); [now apply zoomLevels_closed | exact H].
  - rewrite Hin. destruct (Modal.modal s); [now apply zoomLevels_closed | exact H].
  - rewrite Hreset. destruct (Modal.modal s); [apply zoomLevels_one | exact H].
  - now destruct (click_cases_modal s) as [[->|(c & ->)] _].
  - now destruct (click_cases_modal s) as [_ [->|(c & ->)]].
  - unfold Modal.step, Modal.handle, Modal.destroyModal, Modal.cleanupFileUrl, bind,
      Modal.call, modify.
    destruct s as [c d l m z u n t h p]. now destruct u.
  - unfold Modal.step, Modal.handle, Modal.destroy, Modal.destroyModal,
      Modal.cleanupFileUrl, bind, Modal.call, modify.
    destruct s as [c d l m z u n t h p]. now destruct u.
Qed.

Lemma run_level_modal (ctx : Context) (es : list Modal.event) :
  In (Modal.zoomLevel (Modal.run (Modal.init ctx) es)) zoomLevels.
Proof.
  unfold Modal.run.
  apply (fold_left_invariant (fun s => In (Modal.zoomLevel s) zoomLevels));
    [intros s e; apply step_level_modal | apply zoomLevels_one].
Qed.

Lemma step_level_inline (s : Inline.state) (e : Inline.event) :
  Inline.pdfWorkerUrlPromise (Inline.worker s) <> None ->
  In (Inline.zoomLevel s) zoomLevels -> In (Inline.zoomLevel (Inline.step s e)) zoomLevels.
Proof.
  intros Hp H. destruct (zoom_clicks_inline s) as (Hin & Hout & Hreset & _).
  destruct (isZoomClick e) eqn:He.
  - destruct e; try discriminate He.
    + rewrite Hout. destruct (Inline.zoomWrapper s); [now apply zoomLevels_closed | exact H].
    + rewrite Hin. destruct (Inline.zoomWrapper s); [now apply zoomLevels_closed | exact H].
    + rewrite Hreset. destruct (Inline.zoomWrapper s); [apply zoomLevels_one | exact H].
  - now destruct (step_settled s e He Hp) as (-> & _).
Qed.

Lemma run_level_inline (ctx : Context) (answer : Inline.worker_answer)
      (es : list Inline.event) :
  In (Inline.zoomLevel (Inline.run (Inline.init ctx answer) es)) zoomLevels.
Proof.
  assert (H : inlineInv (Inline.run (Inline.init ctx answer) es)
              /\ In (Inline.zoomLevel (Inline.run (Inline.init ctx answer) es)) zoomLevels);
    [|now destruct H].
  unfold Inline.run.
  apply (fold_left_invariant
           (fun s => inlineInv s /\ In (Inline.zoomLevel s) zoomLevels)).
  - intros s e [Hi Hl]. split; [now apply step_keeps_inline|].
    destruct Hi as (_ & _ & _ & Hp & _). now apply step_level_inline.
  - split; [apply inlineInv_init|].
    assert (Hz : Inline.zoomLevel (Inline.init ctx answer) = Num.one)
      by now destruct answer as [[|]|].
    rewrite Hz. apply zoomLevels_one.
Qed.

Lemma zoomFacts_unfold (z : Num.number) :
  zoomFacts z = true ->
  Num.le z z = true
  /\ Num.le z (zoomIn z) = true
  /\ Num.le (zoomOut z) z = true
  /\ (SFltb z Num.three = true -> SFltb z (zoomIn z) = true)
  /\ (SFltb Num.half z = true -> SFltb (zoomOut z) z = true)
  /\ (Num.le Num.half (Num.sub z Num.tenth) = true -> zoomIn (zoomOut z) = z).
Proof.
  unfold zoomFacts. intros H.
  repeat (apply andb_true_iff in H as [H ?]).
  repeat split; try assumption.
  - intros Hlt. now rewrite Hlt in *.
  - intros Hlt. now rewrite Hlt in *.
  - intros Hle. apply sameNumber_eq. now rewrite Hle in *.
Qed.

End ZoomLevels.

(** X20: the zoom buttons are monotone.  In every state either control
    reaches, a click on "+" does not lower the zoom factor and raises it
    whenever the view is there and the factor is below 3, and a click on
    "-" does not raise it and lowers it whenever the view is there and the
    factor is above 0.5: [applyZoom(this.zoomLevel + 0.1)] and
    [applyZoom(this.zoomLevel - 0.1)] in IEEE binary64, rounding included.
    The factor only ever takes one of the 89 values the buttons reach
    from 1. *)
Theorem zoom_buttons_monotone :
  length zoomLevels = 89%nat
  /\ (forall ctx es,
      let s := Modal.run (Modal.init ctx) es in
      let z := Modal.zoomLevel s in
      let more := Modal.zoomLevel (Modal.step s Modal.ZoomInClick) in
      let less := Modal.zoomLevel (Modal.step s Modal.ZoomOutClick) in
      In z zoomLevels
      /\ Num.le z more = true
      /\ Num.le less z = true
      /\ (Modal.modal s <> None -> SFltb z Num.three = true -> SFltb z more = true)
      /\ (Modal.modal s <> None -> SFltb Num.half z = true -> SFltb less z = true))
  /\ (forall ctx answer es,
         let s := Inline.run (Inline.init ctx answer) es in
         let z := Inline.zoomLevel s in
         let more := Inline.zoomLevel (Inline.step s Inline.ZoomInClick) in
         let less := Inline.zoomLevel (Inline.step s Inline.ZoomOutClick) in
         In z zoomLevels
         /\ Num.le z more = true
         /\ Num.le less z = true
         /\ (SFltb z Num.three = true -> SFltb z more = true)
         /\ (SFltb Num.half z = true -> SFltb less z = true)).
Proof.
  split; [reflexivity|]. split.
  - intros ctx es s z more less.
    assert (Hz : In z zoomLevels) by apply run_level_modal.
    destruct (zoomFacts_unfold z (zoomLevels_facts z Hz)) as (H0 & H1 & H2 & H3 & H4 & _).
    destruct (zoom_clicks_modal s) as (Hin & Hout & _).
    unfold more, less. rewrite Hin, Hout. fold z.
    destruct (Modal.modal s) as [m|].
    + repeat split; auto.
    + repeat split; auto; intros Hm; now elim Hm.
  - intros ctx answer es s z more less.
    assert (Hz : In z zoomLevels) by apply run_level_inline.
    destruct (zoomFacts_unfold z (zoomLevels_facts z Hz)) as (H0 & H1 & H2 & H3 & H4 & _).
    destruct (zoom_clicks_inline s) as (Hin & Hout & _).
    destruct (run_wrapper ctx answer es) as [w Hw]. fold s in Hw.
    unfold more, less. rewrite Hin, Hout, Hw. fold z.
    repeat split; auto.
Qed.

(** X21: "-" then "+" gives the zoom back; "+" then "-" need not.  In
    every state either control reaches, when a click on "-" does not hit
    the floor (the factor minus 0.1 is at least 0.5), a click on "+" after
    it restores the zoom factor exactly, in spite of the rounding of
    binary64.  The other way round fails: after six clicks on "-" and
    fourteen on "+" the factor is 1.9000000000000006, "+" leads to
    2.0000000000000004, below the ceiling, and "-" then leads to
    1.9000000000000004. *)
Theorem zoom_out_then_in_restores :
  (forall ctx es,
      let s := Modal.run (Modal.init ctx) es in
      Num.le Num.half (Num.sub (Modal.zoomLevel s) Num.tenth) = true ->
      Modal.zoomLevel (Modal.step (Modal.step s Modal.ZoomOutClick) Modal.ZoomInClick)
      = Modal.zoomLevel s)
  /\ (forall ctx answer es,
         let s := Inline.run (Inline.init ctx answer) es in
         Num.le Num.half (Num.sub (Inline.zoomLevel s) Num.tenth) = true ->
         Inline.zoomLevel
           (Inline.step (Inline.step s Inline.ZoomOutClick) Inline.ZoomInClick)
         = Inline.zoomLevel s)
  /\ (let s := Inline.run (Inline.init sampleContext Inline.ResourceFails)
                 (repeat Inline.ZoomOutClick 6 ++ repeat Inline.ZoomInClick 14) in
      let s' := Inline.step (Inline.step s Inline.ZoomInClick) Inline.ZoomOutClick in
      SFltb (Inline.zoomLevel (Inline.step s Inline.ZoomInClick)) Num.three = true
      /\ SFltb (Inline.zoomLevel s') (Inline.zoomLevel s) = true).
Proof.
  split; [|split].
  - intros ctx es s Hfloor.
    assert (Hz : In (Modal.zoomLevel s) zoomLevels) by apply run_level_modal.
    destruct (zoomFacts_unfold _ (zoomLevels_facts _ Hz)) as (_ & _ & _ & _ & _ & H).
    destruct (zoom_clicks_modal s) as (_ & Hout & _ & _ & Hm).
    destruct (zoom_clicks_modal (Modal.step s Modal.ZoomOutClick)) as (Hin & _).
    rewrite Hin, Hout.
    destruct (Modal.modal s) as [m|] eqn:Hs.
    + destruct (Modal.modal (Modal.step s Modal.ZoomOutClick)) eqn:Hs'.
      * now apply H.
      * destruct Hm as [Hm _]. discriminate (Hm eq_refl).
    + destruct (Modal.modal (Modal.step s Modal.ZoomOutClick)) eqn:Hs'; [|reflexivity].
      destruct Hm as [_ Hm]. discriminate (Hm eq_refl).
  - intros ctx answer es s Hfloor.
    assert (Hz : In (Inline.zoomLevel s) zoomLevels) by apply run_level_inline.
    destruct (zoomFacts_unfold _ (zoomLevels_facts _ Hz)) as (_ & _ & _ & _ & _ & H).
    destruct (zoom_clicks_inline s) as (_ & Hout & _ & _ & Hm).
    destruct (zoom_clicks_inline (Inline.step s Inline.ZoomOutClick)) as (Hin & _).
    rewrite Hin, Hout.
    destruct (Inline.zoomWrapper s) as [w|] eqn:Hs.
    + destruct (Inline.zoomWrapper (Inline.step s Inline.ZoomOutClick)) eqn:Hs'.
      * now apply H.
      * destruct Hm as [Hm _]. discriminate (Hm eq_refl).
    + destruct (Inline.zoomWrapper (Inline.step s Inline.ZoomOutClick)) eqn:Hs'; [|reflexivity].
      destruct Hm as [_ Hm]. discriminate (Hm eq_refl).
  - vm_compute. split; reflexivity.
Qed.
